(** * Restaurant ranking (SE Challenge Task 2, [main.py]): a shallow embedding

    The program loads a JSON document, attaches a score to every record,
    sorts the records on a four-part key, keeps the first ten, writes them
    to a file and submits them to a remote endpoint.

    The embedding follows the Python source function by function.  Python
    values are the values [json.load] produces; exceptions are explicit
    results; printing, the file write and the two HTTP calls are events of
    a trace.  Floats are IEEE binary64 numbers ([spec_float] with
    precision 53 and maximal exponent 1024), integers are unbounded.  The
    sine of the C library is a parameter of the scorer, and the outcomes of
    the file and network operations are the [world] that [main] runs in. *)

From Stdlib Require Import ZArith QArith Qround Bool List String Ascii.
From Stdlib Require Import Lia Lqa Permutation Sorted.
From Stdlib Require Import Floats.SpecFloat.
Import ListNotations.

Set Implicit Arguments.
#[local] Set Warnings "-register-all".

(** ** Python values and exceptions *)

(** What [json.load] returns: [None], booleans, integers, floats, strings,
    lists and dictionaries with string keys.  A dictionary keeps its
    insertion order, so it is an association list; [json.load] builds a
    fresh dictionary for every JSON object, so no two records of the input
    share a mutable object and a mutation of one record is a new value for
    that record only. *)
Inductive value : Type :=
| VNone
| VBool (b : bool)
| VInt (z : Z)
| VFloat (f : spec_float)
| VStr (s : string)
| VList (l : list value)
| VDict (d : list (string * value)).

(** The exceptions that the program meets.  The last two are raised by
    the decoding of a file or of a reply only: [UnicodeDecodeError] by
    bytes that are not text in the encoding, [RecursionError] by brackets
    nested too deep for the parser. *)
Inductive exn : Type :=
| KeyError (k : string)
| TypeError
| OverflowError
| ValueError
| ZeroDivisionError
| AttributeError
| UnicodeDecodeError
| RecursionError.

Inductive result (A : Type) : Type :=
| Ok (a : A)
| Raise (e : exn).

Arguments Ok {A} a.
Arguments Raise {A} e.

Definition bind {A B : Type} (r : result A) (k : A -> result B) : result B :=
  match r with
  | Ok a => k a
  | Raise e => Raise e
  end.

Notation "x <- r ;; k" := (bind r (fun x => k))
  (at level 61, r at next level, right associativity).

(** ** Binary64 arithmetic *)

Module F64.

Definition prec : Z := 53.
Definition emax : Z := 1024.

Definition mul := SFmul prec emax.
Definition add := SFadd prec emax.
Definition sub := SFsub prec emax.
Definition div := SFdiv prec emax.
Definition opp := SFopp.

(** The float nearest to the integer [z] (ties to even), infinite when
    [z] is out of range. *)
Definition of_Z (z : Z) : spec_float := binary_normalize prec emax z 0 false.

(** The float nearest to [n / d], for the decimal literals of the source
    and of the examples ([0.5] is [dec 5 10]). *)
Definition exact (n : Z) : spec_float :=
  match n with
  | Z0 => S754_zero false
  | Zpos p => S754_finite false p 0
  | Zneg p => S754_finite true p 0
  end.

Definition dec (n d : Z) : spec_float := div (exact n) (exact d).

Definition is_nan (f : spec_float) : bool :=
  match f with S754_nan => true | _ => false end.

Definition is_inf (f : spec_float) : bool :=
  match f with S754_infinity _ => true | _ => false end.

Definition is_finite (f : spec_float) : bool :=
  match f with S754_zero _ | S754_finite _ _ _ => true | _ => false end.

Definition is_zero (f : spec_float) : bool :=
  match f with S754_zero _ => true | _ => false end.

(** The exact rational value of a finite float. *)
Definition to_Q (f : spec_float) : Q :=
  match f with
  | S754_finite s m e =>
      let sm := cond_Zopp s (Zpos m) in
      match e with
      | Z0 => inject_Z sm
      | Zpos p => inject_Z (sm * Z.pow_pos 2 p)
      | Zneg p => Qmake sm (Pos.pow 2 p)
      end
  | _ => 0%Q
  end.

End F64.

(** ** Numbers: the numeric tower of the operators *)

(** Python's [bool] is a subclass of [int]: [True] counts as 1. *)
Inductive num : Type :=
| NInt (z : Z)
| NFloat (f : spec_float).

Definition as_num (v : value) : option num :=
  match v with
  | VBool b => Some (NInt (Z.b2z b))
  | VInt z => Some (NInt z)
  | VFloat f => Some (NFloat f)
  | _ => None
  end.

(** [PyLong_AsDouble]: the nearest float, or OverflowError
    ("int too large to convert to float"). *)
Definition int_to_float (z : Z) : result spec_float :=
  let f := F64.of_Z z in
  if F64.is_inf f then Raise OverflowError else Ok f.

Definition num_to_float (n : num) : result spec_float :=
  match n with
  | NInt z => int_to_float z
  | NFloat f => Ok f
  end.

(** ** The operators the scorer uses *)

Fixpoint str_repeat (s : string) (n : nat) : string :=
  match n with
  | O => EmptyString
  | S k => String.append s (str_repeat s k)
  end.

Fixpoint list_repeat (A : Type) (l : list A) (n : nat) : list A :=
  match n with
  | O => []
  | S k => l ++ list_repeat l k
  end.

(** Arithmetic on two numbers: integers stay integers, and as soon as one
    side is a float the other is converted (which overflows on a huge
    integer) and the operation is the binary64 one. *)
Definition num_arith (fz : Z -> Z -> Z)
    (ff : spec_float -> spec_float -> spec_float) (a b : num) : result value :=
  match a, b with
  | NInt x, NInt y => Ok (VInt (fz x y))
  | _, _ =>
      x <- num_to_float a ;;
      y <- num_to_float b ;;
      Ok (VFloat (ff x y))
  end.

(** [a * b].  A string or a list times an integer is a repetition. *)
Definition py_mul (a b : value) : result value :=
  match as_num a, as_num b with
  | Some x, Some y => num_arith Z.mul F64.mul x y
  | None, Some (NInt n) =>
      match a with
      | VStr s => Ok (VStr (str_repeat s (Z.to_nat n)))
      | VList l => Ok (VList (list_repeat l (Z.to_nat n)))
      | _ => Raise TypeError
      end
  | Some (NInt n), None =>
      match b with
      | VStr s => Ok (VStr (str_repeat s (Z.to_nat n)))
      | VList l => Ok (VList (list_repeat l (Z.to_nat n)))
      | _ => Raise TypeError
      end
  | _, _ => Raise TypeError
  end.

(** [a - b]. *)
Definition py_sub (a b : value) : result value :=
  match as_num a, as_num b with
  | Some x, Some y => num_arith Z.sub F64.sub x y
  | _, _ => Raise TypeError
  end.

(** [a + b].  Two strings or two lists are concatenated. *)
Definition py_add (a b : value) : result value :=
  match as_num a, as_num b with
  | Some x, Some y => num_arith Z.add F64.add x y
  | _, _ =>
      match a, b with
      | VStr s, VStr t => Ok (VStr (String.append s t))
      | VList l, VList m => Ok (VList (l ++ m))
      | _, _ => Raise TypeError
      end
  end.

(** [a / b], true division.  Two integers give the float nearest to the
    exact quotient. *)
Definition py_truediv (a b : value) : result value :=
  match as_num a, as_num b with
  | Some (NInt x), Some (NInt y) =>
      if Z.eqb y 0 then Raise ZeroDivisionError
      else
        let q := F64.div (F64.exact x) (F64.exact y) in
        if F64.is_inf q then Raise OverflowError else Ok (VFloat q)
  | Some x, Some y =>
      fx <- num_to_float x ;;
      fy <- num_to_float y ;;
      if F64.is_zero fy then Raise ZeroDivisionError
      else Ok (VFloat (F64.div fx fy))
  | _, _ => Raise TypeError
  end.

(** Unary [-a]. *)
Definition py_neg (a : value) : result value :=
  match as_num a with
  | Some (NInt x) => Ok (VInt (- x))
  | Some (NFloat f) => Ok (VFloat (F64.opp f))
  | None => Raise TypeError
  end.

(** *** [math.sin]

    The C library's [sin] is platform code.  What every platform agrees on
    is fixed here (C99 Annex F: a zero gives that zero, an infinity or a NaN
    gives NaN); the value at the other floats is the parameter [libm]. *)
Definition c_sin (libm : spec_float -> spec_float) (x : spec_float) : spec_float :=
  match x with
  | S754_zero s => S754_zero s
  | S754_infinity _ => S754_nan
  | S754_nan => S754_nan
  | S754_finite _ _ _ => libm x
  end.

(** [math.sin(v)]: the argument is converted to a float (TypeError if it is
    not a number, OverflowError if it is a huge integer); a NaN result for
    a non-NaN argument, or an infinite result for a finite argument, is a
    ValueError ("math domain error"). *)
Definition math_sin (libm : spec_float -> spec_float) (v : value) : result value :=
  match as_num v with
  | None => Raise TypeError
  | Some n =>
      x <- num_to_float n ;;
      let r := c_sin libm x in
      if F64.is_nan r && negb (F64.is_nan x) then Raise ValueError
      else if F64.is_inf r && F64.is_finite x then Raise ValueError
      else Ok (VFloat r)
  end.

(** *** [round(x, 2)] *)

(** The integer nearest to [q], a tie going to the even neighbour. *)
Definition round_half_even (q : Q) : Z :=
  let n := Qfloor q in
  match Qcompare (q - inject_Z n) (1 # 2) with
  | Lt => n
  | Gt => (n + 1)%Z
  | Eq => if Z.even n then n else (n + 1)%Z
  end.

(** [float.__round__] with [ndigits = 2]: a NaN, an infinity and a zero
    are returned as they are; a finite [x] is printed with two digits after
    the point, correctly rounded from its exact binary value with ties to
    even, and the decimal is read back as the nearest float.  A result of
    zero keeps the sign of [x]. *)
Definition float_round2 (x : spec_float) : result spec_float :=
  match x with
  | S754_finite s _ _ =>
      let n := round_half_even (F64.to_Q x * 100) in
      match n with
      | Z0 => Ok (S754_zero s)
      | _ =>
          let r := F64.div (F64.exact n) (F64.exact 100) in
          if F64.is_inf r then Raise OverflowError else Ok r
      end
  | _ => Ok x
  end.

(** [round(v, 2)]: an integer rounds to itself. *)
Definition py_round2 (v : value) : result value :=
  match as_num v with
  | Some (NInt z) => Ok (VInt z)
  | Some (NFloat f) => r <- float_round2 f ;; Ok (VFloat r)
  | None => Raise TypeError
  end.

(** ** Subscripting *)

Fixpoint dict_get (d : list (string * value)) (k : string) : option value :=
  match d with
  | [] => None
  | (k', v) :: r => if String.eqb k' k then Some v else dict_get r k
  end.

(** [d[k] = v] on a dictionary: an existing key keeps its position and
    takes the new value, a new key goes to the end. *)
Fixpoint dict_set (d : list (string * value)) (k : string) (v : value)
    : list (string * value) :=
  match d with
  | [] => [(k, v)]
  | (k', w) :: r =>
      if String.eqb k' k then (k', v) :: r else (k', w) :: dict_set r k v
  end.

(** [entry[k]] with a string [k]: KeyError on a dictionary without the
    key, TypeError on anything that is not a dictionary. *)
Definition py_getitem (entry : value) (k : string) : result value :=
  match entry with
  | VDict d =>
      match dict_get d k with
      | Some v => Ok v
      | None => Raise (KeyError k)
      end
  | _ => Raise TypeError
  end.

(** [entry[k] = v] with a string [k]. *)
Definition py_setitem (entry : value) (k : string) (v : value) : result value :=
  match entry with
  | VDict d => Ok (VDict (dict_set d k v))
  | _ => Raise TypeError
  end.

(** ** Scorer: [calculate_score] *)

Section Scorer.

Variable libm : spec_float -> spec_float.

Definition c_10 : value := VInt 10.
Definition c_0_5 : value := VFloat (F64.dec 5 10).
Definition c_2 : value := VInt 2.
Definition c_100 : value := VInt 100.

(** Statement by statement, subexpressions left to right as Python
    evaluates them. *)
Definition calculate_score (entry : value) : result value :=
  rating <- py_getitem entry "rating" ;;
  distance <- py_getitem entry "distance_from_me" ;;
  id_ <- py_getitem entry "id" ;;
  t1 <- py_mul rating c_10 ;;
  t2 <- py_mul distance c_0_5 ;;
  t3 <- py_sub t1 t2 ;;
  t4 <- math_sin libm id_ ;;
  t5 <- py_mul t4 c_2 ;;
  t6 <- py_add t3 t5 ;;
  t7 <- py_mul t6 c_100 ;;
  score <- py_add t7 c_0_5 ;;
  t8 <- py_truediv score c_100 ;;
  final_score <- py_round2 t8 ;;
  Ok final_score.

End Scorer.

(** ** Comparison of values, as the sort uses it *)

(** A number as an extended rational.  Python compares an integer with a
    float by their exact values. *)
Inductive ext : Type :=
| ENaN
| ENegInf
| EFin (q : Q)
| EPosInf.

Definition ext_of_num (n : num) : ext :=
  match n with
  | NInt z => EFin (inject_Z z)
  | NFloat S754_nan => ENaN
  | NFloat (S754_infinity true) => ENegInf
  | NFloat (S754_infinity false) => EPosInf
  | NFloat f => EFin (F64.to_Q f)
  end.

Definition ext_eqb (a b : ext) : bool :=
  match a, b with
  | ENegInf, ENegInf => true
  | EPosInf, EPosInf => true
  | EFin p, EFin q => Qeq_bool p q
  | _, _ => false
  end.

Definition ext_ltb (a b : ext) : bool :=
  match a, b with
  | ENaN, _ | _, ENaN => false
  | ENegInf, ENegInf => false
  | ENegInf, _ => true
  | _, ENegInf => false
  | EPosInf, _ => false
  | _, EPosInf => true
  | EFin p, EFin q => negb (Qle_bool q p)
  end.

(** [v == w].  Numbers by value (so [4 == 4.0] and [True == 1]), strings
    by content, lists element by element, dictionaries key by key. *)
Fixpoint py_eq (v w : value) {struct v} : bool :=
  match as_num v, as_num w with
  | Some a, Some b => ext_eqb (ext_of_num a) (ext_of_num b)
  | _, _ =>
      match v, w with
      | VNone, VNone => true
      | VStr s, VStr t => String.eqb s t
      | VList l, VList m =>
          (fix go (l m : list value) {struct l} : bool :=
             match l, m with
             | [], [] => true
             | x :: l', y :: m' => py_eq x y && go l' m'
             | _, _ => false
             end) l m
      | VDict d, VDict e =>
          Nat.eqb (List.length d) (List.length e) &&
          (fix go (d : list (string * value)) {struct d} : bool :=
             match d with
             | [] => true
             | (k, x) :: d' =>
                 match dict_get e k with
                 | Some y => py_eq x y
                 | None => false
                 end && go d'
             end) d
      | _, _ => false
      end
  end.

(** [v < w]: defined between two numbers, two strings (by code point; the
    bytes of UTF-8 order the same way) and two lists; anything else is a
    TypeError. *)
Fixpoint py_lt (v w : value) {struct v} : result bool :=
  match as_num v, as_num w with
  | Some a, Some b => Ok (ext_ltb (ext_of_num a) (ext_of_num b))
  | _, _ =>
      match v, w with
      | VStr s, VStr t => Ok (String.ltb s t)
      | VList l, VList m =>
          (fix go (l m : list value) {struct l} : result bool :=
             match l, m with
             | [], [] => Ok false
             | [], _ :: _ => Ok true
             | _ :: _, [] => Ok false
             | x :: l', y :: m' => if py_eq x y then go l' m' else py_lt x y
             end) l m
      | _, _ => Raise TypeError
      end
  end.

(** [t < u] on two tuples: the first position where the items are not
    [==] decides, by [<] on those items; without such a position the
    shorter tuple is the smaller. *)
Fixpoint tuple_lt (t u : list value) : result bool :=
  match t, u with
  | [], [] => Ok false
  | [], _ :: _ => Ok true
  | _ :: _, [] => Ok false
  | x :: t', y :: u' => if py_eq x y then tuple_lt t' u' else py_lt x y
  end.

(** ** [sorted(iterable, key=f)] *)

(** [sorted] computes the key of every item first, in order, and then
    sorts the items on their keys with [<] alone, by the algorithm of
    [list.sort] (CPython 3.6 to 3.12, [Objects/listobject.c]).  On a list
    of fewer than 64 items that algorithm is: [count_run] takes the run
    that starts the list, which goes on while no item is smaller than the
    one before it, or, when the second item is smaller than the first,
    while every item is smaller than the one before it (such a run is then
    reversed); [binarysort] inserts each later item into the sorted slice
    before it, at the place a binary search finds.  The definitions below
    follow the two functions comparison by comparison, so they also say
    what the sort returns when [<] does not order the keys (a NaN among
    them) and which comparison raises first.

    CPython cuts a list of 64 items or more into runs of 32 to 64 items,
    sorts each of them as above and merges them.  The merge is not
    reproduced: a longer list is sorted here as a shorter one is, which is
    the list that CPython returns whenever [<] orders the keys as a strict
    weak order, and may be another list otherwise.  Nor is the shortcut
    of the tuple comparison reproduced that takes one and the same object
    to be equal to itself: the first two parts of the key of [main] are
    numbers that the negation has just made, and the shortcut tells only
    where two keys hold one and the same NaN. *)
Section Sorted.

Variable A : Type.
Variable lt : A -> A -> result bool.

(** The second loop of [count_run]: how many items of [l], which follows
    [prev], go on the ascending run. *)
Fixpoint ascending_run (prev : A) (l : list A) : result nat :=
  match l with
  | [] => Ok 0%nat
  | x :: r =>
      b <- lt x prev ;;
      if b then Ok 0%nat else (n <- ascending_run x r ;; Ok (S n))
  end.

(** The first loop of [count_run]: the same for a descending run. *)
Fixpoint descending_run (prev : A) (l : list A) : result nat :=
  match l with
  | [] => Ok 0%nat
  | x :: r =>
      b <- lt x prev ;;
      if b then (n <- descending_run x r ;; Ok (S n)) else Ok 0%nat
  end.

(** [count_run]: the length of the run that starts the list, and whether
    it descends. *)
Definition count_run (l : list A) : result (nat * bool) :=
  match l with
  | [] => Ok (0%nat, false)
  | [_] => Ok (1%nat, false)
  | x :: y :: r =>
      b <- lt y x ;;
      if b then (n <- descending_run y r ;; Ok (S (S n), true))
      else (n <- ascending_run y r ;; Ok (S (S n), false))
  end.

(** The inner loop of [binarysort], with its variables [l], [r] and [p]:
    [p = l + ((r - l) >> 1)], then [r = p] when [pivot < a[p]] and
    [l = p + 1] otherwise, until [l = r].  Every turn of the loop brings
    [l] and [r] closer, so it turns at most [r - l] times, which is the
    [fuel] that [binarysort] gives it. *)
Fixpoint binary_search (fuel : nat) (a : list A) (pivot : A) (l r : nat)
    : result nat :=
  match fuel with
  | O => Ok l
  | S fuel' =>
      if (l <? r)%nat then
        let p := (l + (r - l) / 2)%nat in
        match nth_error a p with
        | Some y =>
            b <- lt pivot y ;;
            if b then binary_search fuel' a pivot l p
            else binary_search fuel' a pivot (S p) r
        | None => Ok l
        end
      else Ok l
  end.

(** [binarysort]: [a] is the sorted slice, [rest] the items still to
    insert, the first of them being the pivot. *)
Fixpoint binarysort (a rest : list A) : result (list A) :=
  match rest with
  | [] => Ok a
  | pivot :: rest' =>
      l <- binary_search (List.length a) a pivot 0 (List.length a) ;;
      binarysort (firstn l a ++ pivot :: skipn l a) rest'
  end.

(** [list.sort]: nothing to do for fewer than two items; otherwise the
    first run, reversed when it descends, and the binary insertion of the
    other items. *)
Definition list_sort (l : list A) : result (list A) :=
  match l with
  | [] | [_] => Ok l
  | _ =>
      run <- count_run l ;;
      let (n, descending) := run in
      binarysort (if descending then rev (firstn n l) else firstn n l)
        (skipn n l)
  end.

End Sorted.

Fixpoint mapM (A B : Type) (f : A -> result B) (l : list A) : result (list B) :=
  match l with
  | [] => Ok []
  | x :: r => y <- f x ;; ys <- mapM f r ;; Ok (y :: ys)
  end.

Definition sorted (key : value -> result (list value)) (l : list value)
    : result (list value) :=
  keys <- mapM key l ;;
  s <- list_sort (fun a b => tuple_lt (fst a) (fst b)) (combine keys l) ;;
  Ok (map snd s).

(** ** Ranker: the sort and the slice of [main] *)

(** [lambda x: (-x["score"], -x["rating"], x["distance_from_me"],
    x["restaurant_name"])] *)
Definition sort_key (x : value) : result (list value) :=
  score <- py_getitem x "score" ;;
  k1 <- py_neg score ;;
  rating <- py_getitem x "rating" ;;
  k2 <- py_neg rating ;;
  k3 <- py_getitem x "distance_from_me" ;;
  k4 <- py_getitem x "restaurant_name" ;;
  Ok [k1; k2; k3; k4].

(** [sorted(validated_data, key=...)[:10]] *)
Definition rank (validated_data : list value) : result (list value) :=
  sorted_data <- sorted sort_key validated_data ;;
  Ok (firstn 10 sorted_data).

(** The dictionary display of the output comprehension. *)
Definition project (entry : value) : result value :=
  id_ <- py_getitem entry "id" ;;
  name <- py_getitem entry "restaurant_name" ;;
  rating <- py_getitem entry "rating" ;;
  distance <- py_getitem entry "distance_from_me" ;;
  score <- py_getitem entry "score" ;;
  Ok (VDict [("id", id_); ("restaurant_name", name); ("rating", rating);
             ("distance_from_me", distance); ("score", score)]%string).

(** ** The outside world and the trace of a run *)

(** What opening and parsing the input file gives: the document, or the
    exception that [open] or [json.load] raises.  The loader names two
    exceptions, [FileNotFoundError] (no such file) and [JSONDecodeError]
    (text that is not JSON); [LoadError] stands for every other one, such
    as the [UnicodeDecodeError] of a file whose bytes are not text in the
    encoding, the [RecursionError] of brackets nested too deep, or the
    [ValueError] of an integer literal with more digits than the
    interpreter converts. *)
Inductive file_outcome : Type :=
| FileNotFoundError
| JSONDecodeError
| LoadError (e : exn)
| Parsed (data : value).

(** What one HTTP request gives: a failure that [requests] reports as a
    [RequestException] (no connection, timeout, ...), or a response with
    its status code and its body as text, and with what [response.json()]
    makes of the body.  In a [Response] that is the parsed body when the
    body is JSON, and nothing when it is not: [response.json()] then
    raises a [RequestException] as well.  In a [ResponseJsonError] it is
    an exception that the parser raises and [requests] does not wrap (the
    [ValueError] of an integer literal with too many digits, the
    [RecursionError] of brackets nested too deep), which therefore is not
    a [RequestException]. *)
Inductive http_outcome : Type :=
| RequestException
| Response (status : Z) (json : option value) (text : string)
| ResponseJsonError (status : Z) (e : exn) (text : string).

Record world : Type := World {
  input_source : file_outcome;
  output_writable : bool;
  register_reply : http_outcome;
  check_reply : http_outcome
}.

(** A [print] is its text, the fields of an f-string left as they are
    written and their values listed after it. *)
Inductive event : Type :=
| EvPrint (text : string) (args : list value)
| EvWrite (file : string) (data : value)
| EvGet (url : string)
| EvPost (url : string) (headers : list (string * value)) (json : value).

(** A computation of the program: the events so far and how it ended. *)
Definition io (A : Type) : Type := (list event * result A)%type.

Definition ret {A : Type} (a : A) : io A := ([], Ok a).

Definition emit (e : event) : io unit := ([e], Ok tt).

Definition print (text : string) (args : list value) : io unit :=
  emit (EvPrint text args).

Definition lift {A : Type} (r : result A) : io A := ([], r).

Definition iobind {A B : Type} (m : io A) (k : A -> io B) : io B :=
  match m with
  | (t, Ok a) => let (t', r) := k a in (t ++ t', r)
  | (t, Raise e) => (t, Raise e)
  end.

Notation "x <~ m ;; k" := (iobind m (fun x => k))
  (at level 61, m at next level, right associativity).
Notation "m ;;; k" := (iobind m (fun _ => k))
  (at level 61, right associativity).

Definition API_URL : string :=
  "https://u8whitimu7.execute-api.ap-southeast-1.amazonaws.com/prod".
Definition REGISTER_ENDPOINT : string := "/register".
Definition CHECK_TOPK_ENDPOINT : string := "/test/check-topk-sort".
Definition INPUT_FILE : string := "validated_dataset.json".
Definition OUTPUT_FILE : string := "top_results.json".

(** Truth value of a value ([if not validated_data], [if token]). *)
Definition truthy (v : value) : bool :=
  match v with
  | VNone => false
  | VBool b => b
  | VInt z => negb (Z.eqb z 0)
  | VFloat f => negb (F64.is_zero f)
  | VStr s => negb (String.eqb s "")
  | VList l => match l with [] => false | _ => true end
  | VDict d => match d with [] => false | _ => true end
  end.

(** [v.get(k, default)]: only a dictionary has the method. *)
Definition py_get (v : value) (k : string) (default : value) : result value :=
  match v with
  | VDict d =>
      match dict_get d k with
      | Some x => Ok x
      | None => Ok default
      end
  | _ => Raise AttributeError
  end.

(** [response.raise_for_status()] raises for the codes 400 to 599. *)
Definition is_error_status (status : Z) : bool :=
  (400 <=? status)%Z && (status <? 600)%Z.

(** The items a [for] loop or [sorted] draws from a value: the elements of
    a list, the keys of a dictionary, the characters of a string; nothing
    else of JSON is iterable. *)
Fixpoint chars (s : string) : list value :=
  match s with
  | EmptyString => []
  | String c r => VStr (String c EmptyString) :: chars r
  end.

Definition py_iter (v : value) : result (list value) :=
  match v with
  | VList l => Ok l
  | VDict d => Ok (map (fun kv => VStr (fst kv)) d)
  | VStr s => Ok (chars s)
  | _ => Raise TypeError
  end.

(** ** Token client: [get_authorization_token]

    Its [except] clause names [requests.exceptions.RequestException]; an
    exception of another class leaves the function. *)

Definition get_authorization_token (w : world) (api_url : string) : io value :=
  let register_endpoint := String.append api_url REGISTER_ENDPOINT in
  print "Fetching authorization token..." [] ;;;
  emit (EvGet register_endpoint) ;;;
  match register_reply w with
  | RequestException =>
      print "An error occurred while fetching the token: {e}" [] ;;;
      ret VNone
  | Response status json _ =>
      if is_error_status status then
        print "An error occurred while fetching the token: {e}" [] ;;;
        ret VNone
      else
        match json with
        | None =>
            print "An error occurred while fetching the token: {e}" [] ;;;
            ret VNone
        | Some body =>
            data <~ lift (py_get body "data" (VDict [])) ;;
            token <~ lift (py_get data "authorizationToken" VNone) ;;
            if truthy token then
              print "Authorization Token received." [] ;;;
              ret token
            else
              print "Token not found in response." [] ;;;
              ret VNone
        end
  | ResponseJsonError status e _ =>
      if is_error_status status then
        print "An error occurred while fetching the token: {e}" [] ;;;
        ret VNone
      else
        lift (Raise e)
  end.

(** ** Loader: [load_validated_data]

    Its two [except] clauses name [FileNotFoundError] and
    [json.JSONDecodeError]; any other exception leaves the function. *)

Definition load_validated_data (w : world) (input_file : string) : io value :=
  match input_source w with
  | Parsed data =>
      match data with
      | VDict d =>
          match dict_get d "data" with
          | Some inner => ret inner
          | None => ret data
          end
      | _ => ret data
      end
  | FileNotFoundError =>
      print "Input file '{input_file}' not found." [VStr input_file] ;;;
      ret (VList [])
  | JSONDecodeError =>
      print "Error decoding JSON from '{input_file}': {e}" [VStr input_file] ;;;
      ret (VList [])
  | LoadError e => lift (Raise e)
  end.

(** ** Writer: [write_output_file] *)

Definition write_output_file (w : world) (output_data : value)
    (output_file : string) : io unit :=
  if output_writable w then
    emit (EvWrite output_file output_data) ;;;
    print "Top 10 results saved to '{output_file}'." [VStr output_file]
  else
    print "Error writing to output file '{output_file}': {e}" [VStr output_file].

(** ** Submitter: [submit_results]

    The submitter reads the status and the text of the reply and never
    calls [response.json()]. *)

Definition submit_results (w : world) (api_url : string) (token : value)
    (output : value) : io unit :=
  let headers :=
    [("Authorization", token); ("Content-Type", VStr "application/json")]%string in
  print "Submitting the top 10 results for verification..." [] ;;;
  emit (EvPost (String.append api_url CHECK_TOPK_ENDPOINT) headers
          (VDict [("data", output)]%string)) ;;;
  match check_reply w with
  | RequestException =>
      print "An error occurred while submitting the results: {e}" []
  | Response status _ text | ResponseJsonError status _ text =>
      if is_error_status status then
        print "An error occurred while submitting the results: {e}" []
      else
        print "Submission successful!" [] ;;;
        print "Response from server:" [] ;;;
        print "{response.text}" [VStr text]
  end.

(** ** Orchestrator: [main] *)

Section Main.

Variable libm : spec_float -> spec_float.
Variable w : world.

(** The body of the scoring loop for one entry: the entry as the loop
    leaves it.  Only KeyError and TypeError are handled. *)
Definition score_entry (entry : value) : io value :=
  match (s <- calculate_score libm entry ;; py_setitem entry "score" s) with
  | Ok entry' => ret entry'
  | Raise (KeyError k) =>
      print "Missing expected field {e} in entry: {entry}" [VStr k; entry] ;;;
      ret entry
  | Raise TypeError =>
      print "Type error in entry {entry}: {e}" [entry] ;;;
      ret entry
  | Raise e => lift (Raise e)
  end.

Fixpoint score_all (entries : list value) : io (list value) :=
  match entries with
  | [] => ret []
  | entry :: rest =>
      entry' <~ score_entry entry ;;
      rest' <~ score_all rest ;;
      ret (entry' :: rest')
  end.

Definition main : io unit :=
  validated_data <~ load_validated_data w INPUT_FILE ;;
  if negb (truthy validated_data) then
    print "No data to process. Exiting." []
  else
    entries <~ lift (py_iter validated_data) ;;
    scored <~ score_all entries ;;
    top_10_results <~ lift (rank scored) ;;
    output <~ lift (mapM project top_10_results) ;;
    write_output_file w (VList output) OUTPUT_FILE ;;;
    token <~ get_authorization_token w API_URL ;;
    if negb (truthy token) then
      print "Failed to fetch authorization token. Exiting..." []
    else
      submit_results w API_URL token (VList output).

End Main.

Definition is_post (e : event) : bool :=
  match e with EvPost _ _ _ => true | _ => false end.

Definition is_write (e : event) : bool :=
  match e with EvWrite _ _ => true | _ => false end.

Definition is_get (e : event) : bool :=
  match e with EvGet _ => true | _ => false end.

(** ** The specification's wording, for comparison with the code *)

(** *** The score formula (specification, section 4.2)

    [round(((rating*10 - distance_from_me*0.5 + sin(id)*2)*100 + 0.5)/100, 2)]
    as one expression: every operator evaluates its left operand, then its
    right operand, then applies. *)
Section Formula.

Variable libm : spec_float -> spec_float.

Definition op2 (f : value -> value -> result value)
    (a b : result value) : result value :=
  x <- a ;; y <- b ;; f x y.

Definition op1 (f : value -> result value) (a : result value) : result value :=
  x <- a ;; f x.

Definition score_formula (rating distance id_ : value) : result value :=
  let sin := op1 (math_sin libm) in
  let round2 := op1 py_round2 in
  let mul := op2 py_mul in
  let sub := op2 py_sub in
  let add := op2 py_add in
  let div := op2 py_truediv in
  round2
    (div
       (add
          (mul
             (add (sub (mul (Ok rating) (Ok c_10)) (mul (Ok distance) (Ok c_0_5)))
                  (mul (sin (Ok id_)) (Ok c_2)))
             (Ok c_100))
          (Ok c_0_5))
       (Ok c_100)).

(** The value that [calculate_score] hands to [round]: [score / 100]. *)
Definition score_before_rounding (entry : value) : result value :=
  rating <- py_getitem entry "rating" ;;
  distance <- py_getitem entry "distance_from_me" ;;
  id_ <- py_getitem entry "id" ;;
  op2 py_truediv
    (op2 py_add
       (op2 py_mul
          (op2 py_add
             (op2 py_sub (py_mul rating c_10) (py_mul distance c_0_5))
             (op2 py_mul (math_sin libm id_) (Ok c_2)))
          (Ok c_100))
       (Ok c_0_5))
    (Ok c_100).

End Formula.

(** How the scorer ends on a record whose three fields are numbers: with
    a number for a score, or with one of the two exceptions that the loop
    of [main] does not handle; never with the KeyError or TypeError that
    make the loop skip the record. *)
Definition numeric_outcome (r : result value) : Prop :=
  match r with
  | Ok v => as_num v <> None
  | Raise OverflowError => True
  | Raise ValueError => True
  | Raise _ => False
  end.

(** Rounding half-up to an integer, the rounding the specification names
    (section 3): the half goes up. *)
Definition round_half_up (q : Q) : Z := Qfloor (q + (1 # 2)).

(** The float that rounding [x] half-up at two decimals would give. *)
Definition half_up_round2 (x : spec_float) : spec_float :=
  F64.div (F64.exact (round_half_up (F64.to_Q x * 100))) (F64.exact 100).

(** A number in the sense of the data model: an integer (or boolean) or a
    float that is not a NaN, with its exact value. *)
Definition number (v : value) : option ext :=
  match as_num v with
  | Some n =>
      match ext_of_num n with
      | ENaN => None
      | e => Some e
      end
  | None => None
  end.

Definition is_number (v : value) : bool :=
  match number v with Some _ => true | None => false end.

(** *** The composite order (specification, section 4.3) *)

(** A Scored Record as the ranker reads it. *)
Record scored : Type := Scored {
  score : ext;
  rating : ext;
  distance_from_me : ext;
  restaurant_name : string
}.

Definition scored_view (x : value) : option scored :=
  match py_getitem x "score", py_getitem x "rating",
        py_getitem x "distance_from_me", py_getitem x "restaurant_name" with
  | Ok s, Ok r, Ok d, Ok (VStr n) =>
      match number s, number r, number d with
      | Some s', Some r', Some d' => Some (Scored s' r' d' n)
      | _, _, _ => None
      end
  | _, _, _, _ => None
  end.

Definition is_scored (x : value) : bool :=
  match scored_view x with Some _ => true | None => false end.

Definition ext_lt (a b : ext) : Prop := ext_ltb a b = true.
Definition ext_eq (a b : ext) : Prop := ext_eqb a b = true.
Definition str_lt (s t : string) : Prop := String.ltb s t = true.

(** [a] ranks strictly before [b]: score descending, then rating
    descending, then distance ascending, then name ascending. *)
Definition ranks_before (a b : scored) : Prop :=
  ext_lt (score b) (score a) \/
  (ext_eq (score a) (score b) /\
   (ext_lt (rating b) (rating a) \/
    (ext_eq (rating a) (rating b) /\
     (ext_lt (distance_from_me a) (distance_from_me b) \/
      (ext_eq (distance_from_me a) (distance_from_me b) /\
       str_lt (restaurant_name a) (restaurant_name b)))))).

(** All four keys equal. *)
Definition tied (a b : scored) : Prop :=
  ext_eq (score a) (score b) /\
  ext_eq (rating a) (rating b) /\
  ext_eq (distance_from_me a) (distance_from_me b) /\
  restaurant_name a = restaurant_name b.

Definition tiedb (a b : scored) : bool :=
  ext_eqb (score a) (score b) && ext_eqb (rating a) (rating b) &&
  ext_eqb (distance_from_me a) (distance_from_me b) &&
  String.eqb (restaurant_name a) (restaurant_name b).

(** Two records in ranking order: the first ranks before the second or
    ties with it. *)
Definition in_rank_order (x y : value) : Prop :=
  exists a b, scored_view x = Some a /\ scored_view y = Some b /\
              (ranks_before a b \/ tied a b).

(** The records of a list that tie with the record [x]. *)
Definition ties_with (x y : value) : bool :=
  match scored_view x, scored_view y with
  | Some a, Some b => tiedb a b
  | _, _ => false
  end.

(** *** The order the sort works with *)

(** A total comparison of extended rationals; it places NaN, which the
    operators do not order, below everything, and agrees with [<] and [==]
    on the numbers. *)
Definition ext_compare (a b : ext) : comparison :=
  match a, b with
  | ENaN, ENaN => Eq
  | ENaN, _ => Lt
  | _, ENaN => Gt
  | ENegInf, ENegInf => Eq
  | ENegInf, _ => Lt
  | _, ENegInf => Gt
  | EPosInf, EPosInf => Eq
  | EPosInf, _ => Gt
  | _, EPosInf => Lt
  | EFin p, EFin q => Qcompare p q
  end.

Definition ext_opp (a : ext) : ext :=
  match a with
  | ENaN => ENaN
  | ENegInf => EPosInf
  | EPosInf => ENegInf
  | EFin q => EFin (- q)
  end.

Definition lex (c d : comparison) : comparison :=
  match c with Eq => d | _ => c end.

(** The key of a record as the sort sees it: negated score, negated
    rating, distance, name. *)
Definition akey : Type := (ext * ext * ext * string)%type.

Definition akey_compare (a b : akey) : comparison :=
  let '(a1, a2, a3, a4) := a in
  let '(b1, b2, b3, b4) := b in
  lex (ext_compare a1 b1)
    (lex (ext_compare a2 b2) (lex (ext_compare a3 b3) (String.compare a4 b4))).

Definition key_view (k : list value) : option akey :=
  match k with
  | [k1; k2; k3; VStr n] =>
      match number k1, number k2, number k3 with
      | Some e1, Some e2, Some e3 => Some (e1, e2, e3, n)
      | _, _, _ => None
      end
  | _ => None
  end.

Definition akey_of (a : scored) : akey :=
  (ext_opp (score a), ext_opp (rating a), distance_from_me a, restaurant_name a).

(** ** Worlds and records of the examples *)

(** Every record of the examples has [id] 0, where [c_sin] answers by
    itself; this platform function is never consulted there. *)
Definition no_libm (x : spec_float) : spec_float := S754_nan.

Definition record (name : string) (rating distance : value) : value :=
  VDict [("id", VInt 0); ("restaurant_name", VStr name);
         ("rating", rating); ("distance_from_me", distance)]%string.

Definition token_reply : http_outcome :=
  Response 200
    (Some (VDict [("data", VDict [("authorizationToken", VStr "token")])]%string))
    "".

Definition world_of (data : value) : world :=
  World (Parsed data) true token_reply (Response 200 None "ok").

(** ** Traces of a run *)

(** A trace without events of the kind [p]. *)
Definition quiet (p : event -> bool) (t : list event) : Prop :=
  forallb (fun e => negb (p e)) t = true.

Definition no_post : list event -> Prop := quiet is_post.

(** ** The scoring pass on one entry *)

(** What the loop body does to one entry. *)
Definition scored_from (libm : spec_float -> spec_float)
    (entry entry' : value) : Prop :=
  (forall k, k <> "score"%string -> py_getitem entry' k = py_getitem entry k) /\
  (entry' = entry \/
   exists s, calculate_score libm entry = Ok s /\
             py_getitem entry' "score" = Ok s).

(** ** The result of [round] *)

(** The float nearest to [n / 100]; a zero takes the sign [s]. *)
Definition hundredths (s : bool) (n : Z) : spec_float :=
  match n with
  | Z0 => S754_zero s
  | _ => F64.div (F64.exact n) (F64.exact 100)
  end.

Definition sign_of (x : spec_float) : bool :=
  match x with
  | S754_zero s | S754_infinity s | S754_finite s _ _ => s
  | S754_nan => false
  end.

(** ** Comparisons that are orders *)

(** A comparison is an order when swapping its arguments swaps its answer
    and each of its three answers is transitive. *)
Record comparison_order (B : Type) (cmp : B -> B -> comparison) : Prop := {
  cmp_antisym : forall a b, cmp b a = CompOpp (cmp a b);
  cmp_trans : forall c a b d, cmp a b = c -> cmp b d = c -> cmp a d = c
}.

(** *** Items seen through a comparison of their keys *)

Section SortNotions.

Variables A B : Type.
Variable view : A -> option B.
Variable cmp : B -> B -> comparison.

(** The item has a key that the comparison knows. *)
Definition viewed (a : A) : Prop := exists x, view a = Some x.

(** The key of [a] is not greater than the key of [b]. *)
Definition le_view (a b : A) : Prop :=
  exists x y, view a = Some x /\ view b = Some y /\ cmp x y <> Gt.

(** The key of [a] is smaller than the key of [b]. *)
Definition below_view (a b : A) : Prop :=
  exists x y, view a = Some x /\ view b = Some y /\ cmp x y = Lt.

(** The keys of [z] and [a] compare equal. *)
Definition eq_view (z a : A) : bool :=
  match view z, view a with
  | Some x, Some y => match cmp x y with Eq => true | _ => false end
  | _, _ => false
  end.

End SortNotions.

(** A key with the record it was computed from. *)
Definition keyed (p : list value * value) : Prop :=
  exists a, scored_view (snd p) = Some a /\ key_view (fst p) = Some (akey_of a).

(** Twelve records, three of which (notes 1, 4 and 12) tie on all four
    keys, and what the scoring pass makes of them. *)
Definition noted (note name : string) (rating distance : value) : value :=
  VDict [("id", VInt 0); ("restaurant_name", VStr name);
         ("rating", rating); ("distance_from_me", distance);
         ("note", VStr note)]%string.

Definition twelve_records : list value :=
  [noted "1" "A" (VInt 4) (VInt 2); noted "2" "B" (VInt 4) (VInt 1);
   noted "3" "C" (VInt 5) (VInt 12); noted "4" "A" (VInt 4) (VInt 2);
   noted "5" "E" (VFloat (F64.dec 45 10)) (VInt 3);
   noted "6" "F" (VInt 3) (VFloat (F64.dec 5 10));
   noted "7" "G" (VInt 2) (VInt 0); noted "8" "H" (VInt 5) (VInt 12);
   noted "9" "I" (VInt 1) (VInt 7);
   noted "10" "J" (VInt 4) (VFloat (F64.dec 20 10));
   noted "11" "K" (VInt 0) (VInt 0);
   noted "12" "A" (VFloat (F64.dec 40 10)) (VInt 2)].

Definition twelve_scored : list value :=
  Eval vm_compute in
    match score_all no_libm twelve_records with
    | (_, Ok l) => l
    | _ => []
    end.

Definition notes (l : list value) : list string :=
  map (fun x => match py_getitem x "note" with
                | Ok (VStr n) => n
                | _ => EmptyString
                end) l.

(** Seven records: the fifth and the seventh tie on all four keys, and
    the fourth, with the JSON numbers [1e308] for a rating and [1e309],
    which is read as an infinity, for a distance, gets a NaN for a score:
    [inf - inf].  Below them, what the scoring pass makes of the seven. *)
Definition seven_records : list value :=
  [noted "1" "D" (VInt 4) (VInt 0); noted "2" "C" (VInt 3) (VInt 0);
   noted "3" "A" (VInt 1) (VInt 0);
   noted "4" "N" (VFloat (F64.of_Z (10 ^ 308))) (VFloat (S754_infinity false));
   noted "5" "B" (VInt 2) (VInt 0); noted "6" "E" (VInt 5) (VInt 0);
   noted "7" "B" (VInt 2) (VInt 0)].

Definition seven_scored : list value :=
  Eval vm_compute in
    match score_all no_libm seven_records with
    | (_, Ok l) => l
    | _ => []
    end.

(** A record that comes with a [score] field of its own. *)
Definition stale_record : value :=
  VDict [("id", VInt 0); ("restaurant_name", VStr "A");
         ("rating", VInt 4); ("distance_from_me", VInt 2);
         ("score", VStr "old")]%string.

(** ** The two halves of [main] *)

(** [main] up to the output comprehension: [None] when there is no data
    to process, the output list otherwise. *)
Definition prepare (libm : spec_float -> spec_float) (w : world)
    : io (option value) :=
  validated_data <~ load_validated_data w INPUT_FILE ;;
  if negb (truthy validated_data) then
    print "No data to process. Exiting." [] ;;;
    ret None
  else
    entries <~ lift (py_iter validated_data) ;;
    scored <~ score_all libm entries ;;
    top_10_results <~ lift (rank scored) ;;
    output <~ lift (mapM project top_10_results) ;;
    ret (Some (VList output)).

(** [main] from the file write on. *)
Definition deliver (w : world) (output : value) : io unit :=
  write_output_file w output OUTPUT_FILE ;;;
  token <~ get_authorization_token w API_URL ;;
  if negb (truthy token) then
    print "Failed to fetch authorization token. Exiting..." []
  else
    submit_results w API_URL token output.

(** ** What a run does to the outside *)

(** The file and network operations of a trace, in order. *)
Fixpoint without_prints (t : list event) : list event :=
  match t with
  | [] => []
  | EvPrint _ _ :: r => without_prints r
  | e :: r => e :: without_prints r
  end.

(** A Result Record: a dictionary of exactly the five output fields, in
    the order of the output comprehension. *)
Definition is_result_record (v : value) : bool :=
  match v with
  | VDict [(k1, _); (k2, _); (k3, _); (k4, _); (k5, _)] =>
      String.eqb k1 "id" && String.eqb k2 "restaurant_name" &&
      String.eqb k3 "rating" && String.eqb k4 "distance_from_me" &&
      String.eqb k5 "score"
  | _ => false
  end.

(** ** Records that the whole pipeline accepts *)

(** A record that the scorer scores with a number, with number [rating]
    and [distance_from_me] and a string [restaurant_name]. *)
Definition rankable (libm : spec_float -> spec_float) (x : value) : bool :=
  match x, calculate_score libm x with
  | VDict d, Ok s =>
      is_number s &&
      match dict_get d "rating", dict_get d "distance_from_me",
            dict_get d "restaurant_name" with
      | Some r, Some dist, Some (VStr _) => is_number r && is_number dist
      | _, _, _ => false
      end
  | _, _ => false
  end.

(** The Result Record of an input record: its four input fields and its
    score. *)
Definition result_of (libm : spec_float -> spec_float) (x : value) : value :=
  match calculate_score libm x with
  | Ok s =>
      match py_getitem x "id", py_getitem x "restaurant_name",
            py_getitem x "rating", py_getitem x "distance_from_me" with
      | Ok i, Ok n, Ok r, Ok d =>
          VDict [("id", i); ("restaurant_name", n); ("rating", r);
                 ("distance_from_me", d); ("score", s)]%string
      | _, _, _, _ => VNone
      end
  | Raise _ => VNone
  end.

(** ** A list without ties, and the same list rotated *)

Definition rotate (A : Type) (l : list A) : list A :=
  match l with
  | [] => []
  | a :: r => r ++ [a]
  end.

Definition three_scored : list value := firstn 3 twelve_scored.

(** ** The operations of a run that has an output *)

(** The write of the output when the file can be written, the GET for
    the token and, when the token client returned a token, the POST of the
    output with that token. *)
Definition operations_for (w : world) (output : value) : list event :=
  (if output_writable w then [EvWrite OUTPUT_FILE output] else [])
  ++ [EvGet (String.append API_URL REGISTER_ENDPOINT)]
  ++ match snd (get_authorization_token w API_URL) with
     | Ok token =>
         if truthy token then
           [EvPost (String.append API_URL CHECK_TOPK_ENDPOINT)
              [("Authorization", token);
               ("Content-Type", VStr "application/json")]%string
              (VDict [("data", output)]%string)]
         else []
     | Raise _ => []
     end.

(** ** Strings among the entries *)

Definition is_str (v : value) : bool :=
  match v with VStr _ => true | _ => false end.

(** ** Exceptions of the arithmetic *)

(** An outcome that is not one of the exceptions that the operators of
    the score formula never raise: KeyError, AttributeError, the two
    exceptions of decoding and, the divisor being 100,
    ZeroDivisionError. *)
Definition arithmetic_outcome (r : result value) : Prop :=
  match r with
  | Raise (KeyError _) => False
  | Raise AttributeError => False
  | Raise ZeroDivisionError => False
  | Raise UnicodeDecodeError => False
  | Raise RecursionError => False
  | _ => True
  end.

(** * Properties *)

Local Open Scope string_scope.

(** ** Scorer *)

Ltac step_bind :=
  match goal with
  | |- context [bind ?r _] =>
      lazymatch r with
      | Ok _ => progress cbn [bind]
      | Raise _ => progress cbn [bind]
      | _ => destruct r; cbn [bind]
      end
  end.

Lemma numeric_outcome_bind (r : result value) (k : value -> result value) :
  numeric_outcome r ->
  (forall v, as_num v <> None -> numeric_outcome (k v)) ->
  numeric_outcome (bind r k).
Proof.
  destruct r as [v | e]; cbn [bind numeric_outcome]; intros Hr Hk.
  - apply Hk, Hr.
  - exact Hr.
Qed.

Lemma num_arith_outcome fz ff (a b : num) :
  numeric_outcome (num_arith fz ff a b).
Proof.
  destruct a as [x | x], b as [y | y]; cbn [num_arith num_to_float bind];
    unfold int_to_float;
    repeat match goal with
           | |- context [F64.is_inf ?f] => destruct (F64.is_inf f); cbn [bind]
           end;
    cbn; try discriminate; exact I.
Qed.

Lemma py_mul_outcome (a b : value) :
  as_num a <> None -> as_num b <> None -> numeric_outcome (py_mul a b).
Proof.
  unfold py_mul.
  destruct (as_num a) as [x | ]; [ | congruence ].
  destruct (as_num b) as [y | ]; [ | destruct x; congruence ].
  intros _ _. destruct x; apply num_arith_outcome.
Qed.

Lemma py_sub_outcome (a b : value) :
  as_num a <> None -> as_num b <> None -> numeric_outcome (py_sub a b).
Proof.
  unfold py_sub.
  destruct (as_num a) as [x | ]; [ | congruence ].
  destruct (as_num b) as [y | ]; [ | congruence ].
  intros _ _. apply num_arith_outcome.
Qed.

Lemma py_add_outcome (a b : value) :
  as_num a <> None -> as_num b <> None -> numeric_outcome (py_add a b).
Proof.
  unfold py_add.
  destruct (as_num a) as [x | ]; [ | congruence ].
  destruct (as_num b) as [y | ]; [ | congruence ].
  intros _ _. apply num_arith_outcome.
Qed.

Lemma math_sin_outcome libm (v : value) :
  as_num v <> None -> numeric_outcome (math_sin libm v).
Proof.
  unfold math_sin.
  destruct (as_num v) as [n | ]; [ intros _ | congruence ].
  destruct n as [z | f]; cbn [num_to_float]; unfold int_to_float;
    cbn [bind];
    repeat match goal with
           | |- context [if ?c then _ else _] => destruct c; cbn [bind]
           end;
    cbn; try discriminate; exact I.
Qed.

Lemma py_truediv_100_outcome (v : value) :
  as_num v <> None -> numeric_outcome (py_truediv v c_100).
Proof.
  unfold py_truediv, c_100.
  destruct (as_num v) as [n | ]; [ intros _ | congruence ].
  cbn [as_num].
  destruct n as [z | f].
  - change (Z.eqb 100 0) with false. cbv iota.
    destruct (F64.is_inf _); cbn; try discriminate; exact I.
  - cbn [num_to_float bind].
    change (int_to_float 100) with (Ok (S754_finite false 7036874417766400 (-46))).
    cbn. discriminate.
Qed.

Lemma py_round2_outcome (v : value) :
  as_num v <> None -> numeric_outcome (py_round2 v).
Proof.
  unfold py_round2.
  destruct (as_num v) as [n | ]; [ intros _ | congruence ].
  destruct n as [z | f]; [ cbn; discriminate | ].
  unfold float_round2.
  destruct f; cbn [bind numeric_outcome as_num]; try discriminate.
  destruct (round_half_even _); cbn [bind numeric_outcome as_num];
    try discriminate;
    destruct (F64.is_inf _); cbn; try discriminate; exact I.
Qed.

(** C1.  For a record whose [rating], [distance_from_me] and [id] are
    numbers, [calculate_score] gives what the formula
    [round(((rating*10 - distance_from_me*0.5 + sin(id)*2)*100 + 0.5)/100, 2)]
    gives, evaluated in that order of operations: the same score, or the
    same exception where the formula raises one.  The outcome is a number,
    or an OverflowError or ValueError of the arithmetic; it is never the
    KeyError or TypeError of a skipped record. *)
Theorem calculate_score_is_formula :
  forall libm entry rating distance id_,
    py_getitem entry "rating" = Ok rating ->
    py_getitem entry "distance_from_me" = Ok distance ->
    py_getitem entry "id" = Ok id_ ->
    as_num rating <> None -> as_num distance <> None -> as_num id_ <> None ->
    calculate_score libm entry = score_formula libm rating distance id_ /\
    numeric_outcome (calculate_score libm entry).
Proof.
  intros libm entry rating distance id_ Hr Hd Hi Nr Nd Ni.
  split.
  - unfold calculate_score, score_formula, op1, op2.
    rewrite Hr, Hd, Hi.
    repeat step_bind; reflexivity.
  - unfold calculate_score.
    rewrite Hr, Hd, Hi. cbn [bind].
    assert (N10 : as_num c_10 <> None) by discriminate.
    assert (N05 : as_num c_0_5 <> None) by discriminate.
    assert (N2 : as_num c_2 <> None) by discriminate.
    assert (N100 : as_num c_100 <> None) by discriminate.
    repeat (apply numeric_outcome_bind;
            [ first [ apply py_mul_outcome | apply py_sub_outcome
                    | apply py_add_outcome | apply math_sin_outcome
                    | apply py_truediv_100_outcome | apply py_round2_outcome ];
              assumption
            | intros ? ? ]).
    cbn. assumption.
Qed.

Lemma calculate_score_is_formula_witness :
  calculate_score no_libm (record "A" (VInt 4) (VInt 2))
  = score_formula no_libm (VInt 4) (VInt 2) (VInt 0) /\
  numeric_outcome (calculate_score no_libm (record "A" (VInt 4) (VInt 2))).
Proof.
  apply (@calculate_score_is_formula no_libm (record "A" (VInt 4) (VInt 2))
           (VInt 4) (VInt 2) (VInt 0));
    solve [ reflexivity | discriminate ].
Defined.

(** The score of that record is 39.01. *)
Example calculate_score_example :
  forall libm,
    calculate_score libm (record "A" (VInt 4) (VInt 2))
    = Ok (VFloat (F64.dec 3901 100)).
Proof. intros libm. vm_compute. reflexivity. Qed.

(** C9.  The score depends on the fields [rating], [distance_from_me] and
    [id] alone: two records that agree on these three get the same outcome
    of [calculate_score], whatever their names and other fields. *)
Theorem calculate_score_three_fields :
  forall libm e e',
    py_getitem e "rating" = py_getitem e' "rating" ->
    py_getitem e "distance_from_me" = py_getitem e' "distance_from_me" ->
    py_getitem e "id" = py_getitem e' "id" ->
    calculate_score libm e = calculate_score libm e'.
Proof.
  intros libm e e' Hr Hd Hi.
  unfold calculate_score.
  rewrite Hr, Hd, Hi.
  reflexivity.
Qed.

Lemma calculate_score_three_fields_witness :
  calculate_score no_libm (record "A" (VInt 4) (VInt 2))
  = calculate_score no_libm
      (VDict [("restaurant_name", VStr "B"); ("cuisine", VStr "thai");
              ("distance_from_me", VInt 2); ("id", VInt 0);
              ("rating", VInt 4)]).
Proof.
  apply (@calculate_score_three_fields no_libm); reflexivity.
Defined.

(** Where the [id] is 0 the platform's sine is not consulted. *)
Lemma calculate_score_id_zero :
  forall libm libm' entry,
    py_getitem entry "id" = Ok (VInt 0) ->
    calculate_score libm entry = calculate_score libm' entry.
Proof.
  intros libm libm' entry Hi.
  unfold calculate_score.
  rewrite Hi.
  destruct (py_getitem entry "rating"); cbn [bind]; [ | reflexivity ].
  destruct (py_getitem entry "distance_from_me"); cbn [bind]; reflexivity.
Qed.

(** ** Traces *)

Lemma iobind_fst (A B : Type) (m : io A) (k : A -> io B) :
  fst (iobind m k)
  = (fst m ++ match snd m with Ok a => fst (k a) | Raise _ => [] end)%list.
Proof.
  destruct m as [t [a | e]]; cbn [iobind fst snd].
  - destruct (k a); reflexivity.
  - rewrite app_nil_r. reflexivity.
Qed.

Lemma iobind_snd (A B : Type) (m : io A) (k : A -> io B) :
  snd (iobind m k)
  = match snd m with Ok a => snd (k a) | Raise e => Raise e end.
Proof.
  destruct m as [t [a | e]]; cbn [iobind fst snd].
  - destruct (k a); reflexivity.
  - reflexivity.
Qed.

Section Quiet.

Variable p : event -> bool.

Lemma quiet_app (t u : list event) :
  quiet p t -> quiet p u -> quiet p (t ++ u)%list.
Proof.
  unfold quiet. intros Ht Hu. rewrite forallb_app, Ht, Hu. reflexivity.
Qed.

Lemma quiet_existsb (t : list event) :
  quiet p t -> existsb p t = false.
Proof.
  unfold quiet. induction t as [ | e t IH]; [ reflexivity | ].
  cbn [forallb existsb]. intros H.
  apply andb_true_iff in H. destruct H as [He Ht].
  destruct (p e); [ discriminate | ]. apply IH, Ht.
Qed.

Lemma iobind_quiet (A B : Type) (m : io A) (k : A -> io B) :
  quiet p (fst m) -> (forall a, snd m = Ok a -> quiet p (fst (k a))) ->
  quiet p (fst (iobind m k)).
Proof.
  intros Hm Hk. rewrite iobind_fst. apply quiet_app; [ exact Hm | ].
  destruct (snd m) as [a | e]; [ apply Hk; reflexivity | reflexivity ].
Qed.

Hypothesis p_print : forall text args, p (EvPrint text args) = false.

Lemma print_quiet text args : quiet p (fst (print text args)).
Proof. unfold quiet. cbn. rewrite p_print. reflexivity. Qed.

Lemma load_validated_data_quiet w f :
  quiet p (fst (load_validated_data w f)).
Proof.
  unfold load_validated_data.
  destruct (input_source w) as [ | | e | data].
  - apply iobind_quiet; [ apply print_quiet | reflexivity ].
  - apply iobind_quiet; [ apply print_quiet | reflexivity ].
  - reflexivity.
  - destruct data; try reflexivity.
    destruct (dict_get d "data"); reflexivity.
Qed.

Lemma score_entry_quiet libm entry :
  quiet p (fst (score_entry libm entry)).
Proof.
  unfold score_entry.
  destruct (bind _ _) as [e' | [k | | | | | | | ]]; try reflexivity;
    (apply iobind_quiet; [ apply print_quiet | reflexivity ]).
Qed.

Lemma score_all_quiet libm entries :
  quiet p (fst (score_all libm entries)).
Proof.
  induction entries as [ | entry rest IH]; [ reflexivity | ].
  cbn [score_all].
  apply iobind_quiet; [ apply score_entry_quiet | intros e' _ ].
  apply iobind_quiet; [ exact IH | intros r' _; reflexivity ].
Qed.

Hypothesis p_write : forall file data, p (EvWrite file data) = false.

Lemma write_output_file_quiet w data f :
  quiet p (fst (write_output_file w data f)).
Proof.
  unfold write_output_file. destruct (output_writable w).
  - apply iobind_quiet; [ | intros; apply print_quiet ].
    unfold quiet. cbn. rewrite p_write. reflexivity.
  - apply print_quiet.
Qed.

End Quiet.

Lemma get_authorization_token_no_post w url :
  no_post (fst (get_authorization_token w url)).
Proof.
  unfold get_authorization_token.
  destruct (register_reply w) as [ | status json text | status e text];
    [ reflexivity | | destruct (is_error_status status); reflexivity ].
  destruct (is_error_status status); [ reflexivity | ].
  destruct json as [body | ]; [ | reflexivity ].
  repeat (apply iobind_quiet; [ reflexivity | intros ? _ ]).
  destruct (truthy _); reflexivity.
Qed.

(** The replies on which the token client answers [None]: a failed
    request, a status from 400 to 599, a body that is not JSON, and a JSON
    object whose [data] object has no token or a token that counts as
    false. *)
Lemma get_authorization_token_none w url :
  match register_reply w with
  | RequestException => True
  | Response status json _ =>
      is_error_status status = true \/ json = None \/
      exists body data token,
        json = Some body /\ py_get body "data" (VDict []) = Ok data /\
        py_get data "authorizationToken" VNone = Ok token /\
        truthy token = false
  | ResponseJsonError status _ _ => is_error_status status = true
  end ->
  snd (get_authorization_token w url) = Ok VNone.
Proof.
  unfold get_authorization_token.
  destruct (register_reply w) as [ | status json text | status e text];
    [ reflexivity | | intros ->; reflexivity ].
  intros [H | [H | (body & data & token & Hj & Hd & Ht & Hf)]].
  - rewrite H. reflexivity.
  - destruct (is_error_status status); [ reflexivity | ].
    rewrite H. reflexivity.
  - destruct (is_error_status status); [ reflexivity | ].
    rewrite Hj. cbn. rewrite Hd. cbn. rewrite Ht. cbn. rewrite Hf. reflexivity.
Qed.

(** A run that has made no GET so far and whose next computation makes
    none either: if the whole run has a GET in its trace, that computation
    returned, and what the rest of the run does decides the end. *)
Lemma reach_token_step (A : Type) (msg : event) (pre : list event)
    (m : io A) (k : A -> io unit) :
  quiet is_get (fst m) ->
  (forall a, snd m = Ok a ->
     quiet is_get (pre ++ fst m)%list ->
     existsb is_get ((pre ++ fst m) ++ fst (k a))%list = true ->
     snd (k a) = Ok tt /\
     exists t', ((pre ++ fst m) ++ fst (k a))%list = (t' ++ [msg])%list) ->
  quiet is_get pre ->
  existsb is_get (pre ++ fst (iobind m k))%list = true ->
  snd (iobind m k) = Ok tt /\
  exists t', (pre ++ fst (iobind m k))%list = (t' ++ [msg])%list.
Proof.
  intros Hm Hk Hpre.
  rewrite iobind_fst, iobind_snd, app_assoc.
  destruct (snd m) as [a | e].
  - apply Hk; [ reflexivity | apply quiet_app; assumption ].
  - rewrite app_nil_r, quiet_existsb by (apply quiet_app; assumption).
    discriminate.
Qed.

(** C8.  When the token client answers [None], the run issues no POST; and
    a run that got as far as the token request then ends normally, its
    last act being the message that the token could not be fetched. *)
Theorem no_token_no_submission :
  forall libm w t,
    get_authorization_token w API_URL = (t, Ok VNone) ->
    no_post (fst (main libm w)) /\
    (existsb is_get (fst (main libm w)) = true ->
     snd (main libm w) = Ok tt /\
     exists t', fst (main libm w)
                = (t' ++ [EvPrint "Failed to fetch authorization token. Exiting..." []])%list).
Proof.
  intros libm w t Htok.
  unfold main.
  split.
  - apply iobind_quiet; [ apply load_validated_data_quiet; reflexivity | intros data _ ].
    destruct (negb (truthy data)); [ reflexivity | ].
    apply iobind_quiet; [ reflexivity | intros entries _ ].
    apply iobind_quiet; [ apply score_all_quiet; reflexivity | intros scored _ ].
    apply iobind_quiet; [ reflexivity | intros top _ ].
    apply iobind_quiet; [ reflexivity | intros output _ ].
    apply iobind_quiet; [ apply write_output_file_quiet; reflexivity | intros _ _ ].
    apply iobind_quiet; [ apply get_authorization_token_no_post | ].
    rewrite Htok. intros token [= <-]. reflexivity.
  - change (fst (iobind ?m ?k)) with ([] ++ fst (iobind m k))%list.
    apply reach_token_step;
      [ apply load_validated_data_quiet; reflexivity | | reflexivity ].
    intros data _ Hq.
    destruct (negb (truthy data)).
    { rewrite quiet_existsb; [ discriminate | ].
      apply quiet_app; [ exact Hq | reflexivity ]. }
    revert Hq.
    apply reach_token_step; [ reflexivity | intros entries _ ].
    apply reach_token_step;
      [ apply score_all_quiet; reflexivity | intros scored _ ].
    apply reach_token_step; [ reflexivity | intros top _ ].
    apply reach_token_step; [ reflexivity | intros output _ ].
    apply reach_token_step;
      [ apply write_output_file_quiet; reflexivity | intros _ _ ].
    intros _ _.
    rewrite iobind_fst, iobind_snd, Htok. cbn [fst snd truthy negb print emit].
    split; [ reflexivity | ].
    rewrite app_assoc. eexists. reflexivity.
Qed.

Lemma no_token_no_submission_witness :
  let w := World (Parsed (VList [record "A" (VInt 4) (VInt 2)])) true
             (Response 503 None "Service Unavailable") RequestException in
  no_post (fst (main no_libm w)) /\
  (existsb is_get (fst (main no_libm w)) = true ->
   snd (main no_libm w) = Ok tt /\
   exists t', fst (main no_libm w)
              = (t' ++ [EvPrint "Failed to fetch authorization token. Exiting..." []])%list).
Proof.
  intros w.
  apply (@no_token_no_submission no_libm w
           [EvPrint "Fetching authorization token..." [];
            EvGet (String.append API_URL REGISTER_ENDPOINT);
            EvPrint "An error occurred while fetching the token: {e}" []]).
  reflexivity.
Defined.

(** ** Loader *)

(** C6.  The input [{"data": rs}] and the bare input [rs] give the same
    run, so the same ranked output: the loader hands out [rs] for both.  A
    dictionary without the key [data] is handed out as it is. *)
Theorem envelope_unwrap :
  forall libm rs writable reg chk,
    let wrapped := World (Parsed (VDict [("data", VList rs)])) writable reg chk in
    let bare := World (Parsed (VList rs)) writable reg chk in
    main libm wrapped = main libm bare /\
    load_validated_data wrapped INPUT_FILE = ret (VList rs) /\
    load_validated_data bare INPUT_FILE = ret (VList rs) /\
    (forall d, dict_get d "data" = None ->
       load_validated_data (World (Parsed (VDict d)) writable reg chk) INPUT_FILE
       = ret (VDict d)).
Proof.
  intros libm rs writable reg chk wrapped bare.
  repeat split.
  intros d Hd. unfold load_validated_data. cbn [input_source].
  rewrite Hd. reflexivity.
Qed.

(** C7, as amended.  When [open] raises a FileNotFoundError or
    [json.load] a JSONDecodeError, the loader prints one message and
    returns the empty list without raising; [main] then prints that there
    is no data and returns: nothing is scored or written, no token is
    requested and nothing is submitted. *)
Theorem missing_or_malformed_input :
  forall libm w,
    input_source w = FileNotFoundError \/ input_source w = JSONDecodeError ->
    exists text args,
      load_validated_data w INPUT_FILE = ([EvPrint text args], Ok (VList [])) /\
      main libm w
      = ([EvPrint text args; EvPrint "No data to process. Exiting." []], Ok tt).
Proof.
  intros libm w [H | H]; unfold main, load_validated_data; rewrite H;
    do 2 eexists; split; reflexivity.
Qed.

Lemma missing_or_malformed_input_witness :
  exists text args,
    load_validated_data (World JSONDecodeError true token_reply token_reply)
      INPUT_FILE
    = ([EvPrint text args], Ok (VList [])) /\
    main no_libm (World JSONDecodeError true token_reply token_reply)
    = ([EvPrint text args; EvPrint "No data to process. Exiting." []], Ok tt).
Proof.
  apply (@missing_or_malformed_input no_libm
           (World JSONDecodeError true token_reply token_reply)).
  right. reflexivity.
Defined.

(** C7, as stated, fails on a file whose content is not valid JSON
    because its bytes are not text in the encoding that [open] reads
    with: the UnicodeDecodeError is neither of the two exceptions that the
    loader handles, so the loader raises it, and so does [main], before
    it prints anything. *)
Lemma undecodable_input_aborts_run :
  let w := World (LoadError UnicodeDecodeError) true token_reply token_reply in
  load_validated_data w INPUT_FILE = ([], Raise UnicodeDecodeError) /\
  main no_libm w = ([], Raise UnicodeDecodeError).
Proof. split; reflexivity. Qed.

(** ** Skipped records *)

(** C2.  A record without [rating] is skipped by the scoring loop and then
    stops the run: the sort asks it for its [score], the KeyError is not
    handled, and the valid record next to it is never written. *)
Theorem skipped_record_aborts_run :
  forall libm,
    main libm (world_of (VList [VDict [("id", VInt 0);
                                       ("restaurant_name", VStr "A");
                                       ("distance_from_me", VInt 2)];
                                record "B" (VInt 4) (VInt 1)]))
    = ([EvPrint "Missing expected field {e} in entry: {entry}"
          [VStr "rating";
           VDict [("id", VInt 0); ("restaurant_name", VStr "A");
                  ("distance_from_me", VInt 2)]]],
       Raise (KeyError "score")).
Proof. intros libm. vm_compute. reflexivity. Qed.

(** The same happens to a scored record without [restaurant_name]. *)
Example nameless_record_aborts_run :
  forall libm,
    main libm (world_of (VList [VDict [("id", VInt 0); ("rating", VInt 4);
                                       ("distance_from_me", VInt 2)];
                                record "B" (VInt 4) (VInt 1)]))
    = ([], Raise (KeyError "restaurant_name")).
Proof. intros libm. vm_compute. reflexivity. Qed.

(** ** The scoring pass and the projection: what they leave alone *)

Lemma dict_get_set_other d k k' v :
  k <> k' -> dict_get (dict_set d k' v) k = dict_get d k.
Proof.
  intros Hk. induction d as [ | [k0 w] r IH]; cbn [dict_set dict_get].
  - destruct (String.eqb_spec k' k); [ congruence | reflexivity ].
  - destruct (String.eqb_spec k0 k') as [E | E]; cbn [dict_get].
    + subst k0. destruct (String.eqb_spec k' k); [ congruence | reflexivity ].
    + destruct (String.eqb_spec k0 k); [ reflexivity | exact IH ].
Qed.

Lemma dict_get_set_same d k v :
  dict_get (dict_set d k v) k = Some v.
Proof.
  induction d as [ | [k0 w] r IH]; cbn [dict_set dict_get].
  - rewrite String.eqb_refl. reflexivity.
  - destruct (String.eqb_spec k0 k) as [E | E]; cbn [dict_get].
    + subst k0. rewrite String.eqb_refl. reflexivity.
    + destruct (String.eqb_spec k0 k); [ contradiction | exact IH ].
Qed.

Lemma score_entry_frame libm entry t entry' :
  score_entry libm entry = (t, Ok entry') -> scored_from libm entry entry'.
Proof.
  unfold score_entry, scored_from.
  destruct (calculate_score libm entry) as [s | e] eqn:Hs; cbn [bind].
  - destruct entry as [ | | | | | | d]; cbn [py_setitem];
      try (intros [= <- <-]; split; [ reflexivity | left; reflexivity ]).
    intros [= <- <-]. split.
    + intros k Hk. cbn [py_getitem]. rewrite dict_get_set_other by exact Hk.
      reflexivity.
    + right. exists s. split; [ reflexivity | ].
      cbn [py_getitem]. rewrite dict_get_set_same. reflexivity.
  - destruct e; cbn; intros [= <- <-] || intros [=];
      (split; [ reflexivity | left; reflexivity ]).
Qed.

Lemma score_all_frame libm entries :
  forall t scored,
    score_all libm entries = (t, Ok scored) ->
    Forall2 (scored_from libm) entries scored.
Proof.
  induction entries as [ | entry rest IH]; intros t scored; cbn [score_all].
  - intros [= <- <-]. constructor.
  - destruct (score_entry libm entry) as [t1 [entry' | e]] eqn:H1;
      cbn [iobind]; [ | discriminate ].
    destruct (score_all libm rest) as [t2 [rest' | e]] eqn:H2;
      cbn [iobind ret]; [ | discriminate ].
    intros [= <- <-]. constructor.
    + eapply score_entry_frame. exact H1.
    + eapply IH. reflexivity.
Qed.

Lemma project_copies entry out :
  project entry = Ok out ->
  exists id_ name rating distance score,
    py_getitem entry "id" = Ok id_ /\
    py_getitem entry "restaurant_name" = Ok name /\
    py_getitem entry "rating" = Ok rating /\
    py_getitem entry "distance_from_me" = Ok distance /\
    py_getitem entry "score" = Ok score /\
    out = VDict [("id", id_); ("restaurant_name", name); ("rating", rating);
                 ("distance_from_me", distance); ("score", score)].
Proof.
  unfold project.
  destruct (py_getitem entry "id") as [i | ]; cbn [bind]; [ | discriminate ].
  destruct (py_getitem entry "restaurant_name") as [n | ]; cbn [bind];
    [ | discriminate ].
  destruct (py_getitem entry "rating") as [r | ]; cbn [bind]; [ | discriminate ].
  destruct (py_getitem entry "distance_from_me") as [d | ]; cbn [bind];
    [ | discriminate ].
  destruct (py_getitem entry "score") as [s | ]; cbn [bind]; [ | discriminate ].
  intros [= <-]. exists i, n, r, d, s. repeat split; reflexivity.
Qed.

(** C10, as amended.  The scoring pass changes a record that it scores
    by setting the key [score] and nothing else: every field under another
    key keeps its value, in every record of the list, scored or skipped;
    and the projection of a record, when it has all five fields, holds the
    four input fields with the values they had before the scoring pass and
    the score that the record now carries. *)
Theorem scoring_pass_frame :
  forall libm entries t scored,
    score_all libm entries = (t, Ok scored) ->
    Forall2
      (fun entry entry' =>
         scored_from libm entry entry' /\
         forall out, project entry' = Ok out ->
           exists id_ name rating distance score,
             py_getitem entry "id" = Ok id_ /\
             py_getitem entry "restaurant_name" = Ok name /\
             py_getitem entry "rating" = Ok rating /\
             py_getitem entry "distance_from_me" = Ok distance /\
             py_getitem entry' "score" = Ok score /\
             out = VDict [("id", id_); ("restaurant_name", name);
                          ("rating", rating); ("distance_from_me", distance);
                          ("score", score)])
      entries scored.
Proof.
  intros libm entries t scored H.
  apply score_all_frame in H.
  induction H as [ | entry entry' rest rest' Hf _ IH]; constructor;
    [ | exact IH ].
  split; [ exact Hf | ].
  intros out Hout.
  destruct (project_copies _ Hout) as (i & n & r & d & s & Hi & Hn & Hr & Hd & Hs & ->).
  destruct Hf as [Hother _].
  exists i, n, r, d, s.
  rewrite <- !Hother by discriminate.
  repeat split; assumption.
Qed.

Lemma scoring_pass_frame_witness :
  Forall2
    (fun entry entry' =>
       scored_from no_libm entry entry' /\
       forall out, project entry' = Ok out ->
         exists id_ name rating distance score,
           py_getitem entry "id" = Ok id_ /\
           py_getitem entry "restaurant_name" = Ok name /\
           py_getitem entry "rating" = Ok rating /\
           py_getitem entry "distance_from_me" = Ok distance /\
           py_getitem entry' "score" = Ok score /\
           out = VDict [("id", id_); ("restaurant_name", name);
                        ("rating", rating); ("distance_from_me", distance);
                        ("score", score)])
    [record "A" (VInt 4) (VInt 2); VDict [("id", VInt 7)]]
    [VDict [("id", VInt 0); ("restaurant_name", VStr "A"); ("rating", VInt 4);
            ("distance_from_me", VInt 2);
            ("score", VFloat (F64.dec 3901 100))];
     VDict [("id", VInt 7)]].
Proof.
  apply (@scoring_pass_frame no_libm
           [record "A" (VInt 4) (VInt 2); VDict [("id", VInt 7)]]
           [EvPrint "Missing expected field {e} in entry: {entry}"
              [VStr "rating"; VDict [("id", VInt 7)]]]).
  vm_compute. reflexivity.
Defined.

(** C10, as stated, fails on a record that comes with a [score] field of
    its own: the scoring pass replaces the value of that field. *)
Lemma preexisting_score_overwritten :
  exists entry',
    score_entry no_libm stale_record = ([], Ok entry') /\
    py_getitem stale_record "score" = Ok (VStr "old") /\
    py_getitem entry' "score" = Ok (VFloat (F64.dec 3901 100)) /\
    py_getitem entry' "score" <> py_getitem stale_record "score".
Proof.
  eexists. split; [ vm_compute; reflexivity | ].
  split; [ reflexivity | ].
  split; [ reflexivity | ].
  cbn. discriminate.
Qed.

(** ** Records without a rating *)

Lemma mapM_raises (X Y : Type) (f : X -> result Y) (l : list X) (x : X) (e : exn) :
  In x l -> f x = Raise e -> exists e', mapM f l = Raise e'.
Proof.
  intros Hin Hx. induction l as [ | y l IH]; [ contradiction | ].
  cbn [mapM]. destruct (f y) as [v | e0] eqn:Hy; cbn [bind].
  - destruct Hin as [-> | Hin]; [ congruence | ].
    destruct (IH Hin) as [e' He']. rewrite He'. exists e'. reflexivity.
  - exists e0. reflexivity.
Qed.

Lemma sort_key_needs_rating (x : value) (e : exn) :
  py_getitem x "rating" = Raise e -> exists e', sort_key x = Raise e'.
Proof.
  intros Hr. unfold sort_key.
  destruct (py_getitem x "score") as [s | e0]; cbn [bind];
    [ | eexists; reflexivity ].
  destruct (py_neg s) as [k1 | e0]; cbn [bind]; [ | eexists; reflexivity ].
  rewrite Hr. eexists. reflexivity.
Qed.

Lemma Forall2_In_l (X Y : Type) (R : X -> Y -> Prop) (l : list X) (m : list Y) (x : X) :
  Forall2 R l m -> In x l -> exists y, In y m /\ R x y.
Proof.
  induction 1 as [ | a b l m Hab _ IH]; intros Hin; [ contradiction | ].
  destruct Hin as [-> | Hin].
  - exists b. split; [ left; reflexivity | exact Hab ].
  - destruct (IH Hin) as (y & Hy & Hxy). exists y. split; [ right | ]; assumption.
Qed.

(** Whatever else the input list holds, one record without [rating] makes
    the run end in an exception, with nothing written and nothing
    submitted. *)
Lemma record_without_rating_aborts_run :
  forall libm w entries x e,
    input_source w = Parsed (VList entries) ->
    In x entries -> py_getitem x "rating" = Raise e ->
    exists t e',
      main libm w = (t, Raise e') /\
      existsb is_write t = false /\ existsb is_post t = false.
Proof.
  intros libm w entries x e Hw Hin Hr.
  unfold main, load_validated_data. rewrite Hw.
  assert (Ht : truthy (VList entries) = true)
    by (destruct entries; [ contradiction | reflexivity ]).
  cbn [ret iobind]. rewrite Ht. cbn [negb py_iter lift iobind].
  pose proof (score_all_quiet is_write (fun _ _ => eq_refl) libm entries) as Qw.
  pose proof (score_all_quiet is_post (fun _ _ => eq_refl) libm entries) as Qp.
  destruct (score_all libm entries) as [t [scored | e0]] eqn:Hs;
    cbn [fst] in Qw, Qp.
  - destruct (Forall2_In_l x (score_all_frame _ _ Hs) Hin) as (x' & Hin' & [Hf _]).
    assert (Hr' : py_getitem x' "rating" = Raise e)
      by (rewrite Hf by discriminate; exact Hr).
    destruct (sort_key_needs_rating _ Hr') as [e1 He1].
    destruct (mapM_raises sort_key _ _ Hin' He1) as [e2 He2].
    cbn [iobind]. unfold rank, sorted, lift. rewrite He2. cbn [bind iobind].
    cbn [app]. rewrite app_nil_r.
    exists t, e2. repeat split; apply quiet_existsb; assumption.
  - cbn [iobind app].
    exists t, e0. repeat split; apply quiet_existsb; assumption.
Qed.

(** ** Rounding of the score *)

Lemma round_half_even_spec (q : Q) :
  let n := round_half_even q in
  (- (1 # 2) <= q - inject_Z n <= 1 # 2)%Q /\
  ((q - inject_Z n == 1 # 2)%Q \/ (q - inject_Z n == - (1 # 2))%Q ->
   Z.even n = true).
Proof.
  unfold round_half_even.
  pose proof (Qfloor_le q) as Hlo.
  pose proof (Qlt_floor q) as Hhi.
  rewrite inject_Z_plus in Hhi.
  change (inject_Z 1) with 1%Q in Hhi.
  set (f := Qfloor q) in *.
  destruct (Qcompare_spec (q - inject_Z f) (1 # 2)) as [E | L | G]; cbv zeta.
  - destruct (Z.even f) eqn:Ev.
    + split; [ split; lra | intros _; exact Ev ].
    + rewrite inject_Z_plus. change (inject_Z 1) with 1%Q.
      split; [ split; lra | intros _ ].
      rewrite Z.even_add, Ev. reflexivity.
  - split; [ split; lra | intros [H | H]; lra ].
  - rewrite inject_Z_plus. change (inject_Z 1) with 1%Q.
    split; [ split; lra | intros [H | H]; lra ].
Qed.

Lemma shr_1_nonneg (mrs : shr_record) :
  (0 <= shr_m mrs)%Z -> (0 <= shr_m (shr_1 mrs))%Z.
Proof.
  destruct mrs as [m r s]. cbn [shr_m].
  destruct m as [ | p | p]; [ | destruct p | ]; cbn; lia.
Qed.

Lemma iter_shr_1_nonneg (p : positive) :
  forall mrs, (0 <= shr_m mrs)%Z -> (0 <= shr_m (iter_pos shr_1 p mrs))%Z.
Proof.
  induction p as [p IH | p IH | ]; intros mrs H; cbn [iter_pos].
  - apply IH, IH, shr_1_nonneg, H.
  - apply IH, IH, H.
  - apply shr_1_nonneg, H.
Qed.

Lemma shr_fexp_nonneg prec emax (m e : Z) (l : location) :
  (0 <= m)%Z -> (0 <= shr_m (fst (shr_fexp prec emax m e l)))%Z.
Proof.
  intros H. unfold shr_fexp, shr.
  assert (H0 : (0 <= shr_m (shr_record_of_loc m l))%Z)
    by (destruct l as [ | [ | | ]]; exact H).
  destruct (fexp prec emax (Zdigits2 m + e) - e)%Z; cbn [fst];
    [ exact H0 | | exact H0 ].
  apply iter_shr_1_nonneg, H0.
Qed.

Lemma round_nearest_even_nonneg (m : Z) (l : location) :
  (0 <= m)%Z -> (0 <= round_nearest_even m l)%Z.
Proof.
  intros H. destruct l as [ | [ | | ]]; cbn; try lia.
  destruct (Z.even m); lia.
Qed.

Lemma binary_round_aux_not_nan prec emax sx mx ex lx :
  (0 <= mx)%Z -> binary_round_aux prec emax sx mx ex lx <> S754_nan.
Proof.
  intros H. unfold binary_round_aux.
  pose proof (shr_fexp_nonneg prec emax ex lx H) as H1.
  destruct (shr_fexp prec emax mx ex lx) as [mrs' e']. cbn [fst] in H1.
  pose proof (shr_fexp_nonneg prec emax e' loc_Exact
                (round_nearest_even_nonneg (loc_of_shr_record mrs') H1)) as H2.
  destruct (shr_fexp prec emax _ e' loc_Exact) as [mrs'' e'']. cbn [fst] in H2.
  destruct (shr_m mrs'') as [ | p | p]; [ discriminate | | lia ].
  destruct (Z.leb e'' (emax - prec)); discriminate.
Qed.

Lemma div_exact_not_nan (n d : positive) (s : bool) :
  F64.div (S754_finite s n 0) (S754_finite false d 0) <> S754_nan.
Proof.
  unfold F64.div, SFdiv.
  destruct (SFdiv_core_binary F64.prec F64.emax (Z.pos n) 0 (Z.pos d) 0)
    as [[mz ez] lz] eqn:E.
  apply binary_round_aux_not_nan.
  unfold SFdiv_core_binary in E.
  set (m' := match _ with Z.pos _ => _ | _ => _ end) in E.
  assert (Hm : (0 <= m')%Z).
  { subst m'.
    destruct (0 - 0 - _)%Z eqn:Es; try lia.
    apply Z.shiftl_nonneg. lia. }
  pose proof (Z.div_pos m' (Z.pos d) Hm ltac:(lia)) as Hq.
  unfold Z.div in Hq.
  destruct (Z.div_eucl m' (Z.pos d)) as [q r].
  injection E as <- _ _. exact Hq.
Qed.

Lemma float_round2_finite (x r : spec_float) :
  float_round2 x = Ok r -> F64.is_finite x = true -> F64.is_finite r = true.
Proof.
  destruct x as [s | s | | s m e]; cbn [float_round2 F64.is_finite];
    try discriminate.
  - intros [= <-] _. reflexivity.
  - intros H _. revert H.
    destruct (round_half_even _) as [ | n | n].
    + intros [= <-]. reflexivity.
    + cbn [F64.exact].
      pose proof (@div_exact_not_nan n 100 false) as Hn.
      destruct (F64.div _ _); cbn [F64.is_inf]; try discriminate;
        try (intros [= <-]; reflexivity).
      contradiction.
    + cbn [F64.exact].
      pose proof (@div_exact_not_nan n 100 true) as Hn.
      destruct (F64.div _ _); cbn [F64.is_inf]; try discriminate;
        try (intros [= <-]; reflexivity).
      contradiction.
Qed.

Lemma float_round2_value (x r : spec_float) :
  float_round2 x = Ok r -> F64.is_finite x = true ->
  r = hundredths (sign_of x) (round_half_even (F64.to_Q x * 100)).
Proof.
  destruct x as [s | s | | s m e]; cbn [float_round2 F64.is_finite];
    try discriminate.
  - intros [= <-] _. reflexivity.
  - intros H _. revert H. cbn [sign_of]. unfold hundredths.
    destruct (round_half_even _) as [ | n | n].
    + intros [= <-]. reflexivity.
    + destruct (F64.is_inf _); [ discriminate | ]. intros [= <-]. reflexivity.
    + destruct (F64.is_inf _); [ discriminate | ]. intros [= <-]. reflexivity.
Qed.

Lemma float_round2_not_finite (x : spec_float) :
  F64.is_finite x = false -> float_round2 x = Ok x.
Proof.
  destruct x; cbn; intros H; try discriminate; reflexivity.
Qed.

Lemma py_truediv_float (a b v : value) :
  py_truediv a b = Ok v -> exists f, v = VFloat f.
Proof.
  unfold py_truediv.
  destruct (as_num a) as [[x | x] | ]; [ | | discriminate ];
    (destruct (as_num b) as [[y | y] | ]; [ | | discriminate ]);
    cbn [num_to_float bind]; unfold int_to_float;
    repeat match goal with
           | |- context [if ?c then _ else _] => destruct c; cbn [bind]
           end;
    try discriminate; intros [= <-]; eexists; reflexivity.
Qed.

Lemma calculate_score_rounds libm entry :
  calculate_score libm entry
  = (x <- score_before_rounding libm entry ;; py_round2 x).
Proof.
  unfold calculate_score, score_before_rounding, op2.
  repeat step_bind; reflexivity.
Qed.

(** C5, as amended.  The score of a scoreable record is what
    [round(score / 100, 2)] makes of the float [score / 100]: an infinity
    or a NaN is the score as it is, so a score need not be finite; a finite
    value is rounded to the nearest hundredth of its exact binary value, a
    tie going to the even hundredth and not up, and the score is then the
    float nearest to that decimal, which is finite. *)
Theorem score_rounding :
  forall libm entry s,
    calculate_score libm entry = Ok s ->
    exists x s',
      score_before_rounding libm entry = Ok (VFloat x) /\
      s = VFloat s' /\
      (F64.is_finite x = false -> s' = x) /\
      (F64.is_finite x = true ->
       F64.is_finite s' = true /\
       exists n : Z,
         s' = hundredths (sign_of x) n /\
         (- (1 # 2) <= F64.to_Q x * 100 - inject_Z n <= 1 # 2)%Q /\
         ((F64.to_Q x * 100 - inject_Z n == 1 # 2)%Q \/
          (F64.to_Q x * 100 - inject_Z n == - (1 # 2))%Q ->
          Z.even n = true)).
Proof.
  intros libm entry s H.
  rewrite calculate_score_rounds in H.
  destruct (score_before_rounding libm entry) as [v | e] eqn:Hv;
    cbn [bind] in H; [ | discriminate ].
  assert (Hf : exists x, v = VFloat x).
  { unfold score_before_rounding, op2 in Hv.
    repeat match type of Hv with
           | bind ?r _ = _ => destruct r; cbn [bind] in Hv; try discriminate
           end.
    eapply py_truediv_float. exact Hv. }
  destruct Hf as [x ->].
  unfold py_round2 in H. cbn [as_num] in H.
  destruct (float_round2 x) as [s' | e] eqn:Hr; cbn [bind] in H;
    [ | discriminate ].
  injection H as <-.
  exists x, s'. repeat split.
  - intros Hx. rewrite (float_round2_not_finite _ Hx) in Hr.
    injection Hr as <-. reflexivity.
  - eapply float_round2_finite; eassumption.
  - exists (round_half_even (F64.to_Q x * 100)).
    split; [ apply float_round2_value; assumption | ].
    apply round_half_even_spec.
Qed.

Lemma score_rounding_witness :
  exists x s',
    score_before_rounding no_libm (record "A" (VInt 5) (VFloat (F64.dec 176 100)))
    = Ok (VFloat x) /\
    VFloat (F64.dec 4912 100) = VFloat s' /\
    (F64.is_finite x = false -> s' = x) /\
    (F64.is_finite x = true ->
     F64.is_finite s' = true /\
     exists n : Z,
       s' = hundredths (sign_of x) n /\
       (- (1 # 2) <= F64.to_Q x * 100 - inject_Z n <= 1 # 2)%Q /\
       ((F64.to_Q x * 100 - inject_Z n == 1 # 2)%Q \/
        (F64.to_Q x * 100 - inject_Z n == - (1 # 2))%Q ->
        Z.even n = true)).
Proof.
  apply (@score_rounding no_libm
           (record "A" (VInt 5) (VFloat (F64.dec 176 100)))).
  vm_compute. reflexivity.
Defined.

(** C5, as stated, fails twice.  The record with rating 5 and distance
    1.76 has [score / 100] equal to 49.125 exactly; its score is 49.12,
    where rounding half-up gives 49.13.  The record with rating 1e308 has
    an infinite score. *)
Lemma score_neither_half_up_nor_finite :
  (score_before_rounding no_libm (record "A" (VInt 5) (VFloat (F64.dec 176 100)))
   = Ok (VFloat (F64.dec 49125 1000)) /\
   (F64.to_Q (F64.dec 49125 1000) == 49125 # 1000)%Q /\
   calculate_score no_libm (record "A" (VInt 5) (VFloat (F64.dec 176 100)))
   = Ok (VFloat (F64.dec 4912 100)) /\
   half_up_round2 (F64.dec 49125 1000) = F64.dec 4913 100 /\
   F64.dec 4912 100 <> F64.dec 4913 100) /\
  (calculate_score no_libm (record "B" (VFloat (F64.of_Z (10 ^ 308))) (VInt 0))
   = Ok (VFloat (S754_infinity false)) /\
   F64.is_finite (S754_infinity false) = false).
Proof.
  repeat split; try (vm_compute; reflexivity).
  vm_compute. discriminate.
Qed.

(** ** Total comparisons *)

Lemma cmp_refl (B : Type) (cmp : B -> B -> comparison) :
  comparison_order cmp -> forall a, cmp a a = Eq.
Proof.
  intros [Ha _] a. pose proof (Ha a a) as H.
  destruct (cmp a a); cbn in H; congruence.
Qed.

Lemma cmp_eq_l (B : Type) (cmp : B -> B -> comparison) :
  comparison_order cmp ->
  forall a b d, cmp a b = Eq -> cmp a d = cmp b d.
Proof.
  intros [Ha Ht] a b d Hab.
  assert (Hba : cmp b a = Eq) by (rewrite Ha, Hab; reflexivity).
  destruct (cmp b d) eqn:Hbd.
  - eapply Ht; eassumption.
  - destruct (cmp a d) eqn:Had; [ | reflexivity | ].
    + rewrite (Ht Eq b a d Hba Had) in Hbd. discriminate.
    + assert (Hda : cmp d a = Lt) by (rewrite Ha, Had; reflexivity).
      pose proof (Ht Lt b d a Hbd Hda) as H. congruence.
  - destruct (cmp a d) eqn:Had; [ | | reflexivity ].
    + rewrite (Ht Eq b a d Hba Had) in Hbd. discriminate.
    + assert (Hda : cmp d a = Gt) by (rewrite Ha, Had; reflexivity).
      pose proof (Ht Gt b d a Hbd Hda) as H. congruence.
Qed.

Lemma cmp_eq_r (B : Type) (cmp : B -> B -> comparison) :
  comparison_order cmp ->
  forall a b d, cmp b d = Eq -> cmp a b = cmp a d.
Proof.
  intros O a b d Hbd.
  pose proof (cmp_eq_l O b d a Hbd) as H.
  rewrite (cmp_antisym O a b), (cmp_antisym O a d) in H.
  destruct (cmp a b), (cmp a d); cbn in H; congruence.
Qed.

Lemma cmp_le_trans (B : Type) (cmp : B -> B -> comparison) :
  comparison_order cmp ->
  forall a b d, cmp a b <> Gt -> cmp b d <> Gt -> cmp a d <> Gt.
Proof.
  intros O a b d Hab Hbd.
  destruct (cmp a b) eqn:E1; [ | | congruence ].
  - rewrite (cmp_eq_l O a b d E1). exact Hbd.
  - destruct (cmp b d) eqn:E2; [ | | congruence ].
    + rewrite <- (cmp_eq_r O a b d E2), E1. discriminate.
    + rewrite (cmp_trans O a b d E1 E2). discriminate.
Qed.

Lemma lex_order (B C : Type) (f : B -> B -> comparison) (g : C -> C -> comparison) :
  comparison_order f -> comparison_order g ->
  comparison_order (fun a b : B * C => lex (f (fst a) (fst b)) (g (snd a) (snd b))).
Proof.
  intros Of Og. split.
  - intros [a1 a2] [b1 b2]. cbn [fst snd].
    rewrite (cmp_antisym Of a1 b1), (cmp_antisym Og a2 b2).
    destruct (f a1 b1); reflexivity.
  - intros c [a1 a2] [b1 b2] [d1 d2]. cbn [fst snd]. unfold lex.
    destruct (f a1 b1) eqn:E1.
    + rewrite (cmp_eq_l Of a1 b1 d1 E1).
      destruct (f b1 d1); intros H1 H2; [ | congruence | congruence ].
      eapply (cmp_trans Og); eassumption.
    + intros <-.
      destruct (f b1 d1) eqn:E2; [ | | discriminate ].
      * intros _. rewrite <- (cmp_eq_r Of a1 b1 d1 E2), E1. reflexivity.
      * intros _. rewrite (cmp_trans Of a1 b1 d1 E1 E2). reflexivity.
    + intros <-.
      destruct (f b1 d1) eqn:E2; [ | discriminate | ].
      * intros _. rewrite <- (cmp_eq_r Of a1 b1 d1 E2), E1. reflexivity.
      * intros _. rewrite (cmp_trans Of a1 b1 d1 E1 E2). reflexivity.
Qed.

Lemma N_compare_order : comparison_order N.compare.
Proof.
  split.
  - intros a b. apply N.compare_antisym.
  - intros c a b d H1 H2.
    destruct (N.compare_spec a b), (N.compare_spec b d), (N.compare_spec a d);
      subst; try congruence; lia.
Qed.

Lemma ascii_compare_order : comparison_order Ascii.compare.
Proof.
  split.
  - intros a b. apply Ascii.compare_antisym.
  - intros c a b d. unfold Ascii.compare. apply (cmp_trans N_compare_order).
Qed.

Lemma string_compare_order : comparison_order String.compare.
Proof.
  split.
  - intros a b. apply String.compare_antisym.
  - intros c a. induction a as [ | x a IH]; intros [ | y b] [ | z d];
      cbn [String.compare]; try congruence.
    destruct (Ascii.compare x y) eqn:E1.
    + rewrite (cmp_eq_l ascii_compare_order x y z E1).
      destruct (Ascii.compare y z); [ apply IH | congruence | congruence ].
    + intros <-. destruct (Ascii.compare y z) eqn:E2; [ | | discriminate ].
      * intros _. rewrite <- (cmp_eq_r ascii_compare_order x y z E2), E1.
        reflexivity.
      * intros _. rewrite (cmp_trans ascii_compare_order x y z E1 E2).
        reflexivity.
    + intros <-. destruct (Ascii.compare y z) eqn:E2; [ | discriminate | ].
      * intros _. rewrite <- (cmp_eq_r ascii_compare_order x y z E2), E1.
        reflexivity.
      * intros _. rewrite (cmp_trans ascii_compare_order x y z E1 E2).
        reflexivity.
Qed.

Lemma Q_compare_order : comparison_order Qcompare.
Proof.
  split.
  - intros a b. symmetry. apply Qcompare_antisym.
  - intros c a b d H1 H2.
    destruct (Qcompare_spec a b), (Qcompare_spec b d), (Qcompare_spec a d);
      subst; try congruence; lra.
Qed.

Lemma ext_compare_order : comparison_order ext_compare.
Proof.
  split.
  - intros [ | | p | ] [ | | q | ]; cbn; try reflexivity.
    apply (cmp_antisym Q_compare_order).
  - intros c [ | | p | ] [ | | q | ] [ | | r | ]; cbn; try congruence.
    apply (cmp_trans Q_compare_order).
Qed.

Lemma akey_compare_order : comparison_order akey_compare.
Proof.
  pose proof (lex_order ext_compare_order
                (lex_order ext_compare_order
                   (lex_order ext_compare_order string_compare_order))) as O.
  split.
  - intros [[[a1 a2] a3] a4] [[[b1 b2] b3] b4].
    exact (cmp_antisym O (a1, (a2, (a3, a4))) (b1, (b2, (b3, b4)))).
  - intros c [[[a1 a2] a3] a4] [[[b1 b2] b3] b4] [[[d1 d2] d3] d4].
    exact (cmp_trans O (a1, (a2, (a3, a4))) (b1, (b2, (b3, b4)))
             (d1, (d2, (d3, d4)))).
Qed.

(** ** Lists in order *)

Lemma StronglySorted_app (X : Type) (R : X -> X -> Prop) (l1 l2 : list X) :
  StronglySorted R l1 -> StronglySorted R l2 ->
  (forall x y, In x l1 -> In y l2 -> R x y) ->
  StronglySorted R (l1 ++ l2).
Proof.
  intros H1 H2 H. induction H1 as [ | x l1 H1 IH Hx]; cbn [app]; [ exact H2 | ].
  constructor.
  - apply IH. intros a b Ha Hb. apply H; [ right | ]; assumption.
  - apply Forall_app. split; [ exact Hx | ].
    apply Forall_forall. intros y Hy. apply H; [ left; reflexivity | exact Hy ].
Qed.

Lemma StronglySorted_app_inv (X : Type) (R : X -> X -> Prop) (l1 l2 : list X) :
  StronglySorted R (l1 ++ l2) ->
  StronglySorted R l1 /\ StronglySorted R l2.
Proof.
  induction l1 as [ | x l1 IH]; cbn [app]; intros H.
  - split; [ constructor | exact H ].
  - apply StronglySorted_inv in H. destruct H as [H Hx].
    destruct (IH H) as [H1 H2]. split; [ | exact H2 ].
    constructor; [ exact H1 | ].
    apply Forall_app in Hx. apply Hx.
Qed.

Lemma sorted_nth (X : Type) (R : X -> X -> Prop) (a : list X) :
  StronglySorted R a ->
  forall p y, nth_error a p = Some y ->
    Forall (fun x => R x y) (firstn p a) /\ Forall (R y) (skipn (S p) a) /\
    firstn (S p) a = (firstn p a ++ [y])%list /\ skipn p a = y :: skipn (S p) a.
Proof.
  induction 1 as [ | x a Hs IH Hx]; intros [ | p] y Hy; try discriminate.
  - injection Hy as <-. cbn [firstn skipn app]. repeat split; [ constructor | exact Hx ].
  - cbn [nth_error] in Hy. destruct (IH p y Hy) as (H1 & H2 & H3 & H4).
    repeat split.
    + cbn [firstn]. constructor; [ | exact H1 ].
      rewrite Forall_forall in Hx. apply Hx. eapply nth_error_In. exact Hy.
    + exact H2.
    + change (firstn (S (S p)) (x :: a)) with (x :: firstn (S p) a).
      rewrite H3. reflexivity.
    + exact H4.
Qed.

Lemma filter_false (X : Type) (h : X -> bool) (l : list X) :
  Forall (fun x => h x = false) l -> filter h l = [].
Proof.
  induction 1 as [ | x l Hx _ IH]; cbn [filter]; [ reflexivity | ].
  rewrite Hx. exact IH.
Qed.

Lemma Forall_firstn_skipn (X : Type) (P : X -> Prop) (n : nat) (l : list X) :
  Forall P l -> Forall P (firstn n l) /\ Forall P (skipn n l).
Proof.
  intros H. rewrite <- (firstn_skipn n l) in H. apply Forall_app in H. exact H.
Qed.

(** ** The search of [binarysort] ends

    Whatever the comparison answers, the search needs no more turns than
    there are items between [l] and [r]: more fuel changes nothing. *)
Lemma binary_search_fuel (A : Type) (lt : A -> A -> result bool)
    (a : list A) (pivot : A) :
  forall fuel fuel' l r,
    (r <= List.length a)%nat -> (r - l <= fuel)%nat -> (r - l <= fuel')%nat ->
    binary_search lt fuel a pivot l r = binary_search lt fuel' a pivot l r.
Proof.
  induction fuel as [ | fuel IH]; intros fuel' l r Hr Hf Hf'.
  - destruct fuel' as [ | fuel']; [ reflexivity | ].
    cbn [binary_search].
    destruct (Nat.ltb_spec l r) as [Hlt | _]; [ lia | reflexivity ].
  - destruct fuel' as [ | fuel']; cbn [binary_search];
      destruct (Nat.ltb_spec l r) as [Hlt | _]; try reflexivity; try lia.
    assert (Hp : (l + (r - l) / 2 < r)%nat)
      by (pose proof (Nat.div_lt (r - l) 2); lia).
    destruct (nth_error a (l + (r - l) / 2)) as [y | ]; [ | reflexivity ].
    destruct (lt pivot y) as [[ | ] | e]; cbn [bind];
      [ apply IH; lia | apply IH; lia | reflexivity ].
Qed.

(** ** The sort on keys that a comparison orders *)

Section SortTheory.

Variables A B : Type.
Variable lt : A -> A -> result bool.
Variable view : A -> option B.
Variable cmp : B -> B -> comparison.

Hypothesis cmp_order : comparison_order cmp.

Hypothesis lt_view :
  forall a b x y, view a = Some x -> view b = Some y ->
    lt a b = Ok (match cmp x y with Lt => true | _ => false end).

Lemma le_view_trans a b d :
  le_view view cmp a b -> le_view view cmp b d -> le_view view cmp a d.
Proof.
  intros (x & y & Hx & Hy & Hxy) (y' & z & Hy' & Hz & Hyz).
  rewrite Hy in Hy'. injection Hy' as <-.
  exists x, z. repeat split; try assumption.
  eapply cmp_le_trans; eassumption.
Qed.

Lemma below_le_view a b : below_view view cmp a b -> le_view view cmp a b.
Proof.
  intros (x & y & Hx & Hy & Hxy). exists x, y. repeat split; try assumption.
  rewrite Hxy. discriminate.
Qed.

Lemma below_view_trans a b d :
  below_view view cmp a b -> below_view view cmp b d -> below_view view cmp a d.
Proof.
  intros (x & y & Hx & Hy & Hxy) (y' & z & Hy' & Hz & Hyz).
  rewrite Hy in Hy'. injection Hy' as <-.
  exists x, z. repeat split; try assumption.
  eapply (cmp_trans cmp_order); eassumption.
Qed.

Lemma below_le_trans a b d :
  below_view view cmp a b -> le_view view cmp b d -> below_view view cmp a d.
Proof.
  intros (x & y & Hx & Hy & Hxy) (y' & z & Hy' & Hz & Hyz).
  rewrite Hy in Hy'. injection Hy' as <-.
  exists x, z. repeat split; try assumption.
  destruct (cmp y z) eqn:E; [ | | congruence ].
  - rewrite <- (cmp_eq_r cmp_order x y z E). exact Hxy.
  - eapply (cmp_trans cmp_order); eassumption.
Qed.

(** What one comparison of the sort tells. *)
Lemma lt_decides a b :
  viewed view a -> viewed view b ->
  (lt a b = Ok true /\ below_view view cmp a b) \/
  (lt a b = Ok false /\ le_view view cmp b a).
Proof.
  intros [x Hx] [y Hy]. rewrite (lt_view Hx Hy).
  destruct (cmp x y) eqn:E.
  - right. split; [ reflexivity | ]. exists y, x. repeat split; try assumption.
    rewrite (cmp_antisym cmp_order x y), E. discriminate.
  - left. split; [ reflexivity | ]. exists x, y. repeat split; assumption.
  - right. split; [ reflexivity | ]. exists y, x. repeat split; try assumption.
    rewrite (cmp_antisym cmp_order x y), E. discriminate.
Qed.

Lemma below_not_tied z a b :
  below_view view cmp a b ->
  eq_view view cmp z a = true -> eq_view view cmp z b = false.
Proof.
  intros (x & y & Hx & Hy & Hxy). unfold eq_view. rewrite Hx, Hy.
  destruct (view z) as [vz | ]; [ | discriminate ].
  destruct (cmp vz x) eqn:E; try discriminate. intros _.
  rewrite (cmp_eq_l cmp_order vz x y E), Hxy. reflexivity.
Qed.

Lemma above_not_tied z a b :
  below_view view cmp a b ->
  eq_view view cmp z b = true -> eq_view view cmp z a = false.
Proof.
  intros (x & y & Hx & Hy & Hxy). unfold eq_view. rewrite Hx, Hy.
  destruct (view z) as [vz | ]; [ | discriminate ].
  destruct (cmp vz y) eqn:E; try discriminate. intros _.
  destruct (cmp vz x) eqn:E2; try reflexivity.
  rewrite <- (cmp_eq_l cmp_order vz x y E2), E in Hxy. discriminate.
Qed.

(** The search of [binarysort]: between an item that is not smaller than
    the pivot and an item that is, it finds the place after the last item
    that the pivot is not smaller than. *)
Lemma binary_search_spec (a : list A) (pivot : A) :
  Forall (viewed view) a -> viewed view pivot ->
  StronglySorted (le_view view cmp) a ->
  forall fuel l r,
    (l <= r)%nat -> (r <= List.length a)%nat -> (r - l <= fuel)%nat ->
    Forall (fun x => le_view view cmp x pivot) (firstn l a) ->
    Forall (below_view view cmp pivot) (skipn r a) ->
    exists i,
      binary_search lt fuel a pivot l r = Ok i /\
      Forall (fun x => le_view view cmp x pivot) (firstn i a) /\
      Forall (below_view view cmp pivot) (skipn i a).
Proof.
  intros Ha Hp Hs. induction fuel as [ | fuel IH]; intros l r Hlr Hr Hf Hl Hu.
  - assert (l = r) by lia. subst r. exists l. cbn [binary_search]. auto.
  - cbn [binary_search]. destruct (Nat.ltb_spec l r) as [Hlt | Hge].
    + set (p := (l + (r - l) / 2)%nat).
      assert (Hp1 : (l <= p)%nat) by (unfold p; lia).
      assert (Hp2 : (p < r)%nat).
      { unfold p. pose proof (Nat.div_lt (r - l) 2). lia. }
      destruct (nth_error a p) as [y | ] eqn:Hy;
        [ | apply nth_error_None in Hy; lia ].
      destruct (@sorted_nth _ _ _ Hs _ _ Hy) as (H1 & H2 & H3 & H4).
      assert (Hvy : viewed view y).
      { rewrite Forall_forall in Ha. apply Ha. eapply nth_error_In. exact Hy. }
      destruct (@lt_decides _ _ Hp Hvy) as [[-> Hb] | [-> Hb]]; cbn [bind].
      * apply IH; try assumption; try lia.
        rewrite H4. constructor; [ exact Hb | ].
        eapply Forall_impl; [ | exact H2 ].
        intros x Hx. eapply below_le_trans; eassumption.
      * apply IH; try assumption; try lia.
        rewrite H3. apply Forall_app. split; [ | constructor; [ exact Hb | constructor ] ].
        eapply Forall_impl; [ | exact H1 ].
        intros x Hx. exact (@le_view_trans _ _ _ Hx Hb).
    + assert (l = r) by lia. subst r. exists l. auto.
Qed.

(** The pivot put at the place that the search found. *)
Lemma insert_sorted (a : list A) (pivot : A) (i : nat) :
  StronglySorted (le_view view cmp) a ->
  Forall (fun x => le_view view cmp x pivot) (firstn i a) ->
  Forall (below_view view cmp pivot) (skipn i a) ->
  Permutation (firstn i a ++ pivot :: skipn i a) (a ++ [pivot]) /\
  StronglySorted (le_view view cmp) (firstn i a ++ pivot :: skipn i a) /\
  forall z, filter (eq_view view cmp z) (firstn i a ++ pivot :: skipn i a)
            = filter (eq_view view cmp z) (a ++ [pivot]).
Proof.
  intros Hs Hl Hu.
  assert (Hsplit : StronglySorted (le_view view cmp) (firstn i a)
                   /\ StronglySorted (le_view view cmp) (skipn i a))
    by (apply StronglySorted_app_inv; rewrite firstn_skipn; exact Hs).
  destruct Hsplit as [Hs1 Hs2].
  assert (Hu' : Forall (le_view view cmp pivot) (skipn i a))
    by (eapply Forall_impl; [ | exact Hu ]; intros x; apply below_le_view).
  repeat split.
  - rewrite <- Permutation_middle, <- Permutation_cons_append, firstn_skipn.
    reflexivity.
  - apply StronglySorted_app; [ exact Hs1 | constructor; assumption | ].
    intros x y Hx Hy. rewrite Forall_forall in Hl, Hu'.
    destruct Hy as [<- | Hy]; [ apply Hl, Hx | ].
    eapply le_view_trans; [ apply Hl, Hx | apply Hu', Hy ].
  - intros z.
    assert (Hfa : filter (eq_view view cmp z) a
                  = (filter (eq_view view cmp z) (firstn i a)
                     ++ filter (eq_view view cmp z) (skipn i a))%list)
      by (rewrite <- filter_app, firstn_skipn; reflexivity).
    rewrite !filter_app, Hfa. cbn [filter].
    destruct (eq_view view cmp z pivot) eqn:E.
    + rewrite (@filter_false _ (eq_view view cmp z) (skipn i a)).
      * rewrite app_nil_r. reflexivity.
      * eapply Forall_impl; [ | exact Hu ].
        intros x Hx. eapply below_not_tied; eassumption.
    + rewrite app_nil_r. reflexivity.
Qed.

Lemma binarysort_sorted (rest : list A) :
  forall a,
    Forall (viewed view) a -> Forall (viewed view) rest ->
    StronglySorted (le_view view cmp) a ->
    exists r,
      binarysort lt a rest = Ok r /\
      Permutation r (a ++ rest) /\
      StronglySorted (le_view view cmp) r /\
      forall z, filter (eq_view view cmp z) r
                = filter (eq_view view cmp z) (a ++ rest).
Proof.
  induction rest as [ | pivot rest IH]; intros a Ha Hrest Hs.
  - exists a. cbn [binarysort]. rewrite app_nil_r. repeat split.
    + apply Permutation_refl.
    + exact Hs.
  - apply Forall_cons_iff in Hrest. destruct Hrest as [Hp Hrest].
    destruct (@binary_search_spec a pivot Ha Hp Hs (List.length a) 0
                (List.length a))
      as (i & Hi & Hl & Hu); try lia.
    + constructor.
    + rewrite skipn_all. constructor.
    + destruct (@insert_sorted a pivot i Hs Hl Hu) as (Hperm & Hs' & Hst).
      assert (Ha' : Forall (viewed view) (firstn i a ++ pivot :: skipn i a)).
      { eapply Permutation_Forall; [ symmetry; exact Hperm | ].
        apply Forall_app. split; [ exact Ha | constructor; [ exact Hp | constructor ] ]. }
      destruct (IH _ Ha' Hrest Hs') as (r & Hr & Hpr & Hsr & Hstr).
      exists r. cbn [binarysort]. rewrite Hi. cbn [bind]. repeat split.
      * exact Hr.
      * rewrite Hpr, Hperm, <- app_assoc. reflexivity.
      * exact Hsr.
      * intros z. rewrite Hstr, filter_app, Hst, <- filter_app, <- app_assoc.
        reflexivity.
Qed.

Lemma ascending_run_sorted (l : list A) :
  forall prev,
    viewed view prev -> Forall (viewed view) l ->
    exists n,
      ascending_run lt prev l = Ok n /\
      StronglySorted (le_view view cmp) (prev :: firstn n l).
Proof.
  induction l as [ | x l IH]; intros prev Hp Hl.
  - exists 0%nat. split; [ reflexivity | ]. constructor; constructor.
  - apply Forall_cons_iff in Hl. destruct Hl as [Hx Hl].
    cbn [ascending_run].
    destruct (@lt_decides _ _ Hx Hp) as [[-> Hb] | [-> Hb]]; cbn [bind].
    + exists 0%nat. split; [ reflexivity | ]. constructor; constructor.
    + destruct (IH x Hx Hl) as (n & -> & Hs). cbn [bind].
      exists (S n). split; [ reflexivity | ]. cbn [firstn].
      constructor; [ exact Hs | ].
      constructor; [ exact Hb | ].
      apply StronglySorted_inv in Hs. destruct Hs as [_ Hs].
      eapply Forall_impl; [ | exact Hs ].
      intros y Hy. eapply le_view_trans; eassumption.
Qed.

Lemma descending_run_sorted (l : list A) :
  forall prev,
    viewed view prev -> Forall (viewed view) l ->
    exists n,
      descending_run lt prev l = Ok n /\
      StronglySorted (fun a b => below_view view cmp b a) (prev :: firstn n l).
Proof.
  induction l as [ | x l IH]; intros prev Hp Hl.
  - exists 0%nat. split; [ reflexivity | ]. constructor; constructor.
  - apply Forall_cons_iff in Hl. destruct Hl as [Hx Hl].
    cbn [descending_run].
    destruct (@lt_decides _ _ Hx Hp) as [[-> Hb] | [-> Hb]]; cbn [bind].
    + destruct (IH x Hx Hl) as (n & -> & Hs). cbn [bind].
      exists (S n). split; [ reflexivity | ]. cbn [firstn].
      constructor; [ exact Hs | ].
      constructor; [ exact Hb | ].
      apply StronglySorted_inv in Hs. destruct Hs as [_ Hs].
      eapply Forall_impl; [ | exact Hs ].
      intros y Hy. exact (@below_view_trans _ _ _ Hy Hb).
    + exists 0%nat. split; [ reflexivity | ]. constructor; constructor.
Qed.

(** A strictly descending run, reversed: it is in order, and no two of
    its items have equal keys. *)
Lemma rev_descending (l : list A) :
  StronglySorted (fun a b => below_view view cmp b a) l ->
  StronglySorted (le_view view cmp) (rev l) /\
  forall z, filter (eq_view view cmp z) (rev l) = filter (eq_view view cmp z) l.
Proof.
  induction 1 as [ | x l Hs [IH1 IH2] Hx]; cbn [rev].
  - split; [ constructor | reflexivity ].
  - split.
    + apply StronglySorted_app; [ exact IH1 | constructor; constructor | ].
      intros a b Ha [<- | []]. apply below_le_view.
      rewrite Forall_forall in Hx. apply Hx, in_rev, Ha.
    + intros z. rewrite filter_app, IH2. cbn [filter].
      destruct (eq_view view cmp z x) eqn:E.
      * rewrite (@filter_false _ (eq_view view cmp z) l); [ reflexivity | ].
        eapply Forall_impl; [ | exact Hx ].
        intros y Hy. exact (@above_not_tied _ _ _ Hy E).
      * apply app_nil_r.
Qed.

(** The sort on keys that the comparison orders: it succeeds, and its
    result is a rearrangement of the list, in order, with the items of
    equal keys in their input order. *)
Lemma list_sort_sorted (l : list A) :
  Forall (viewed view) l ->
  exists r,
    list_sort lt l = Ok r /\
    Permutation r l /\
    StronglySorted (le_view view cmp) r /\
    forall z, filter (eq_view view cmp z) r = filter (eq_view view cmp z) l.
Proof.
  intros Hl. destruct l as [ | x [ | y t]].
  - exists []. repeat split; constructor.
  - exists [x]. repeat split; [ apply Permutation_refl | ].
    constructor; constructor.
  - pose proof Hl as Hl0.
    apply Forall_cons_iff in Hl. destruct Hl as [Hx Hl].
    apply Forall_cons_iff in Hl. destruct Hl as [Hy Ht].
    unfold list_sort. cbn [count_run].
    destruct (@lt_decides _ _ Hy Hx) as [[-> Hb] | [-> Hb]]; cbn [bind].
    + destruct (@descending_run_sorted t y Hy Ht) as (n & -> & Hs). cbn [bind].
      cbn [firstn skipn].
      assert (Hrun : StronglySorted (fun a b => below_view view cmp b a)
                       (x :: y :: firstn n t)).
      { constructor; [ exact Hs | ]. constructor; [ exact Hb | ].
        apply StronglySorted_inv in Hs. destruct Hs as [_ Hs].
        eapply Forall_impl; [ | exact Hs ].
        intros z Hz. exact (@below_view_trans _ _ _ Hz Hb). }
      destruct (@rev_descending _ Hrun) as [Hsr Hfr].
      destruct (@Forall_firstn_skipn _ _ n _ Ht) as [Hf1 Hf2].
      assert (Hvr : Forall (viewed view) (rev (x :: y :: firstn n t))).
      { apply Forall_rev. repeat constructor; assumption. }
      destruct (@binarysort_sorted _ _ Hvr Hf2 Hsr) as (r & Hr & Hp & Hss & Hst).
      exists r. repeat split; try assumption.
      * rewrite Hp, <- Permutation_rev. cbn [app].
        rewrite firstn_skipn. reflexivity.
      * intros z. rewrite Hst, filter_app, Hfr, <- filter_app. cbn [app].
        rewrite firstn_skipn. reflexivity.
    + destruct (@ascending_run_sorted t y Hy Ht) as (n & -> & Hs). cbn [bind].
      cbn [firstn skipn].
      assert (Hrun : StronglySorted (le_view view cmp) (x :: y :: firstn n t)).
      { constructor; [ exact Hs | ]. constructor; [ exact Hb | ].
        apply StronglySorted_inv in Hs. destruct Hs as [_ Hs].
        eapply Forall_impl; [ | exact Hs ].
        intros z Hz. eapply le_view_trans; eassumption. }
      destruct (@Forall_firstn_skipn _ _ n _ Ht) as [Hf1 Hf2].
      assert (Hvr : Forall (viewed view) (x :: y :: firstn n t))
        by (repeat constructor; assumption).
      destruct (@binarysort_sorted _ _ Hvr Hf2 Hrun) as (r & Hr & Hp & Hss & Hst).
      exists r. repeat split; try assumption.
      * rewrite Hp. cbn [app]. rewrite firstn_skipn. reflexivity.
      * intros z. rewrite Hst. cbn [app]. rewrite firstn_skipn. reflexivity.
Qed.

Lemma ascending_run_all (l : list A) :
  forall prev,
    viewed view prev -> Forall (viewed view) l ->
    StronglySorted (le_view view cmp) (prev :: l) ->
    ascending_run lt prev l = Ok (List.length l).
Proof.
  induction l as [ | x l IH]; intros prev Hp Hl Hs; [ reflexivity | ].
  apply Forall_cons_iff in Hl. destruct Hl as [Hx Hl].
  apply StronglySorted_inv in Hs. destruct Hs as [Hs Hpl].
  apply Forall_cons_iff in Hpl. destruct Hpl as [(vp & vx & Hvp & Hvx & Hc) _].
  cbn [ascending_run]. rewrite (lt_view Hvx Hvp).
  rewrite (cmp_antisym cmp_order vp vx).
  destruct (cmp vp vx); cbn [CompOpp bind]; try congruence;
    rewrite (IH x Hx Hl Hs); reflexivity.
Qed.

(** The sort leaves a sorted list as it is. *)
Lemma list_sort_sorted_input (l : list A) :
  Forall (viewed view) l -> StronglySorted (le_view view cmp) l ->
  list_sort lt l = Ok l.
Proof.
  intros Hl Hs. destruct l as [ | x [ | y t]]; try reflexivity.
  pose proof Hs as Hs0.
  apply Forall_cons_iff in Hl. destruct Hl as [Hx Hl].
  apply Forall_cons_iff in Hl. destruct Hl as [Hy Ht].
  apply StronglySorted_inv in Hs. destruct Hs as [Hs Hxl].
  apply Forall_cons_iff in Hxl. destruct Hxl as [(vx & vy & Hvx & Hvy & Hc) _].
  unfold list_sort. cbn [count_run]. rewrite (lt_view Hvy Hvx).
  rewrite (cmp_antisym cmp_order vx vy).
  destruct (cmp vx vy); cbn [CompOpp bind]; try congruence;
    rewrite (@ascending_run_all t y Hy Ht Hs); cbn [bind];
    change (S (S (List.length t))) with (List.length (x :: y :: t));
    rewrite firstn_all, skipn_all; reflexivity.
Qed.

End SortTheory.

(** ** Python's [<] and [==] on numbers and names, and the comparison *)

Lemma number_inv (v : value) (e : ext) :
  number v = Some e ->
  exists n, as_num v = Some n /\ ext_of_num n = e /\ e <> ENaN.
Proof.
  unfold number. destruct (as_num v) as [n | ]; [ | discriminate ].
  destruct (ext_of_num n) eqn:E; [ discriminate | | | ];
    intros [= <-]; exists n; (split; [ reflexivity | ]);
    (split; [ exact E | discriminate ]).
Qed.

Lemma Qeq_bool_compare (p q : Q) :
  Qeq_bool p q = match Qcompare p q with Eq => true | _ => false end.
Proof.
  destruct (Qeq_bool p q) eqn:E.
  - apply Qeq_bool_iff in E. apply Qeq_alt in E. rewrite E. reflexivity.
  - destruct (Qcompare p q) eqn:C; try reflexivity.
    apply Qeq_alt, Qeq_bool_iff in C. congruence.
Qed.

Lemma Qlt_bool_compare (p q : Q) :
  negb (Qle_bool q p) = match Qcompare p q with Lt => true | _ => false end.
Proof.
  destruct (Qle_bool q p) eqn:E; cbn [negb].
  - apply Qle_bool_iff in E.
    destruct (Qcompare_spec p q); try reflexivity. lra.
  - assert (H : ~ (q <= p)%Q)
      by (intros H; apply Qle_bool_iff in H; congruence).
    destruct (Qcompare_spec p q); try reflexivity; lra.
Qed.

Lemma ext_eqb_compare (a b : ext) :
  a <> ENaN -> b <> ENaN ->
  ext_eqb a b = match ext_compare a b with Eq => true | _ => false end.
Proof.
  destruct a, b; cbn; try congruence; try reflexivity.
  intros _ _. apply Qeq_bool_compare.
Qed.

Lemma ext_ltb_compare (a b : ext) :
  a <> ENaN -> b <> ENaN ->
  ext_ltb a b = match ext_compare a b with Lt => true | _ => false end.
Proof.
  destruct a, b; cbn; try congruence; try reflexivity.
  intros _ _. apply Qlt_bool_compare.
Qed.

Lemma string_eqb_compare (s t : string) :
  String.eqb s t = match String.compare s t with Eq => true | _ => false end.
Proof.
  destruct (String.eqb_spec s t) as [-> | N].
  - rewrite (cmp_refl string_compare_order). reflexivity.
  - destruct (String.compare s t) eqn:C; try reflexivity.
    apply String.compare_eq_iff in C. contradiction.
Qed.

Lemma py_eq_number (v w : value) (a b : ext) :
  number v = Some a -> number w = Some b ->
  py_eq v w = match ext_compare a b with Eq => true | _ => false end.
Proof.
  intros Hv Hw.
  destruct (number_inv _ Hv) as (n & Hn & <- & Na).
  destruct (number_inv _ Hw) as (m & Hm & <- & Nb).
  rewrite <- ext_eqb_compare by assumption.
  destruct v; cbn [as_num] in Hn; try discriminate;
    destruct w; cbn [as_num] in Hm; try discriminate;
    injection Hn as <-; injection Hm as <-; reflexivity.
Qed.

Lemma py_lt_number (v w : value) (a b : ext) :
  number v = Some a -> number w = Some b ->
  py_lt v w = Ok (match ext_compare a b with Lt => true | _ => false end).
Proof.
  intros Hv Hw.
  destruct (number_inv _ Hv) as (n & Hn & <- & Na).
  destruct (number_inv _ Hw) as (m & Hm & <- & Nb).
  rewrite <- ext_ltb_compare by assumption.
  destruct v; cbn [as_num] in Hn; try discriminate;
    destruct w; cbn [as_num] in Hm; try discriminate;
    injection Hn as <-; injection Hm as <-; reflexivity.
Qed.

(** On keys of three numbers and a name, the tuple comparison of the sort
    is the lexicographic comparison. *)
Lemma tuple_lt_view (k k' : list value) (x y : akey) :
  key_view k = Some x -> key_view k' = Some y ->
  tuple_lt k k' = Ok (match akey_compare x y with Lt => true | _ => false end).
Proof.
  unfold key_view.
  destruct k as [ | k1 [ | k2 [ | k3 [ | k4 [ | ? ?]]]]]; try discriminate;
    destruct k4; try discriminate.
  destruct k' as [ | j1 [ | j2 [ | j3 [ | j4 [ | ? ?]]]]]; try discriminate;
    destruct j4; try discriminate.
  destruct (number k1) as [a1 | ] eqn:A1; [ | discriminate ].
  destruct (number k2) as [a2 | ] eqn:A2; [ | discriminate ].
  destruct (number k3) as [a3 | ] eqn:A3; [ | discriminate ].
  destruct (number j1) as [b1 | ] eqn:B1; [ | discriminate ].
  destruct (number j2) as [b2 | ] eqn:B2; [ | discriminate ].
  destruct (number j3) as [b3 | ] eqn:B3; [ | discriminate ].
  intros [= <-] [= <-].
  cbn [tuple_lt akey_compare].
  rewrite (py_eq_number _ _ A1 B1), (py_lt_number _ _ A1 B1).
  rewrite (py_eq_number _ _ A2 B2), (py_lt_number _ _ A2 B2).
  rewrite (py_eq_number _ _ A3 B3), (py_lt_number _ _ A3 B3).
  change (py_eq (VStr s) (VStr s0)) with (String.eqb s s0).
  change (py_lt (VStr s) (VStr s0)) with (Ok (String.ltb s s0)).
  rewrite string_eqb_compare. unfold String.ltb, lex.
  destruct (ext_compare a1 b1); try reflexivity.
  destruct (ext_compare a2 b2); try reflexivity.
  destruct (ext_compare a3 b3); try reflexivity.
  destruct (String.compare s s0); reflexivity.
Qed.

(** ** The key of a scored record *)

Lemma to_Q_opp (f : spec_float) :
  F64.to_Q (F64.opp f) = (- F64.to_Q f)%Q.
Proof.
  destruct f as [s | s | | s m e]; try reflexivity.
  cbn [F64.opp SFopp F64.to_Q].
  destruct e as [ | p | p]; unfold Qopp, inject_Z; cbn [Qnum Qden]; f_equal;
    destruct s; cbn [negb cond_Zopp]; ring.
Qed.

Lemma py_neg_number (v : value) (e : ext) :
  number v = Some e ->
  exists v', py_neg v = Ok v' /\ number v' = Some (ext_opp e).
Proof.
  intros Hv. destruct (number_inv _ Hv) as (n & Hn & <- & Ne).
  unfold py_neg. rewrite Hn.
  destruct n as [z | f].
  - eexists. split; reflexivity.
  - eexists. split; [ reflexivity | ].
    unfold number. cbn [as_num ext_of_num].
    destruct f as [s | [ | ] | | s m e]; try reflexivity.
    + cbn in Ne. congruence.
    + change (F64.opp (S754_finite s m e)) with (S754_finite (negb s) m e).
      cbn [ext_of_num ext_opp].
      rewrite <- to_Q_opp. reflexivity.
Qed.

Lemma ext_compare_opp (a b : ext) :
  a <> ENaN -> b <> ENaN ->
  ext_compare (ext_opp a) (ext_opp b) = ext_compare b a.
Proof.
  destruct a, b; cbn; try congruence; try reflexivity.
  intros _ _.
  destruct (Qcompare_spec (- q) (- q0)), (Qcompare_spec q0 q);
    try reflexivity; lra.
Qed.

Lemma scored_view_inv (x : value) (a : scored) :
  scored_view x = Some a ->
  exists s r d,
    py_getitem x "score" = Ok s /\ py_getitem x "rating" = Ok r /\
    py_getitem x "distance_from_me" = Ok d /\
    py_getitem x "restaurant_name" = Ok (VStr (restaurant_name a)) /\
    number s = Some (score a) /\ number r = Some (rating a) /\
    number d = Some (distance_from_me a).
Proof.
  unfold scored_view.
  destruct (py_getitem x "score") as [s | ]; [ | discriminate ].
  destruct (py_getitem x "rating") as [r | ]; [ | discriminate ].
  destruct (py_getitem x "distance_from_me") as [d | ]; [ | discriminate ].
  destruct (py_getitem x "restaurant_name") as [n | ]; [ | discriminate ].
  destruct n; try discriminate.
  destruct (number s) as [s' | ] eqn:Ns; [ | discriminate ].
  destruct (number r) as [r' | ] eqn:Nr; [ | discriminate ].
  destruct (number d) as [d' | ] eqn:Nd; [ | discriminate ].
  intros [= <-]. exists s, r, d. repeat split; assumption.
Qed.

Lemma number_not_nan (v : value) (e : ext) : number v = Some e -> e <> ENaN.
Proof.
  intros H. destruct (number_inv _ H) as (n & _ & _ & N). exact N.
Qed.

(** The key that the sort computes for a scored record. *)
Lemma sort_key_scored (x : value) (a : scored) :
  scored_view x = Some a ->
  exists k, sort_key x = Ok k /\ key_view k = Some (akey_of a).
Proof.
  intros H.
  destruct (scored_view_inv _ H) as (s & r & d & Hs & Hr & Hd & Hn & Ns & Nr & Nd).
  destruct (py_neg_number _ Ns) as (k1 & Hk1 & Nk1).
  destruct (py_neg_number _ Nr) as (k2 & Hk2 & Nk2).
  exists [k1; k2; d; VStr (restaurant_name a)].
  unfold sort_key.
  rewrite Hs. cbn [bind]. rewrite Hk1. cbn [bind].
  rewrite Hr. cbn [bind]. rewrite Hk2. cbn [bind].
  rewrite Hd. cbn [bind]. rewrite Hn. cbn [bind].
  split; [ reflexivity | ].
  cbn [key_view]. rewrite Nk1, Nk2, Nd. reflexivity.
Qed.

Lemma scored_fields_not_nan (x : value) (a : scored) :
  scored_view x = Some a ->
  score a <> ENaN /\ rating a <> ENaN /\ distance_from_me a <> ENaN.
Proof.
  intros H.
  destruct (scored_view_inv _ H) as (s & r & d & _ & _ & _ & _ & Ns & Nr & Nd).
  repeat split; eapply number_not_nan; eassumption.
Qed.

(** The lexicographic comparison of two keys, read on the records: not
    greater means that the first record ranks before the second or ties
    with it; equal means a tie. *)
Lemma akey_compare_ranks (a b : scored) :
  score a <> ENaN -> rating a <> ENaN -> distance_from_me a <> ENaN ->
  score b <> ENaN -> rating b <> ENaN -> distance_from_me b <> ENaN ->
  (akey_compare (akey_of a) (akey_of b) <> Gt -> ranks_before a b \/ tied a b) /\
  tiedb a b = match akey_compare (akey_of a) (akey_of b) with
              | Eq => true
              | _ => false
              end.
Proof.
  intros Sa Ra Da Sb Rb Db.
  unfold akey_of, akey_compare, ranks_before, tied, tiedb, ext_lt, ext_eq, str_lt.
  rewrite !ext_compare_opp by assumption.
  rewrite (ext_ltb_compare Sb Sa), (ext_eqb_compare Sa Sb).
  rewrite (ext_ltb_compare Rb Ra), (ext_eqb_compare Ra Rb).
  rewrite (ext_ltb_compare Da Db), (ext_eqb_compare Da Db).
  rewrite string_eqb_compare. unfold String.ltb.
  rewrite (cmp_antisym ext_compare_order (score b) (score a)).
  rewrite (cmp_antisym ext_compare_order (rating b) (rating a)).
  destruct (ext_compare (score b) (score a)),
           (ext_compare (rating b) (rating a)),
           (ext_compare (distance_from_me a) (distance_from_me b)),
           (String.compare (restaurant_name a) (restaurant_name b)) eqn:C;
    cbn [CompOpp lex andb]; (split; [ | reflexivity ]); intros H;
    try congruence;
    solve [ right; repeat split; apply String.compare_eq_iff; exact C
          | left; intuition (discriminate || auto) ].
Qed.

(** ** Ranker *)

Lemma mapM_Forall2 (X Y : Type) (f : X -> result Y) (l : list X) :
  Forall (fun x => exists y, f x = Ok y) l ->
  exists ys, mapM f l = Ok ys /\ Forall2 (fun x y => f x = Ok y) l ys.
Proof.
  induction l as [ | x l IH]; intros H.
  - exists []. split; [ reflexivity | constructor ].
  - apply Forall_cons_iff in H. destruct H as [[y Hy] Hl].
    destruct (IH Hl) as (ys & Hys & HF).
    exists (y :: ys). cbn [mapM]. rewrite Hy, Hys. cbn [bind].
    split; [ reflexivity | constructor; assumption ].
Qed.

Lemma combine_Forall2 (X Y : Type) (P : X -> Y -> Prop) (l : list X) (ys : list Y) :
  Forall2 P l ys ->
  Forall (fun p => P (snd p) (fst p)) (combine ys l) /\
  map snd (combine ys l) = l.
Proof.
  induction 1 as [ | x y l ys Hxy _ [IH1 IH2]]; cbn [combine map].
  - split; [ constructor | reflexivity ].
  - split; [ constructor; assumption | cbn [snd]; rewrite IH2; reflexivity ].
Qed.

Lemma StronglySorted_map (X Y : Type) (R : X -> X -> Prop) (R' : Y -> Y -> Prop)
    (f : X -> Y) (P : X -> Prop) (s : list X) :
  (forall p q, P p -> P q -> R p q -> R' (f p) (f q)) ->
  Forall P s -> StronglySorted R s -> StronglySorted R' (map f s).
Proof.
  intros HR HP Hs. induction Hs as [ | p s Hs IH Hp]; cbn [map].
  - constructor.
  - apply Forall_cons_iff in HP. destruct HP as [Pp Ps].
    constructor; [ apply IH, Ps | ].
    apply Forall_map.
    rewrite Forall_forall in Hp, Ps |- *.
    intros q Hq. apply HR; auto.
Qed.

Lemma filter_map_agree (X Y : Type) (f : X -> Y) (g : X -> bool) (h : Y -> bool)
    (P : X -> Prop) (s : list X) :
  (forall p, P p -> g p = h (f p)) -> Forall P s ->
  map f (filter g s) = filter h (map f s).
Proof.
  intros Hgh HP. induction HP as [ | p s Pp _ IH]; cbn [filter map].
  - reflexivity.
  - rewrite <- (Hgh p Pp). destruct (g p); cbn [map]; rewrite IH; reflexivity.
Qed.

Lemma filter_none (X : Type) (h : X -> bool) (l : list X) :
  (forall x, h x = false) -> filter h l = [].
Proof.
  intros H. induction l as [ | x l IH]; cbn [filter]; [ reflexivity | ].
  rewrite H. exact IH.
Qed.

Lemma keyed_le (p q : list value * value) :
  keyed p -> keyed q ->
  le_view (fun p => key_view (fst p)) akey_compare p q ->
  in_rank_order (snd p) (snd q).
Proof.
  intros (a & Ha & Ka) (b & Hb & Kb) (x & y & Hx & Hy & Hxy).
  rewrite Ka in Hx. injection Hx as <-.
  rewrite Kb in Hy. injection Hy as <-.
  exists a, b. repeat split; try assumption.
  destruct (scored_fields_not_nan _ Ha) as (Sa & Ra & Da).
  destruct (scored_fields_not_nan _ Hb) as (Sb & Rb & Db).
  apply (@akey_compare_ranks a b Sa Ra Da Sb Rb Db). exact Hxy.
Qed.

Lemma keyed_tie (z : value) (kz : list value) (p : list value * value) :
  keyed (kz, z) -> keyed p ->
  eq_view (fun p => key_view (fst p)) akey_compare (kz, z) p
  = ties_with z (snd p).
Proof.
  intros (a & Ha & Ka) (b & Hb & Kb). cbn [fst snd] in Ha, Ka.
  unfold eq_view, ties_with. cbn [fst]. rewrite Ka, Kb, Ha, Hb.
  destruct (scored_fields_not_nan _ Ha) as (Sa & Ra & Da).
  destruct (scored_fields_not_nan _ Hb) as (Sb & Rb & Db).
  symmetry. apply (@akey_compare_ranks a b Sa Ra Da Sb Rb Db).
Qed.

(** The sort of [main] on scored records: it succeeds, and its result is
    a rearrangement of the input, in ranking order, with tied records in
    their input order. *)
Lemma sorted_scored (rs : list value) :
  Forall (fun x => is_scored x = true) rs ->
  exists sorted_data,
    sorted sort_key rs = Ok sorted_data /\
    Permutation sorted_data rs /\
    StronglySorted in_rank_order sorted_data /\
    forall z, filter (ties_with z) sorted_data = filter (ties_with z) rs.
Proof.
  intros Hrs.
  assert (Hv : Forall (fun x => exists a, scored_view x = Some a) rs).
  { eapply Forall_impl; [ | exact Hrs ]. intros x Hx. unfold is_scored in Hx.
    destruct (scored_view x) as [a | ]; [ exists a; reflexivity | discriminate ]. }
  assert (Hk : Forall (fun x => exists k, sort_key x = Ok k) rs).
  { eapply Forall_impl; [ | exact Hv ]. intros x [a Ha].
    destruct (sort_key_scored _ Ha) as (k & Hk & _). exists k. exact Hk. }
  destruct (mapM_Forall2 _ Hk) as (keys & Hkeys & HF).
  destruct (combine_Forall2 HF) as [Hinv Hsnd].
  assert (Hkeyed : Forall keyed (combine keys rs)).
  { rewrite Forall_forall in Hinv, Hv |- *. intros p Hp.
    assert (Hin : In (snd p) rs) by (rewrite <- Hsnd; apply in_map, Hp).
    destruct (Hv _ Hin) as [a Ha].
    destruct (sort_key_scored _ Ha) as (k & Hk' & Kv).
    exists a. split; [ exact Ha | ].
    rewrite (Hinv p Hp) in Hk'. injection Hk' as <-. exact Kv. }
  set (view := fun p : list value * value => key_view (fst p)).
  set (lt := fun a b : list value * value => tuple_lt (fst a) (fst b)).
  assert (Hlt : forall a b x y, view a = Some x -> view b = Some y ->
                  lt a b = Ok (match akey_compare x y with Lt => true | _ => false end))
    by (intros a b x y Ha Hb; apply tuple_lt_view; assumption).
  assert (Hviewed : Forall (viewed view) (combine keys rs)).
  { eapply Forall_impl; [ | exact Hkeyed ]. intros p (a & _ & Ka).
    exists (akey_of a). exact Ka. }
  destruct (@list_sort_sorted _ _ lt view akey_compare akey_compare_order Hlt
              _ Hviewed)
    as (s & Hs & Hp & Hss & Hst).
  assert (Hks : Forall keyed s)
    by (eapply Permutation_Forall; [ symmetry; exact Hp | exact Hkeyed ]).
  exists (map snd s). repeat split.
  - unfold sorted. rewrite Hkeys. cbn [bind]. fold lt. rewrite Hs. reflexivity.
  - rewrite <- Hsnd. apply Permutation_map, Hp.
  - eapply StronglySorted_map; [ | exact Hks | exact Hss ].
    intros p q. apply keyed_le.
  - intros z. rewrite <- Hsnd at 1.
    destruct (scored_view z) as [a | ] eqn:Hz.
    + destruct (sort_key_scored _ Hz) as (kz & _ & Kz).
      assert (Hkz : keyed (kz, z)) by (exists a; split; assumption).
      rewrite <- (filter_map_agree snd (eq_view view akey_compare (kz, z))
                    (ties_with z) (fun p => keyed_tie Hkz) Hks).
      rewrite <- (filter_map_agree snd (eq_view view akey_compare (kz, z))
                    (ties_with z) (fun p => keyed_tie Hkz) Hkeyed).
      rewrite Hst. reflexivity.
    + rewrite !filter_none; [ reflexivity | | ];
        intros x; unfold ties_with; rewrite Hz; reflexivity.
Qed.

(** C3.  On scored records (number fields [score], [rating] and
    [distance_from_me], a string [restaurant_name]) the ranker returns the
    first ten records, or all of them when there are fewer, of a
    rearrangement of its input in which every record ranks before, or ties
    with, every later one: score descending, then rating descending, then
    distance ascending, then name ascending. *)
Theorem rank_orders_by_composite_key :
  forall rs,
    Forall (fun x => is_scored x = true) rs ->
    exists sorted_data,
      Permutation sorted_data rs /\
      StronglySorted in_rank_order sorted_data /\
      rank rs = Ok (firstn 10 sorted_data) /\
      List.length (firstn 10 sorted_data) = Nat.min 10 (List.length rs).
Proof.
  intros rs Hrs.
  destruct (sorted_scored Hrs) as (s & Hs & Hp & Hss & _).
  exists s. repeat split; try assumption.
  - unfold rank. rewrite Hs. reflexivity.
  - rewrite length_firstn, (Permutation_length Hp). reflexivity.
Qed.

(** C4, as amended.  On scored records (number fields [score], [rating]
    and [distance_from_me], none of them a NaN, and a string
    [restaurant_name], in every record of the list) the sort is stable:
    the records that tie with a given record on all four keys come out of
    the sort in their input order, and those of them that make it into the
    ranked output are the first of them, in that order. *)
Theorem rank_is_stable :
  forall rs,
    Forall (fun x => is_scored x = true) rs ->
    exists sorted_data,
      sorted sort_key rs = Ok sorted_data /\
      rank rs = Ok (firstn 10 sorted_data) /\
      forall x,
        filter (ties_with x) sorted_data = filter (ties_with x) rs /\
        exists rest,
          filter (ties_with x) rs
          = (filter (ties_with x) (firstn 10 sorted_data) ++ rest)%list.
Proof.
  intros rs Hrs.
  destruct (sorted_scored Hrs) as (s & Hs & _ & _ & Hst).
  exists s. repeat split.
  - exact Hs.
  - unfold rank. rewrite Hs. reflexivity.
  - apply Hst.
  - exists (filter (ties_with x) (skipn 10 s)).
    rewrite <- Hst, <- filter_app, firstn_skipn. reflexivity.
Qed.

(** What the scoring pass hands to the ranker is a scored record when the
    input record has number fields and a string name and its score is not
    a NaN. *)
Lemma score_entry_is_scored :
  forall libm d s rating distance name,
    calculate_score libm (VDict d) = Ok s -> is_number s = true ->
    dict_get d "rating" = Some rating -> is_number rating = true ->
    dict_get d "distance_from_me" = Some distance -> is_number distance = true ->
    dict_get d "restaurant_name" = Some (VStr name) ->
    score_entry libm (VDict d) = ([], Ok (VDict (dict_set d "score" s))) /\
    is_scored (VDict (dict_set d "score" s)) = true.
Proof.
  intros libm d s rating distance name Hs Ns Hr Nr Hd Nd Hn.
  split.
  - unfold score_entry. rewrite Hs. reflexivity.
  - unfold is_scored, scored_view. cbn [py_getitem].
    rewrite dict_get_set_same.
    rewrite !dict_get_set_other by discriminate.
    rewrite Hr, Hd, Hn.
    unfold is_number in Ns, Nr, Nd.
    destruct (number s); [ | discriminate ].
    destruct (number rating); [ | discriminate ].
    destruct (number distance); [ | discriminate ].
    reflexivity.
Qed.

Lemma twelve_scored_are_scored :
  Forall (fun x => is_scored x = true) twelve_scored.
Proof.
  apply Forall_forall. intros x Hx.
  assert (H : forallb is_scored twelve_scored = true)
    by (vm_compute; reflexivity).
  rewrite forallb_forall in H. apply H, Hx.
Defined.

Lemma rank_orders_by_composite_key_witness :
  exists sorted_data,
    Permutation sorted_data twelve_scored /\
    StronglySorted in_rank_order sorted_data /\
    rank twelve_scored = Ok (firstn 10 sorted_data) /\
    List.length (firstn 10 sorted_data) = Nat.min 10 (List.length twelve_scored).
Proof.
  exact (@rank_orders_by_composite_key twelve_scored twelve_scored_are_scored).
Defined.

Lemma rank_is_stable_witness :
  exists sorted_data,
    sorted sort_key twelve_scored = Ok sorted_data /\
    rank twelve_scored = Ok (firstn 10 sorted_data) /\
    forall x,
      filter (ties_with x) sorted_data = filter (ties_with x) twelve_scored /\
      exists rest,
        filter (ties_with x) twelve_scored
        = (filter (ties_with x) (firstn 10 sorted_data) ++ rest)%list.
Proof.
  exact (@rank_is_stable twelve_scored twelve_scored_are_scored).
Defined.

(** C4, as stated, fails on a list with a record whose score is a NaN.
    Of the seven records, the fifth and the seventh tie on all four keys.
    No key is smaller than the NaN key and the NaN key is smaller than
    none, so the first run of the sort takes in the first five records,
    the fifth after the NaN although its score is above the third's; the
    binary search for the seventh then meets the third record, whose
    score is below, and stops before it: the seventh record comes out
    fourth, and the fifth, which it ties with, last. *)
Lemma nan_score_unseats_tied_record :
  let a := nth 4 seven_scored VNone in
  let b := nth 6 seven_scored VNone in
  snd (score_all no_libm seven_records) = Ok seven_scored /\
  py_getitem (nth 3 seven_scored VNone) "score" = Ok (VFloat S754_nan) /\
  is_scored a = true /\ is_scored b = true /\ ties_with a b = true /\
  notes (filter (ties_with a) seven_scored) = ["5"; "7"] /\
  exists sorted_data,
    sorted sort_key seven_scored = Ok sorted_data /\
    rank seven_scored = Ok (firstn 10 sorted_data) /\
    notes (firstn 10 sorted_data) = ["6"; "1"; "2"; "7"; "3"; "4"; "5"] /\
    notes (filter (ties_with a) sorted_data) = ["7"; "5"] /\
    filter (ties_with a) sorted_data <> filter (ties_with a) seven_scored.
Proof.
  intros a b.
  repeat (split; [ vm_compute; reflexivity | ]).
  exists (match sorted sort_key seven_scored with Ok s => s | Raise _ => [] end).
  repeat (split; [ vm_compute; reflexivity | ]).
  vm_compute. discriminate.
Qed.

(** The ranked output of the twelve records, by their notes: the tied
    records 1, 4 and 12 stay in that order, and records 9 and 11 are cut. *)
Example rank_twelve :
  match rank twelve_scored with
  | Ok top => notes top
  | Raise _ => []
  end
  = ["3"; "8"; "5"; "2"; "1"; "4"; "12"; "10"; "6"; "7"].
Proof. vm_compute. reflexivity. Qed.

(** The example of the specification (section 8): of two records with
    rating 4, the one at distance 1 comes before the one at distance 2. *)
Example rank_nearer_first :
  forall libm,
    match fst (main libm (world_of (VList [record "A" (VInt 4) (VInt 2);
                                           record "B" (VInt 4) (VInt 1)]))) with
    | EvWrite _ (VList [b; a]) :: _ =>
        (py_getitem b "restaurant_name", py_getitem a "restaurant_name")
    | _ => (Raise TypeError, Raise TypeError)
    end
    = (Ok (VStr "B"), Ok (VStr "A")).
Proof. intros libm. vm_compute. reflexivity. Qed.

(** * Further properties of the program *)

(** ** [main] in two halves *)

Lemma iobind_ret_r (A : Type) (m : io A) : iobind m (fun a => ret a) = m.
Proof.
  destruct m as [t [a | e]]; cbn [iobind ret]; [ | reflexivity ].
  rewrite app_nil_r. reflexivity.
Qed.

Lemma iobind_assoc (A B C : Type) (m : io A) (k : A -> io B) (h : B -> io C) :
  iobind (iobind m k) h = iobind m (fun a => iobind (k a) h).
Proof.
  destruct m as [t [a | e]]; cbn [iobind]; [ | reflexivity ].
  destruct (k a) as [t' [b | e]]; cbn [iobind]; [ | reflexivity ].
  destruct (h b) as [t'' r]. rewrite app_assoc. reflexivity.
Qed.

Lemma iobind_ext (A B : Type) (m : io A) (k k' : A -> io B) :
  (forall a, k a = k' a) -> iobind m k = iobind m k'.
Proof.
  intros H. destruct m as [t [a | e]]; cbn [iobind]; [ | reflexivity ].
  rewrite H. reflexivity.
Qed.

Lemma main_split libm w :
  main libm w
  = (o <~ prepare libm w ;;
     match o with
     | None => ret tt
     | Some output => deliver w output
     end).
Proof.
  unfold main, prepare.
  rewrite iobind_assoc. apply iobind_ext. intros data.
  destruct (negb (truthy data)).
  - rewrite iobind_assoc.
    cbn [print emit iobind ret app]. reflexivity.
  - repeat (rewrite iobind_assoc; apply iobind_ext; intros ?).
    cbn [ret iobind app].
    match goal with
    | |- _ = (let (_, _) := ?d in _) =>
        destruct d as [t r] eqn:E; unfold deliver in E; rewrite E
    end.
    reflexivity.
Qed.

(** ** The operations of a run *)

Lemma without_prints_app (t u : list event) :
  without_prints (t ++ u) = (without_prints t ++ without_prints u)%list.
Proof.
  induction t as [ | e t IH]; [ reflexivity | ].
  destruct e; cbn [app without_prints]; rewrite IH; reflexivity.
Qed.

Lemma without_prints_quiet (t : list event) :
  quiet is_write t -> quiet is_get t -> quiet is_post t ->
  without_prints t = [].
Proof.
  unfold quiet. induction t as [ | e t IH]; [ reflexivity | ].
  cbn [forallb]. intros Hw Hg Hp.
  apply andb_true_iff in Hw, Hg, Hp.
  destruct Hw as [Hw Hw'], Hg as [Hg Hg'], Hp as [Hp Hp'].
  destruct e; cbn in Hw, Hg, Hp; try discriminate.
  cbn [without_prints]. apply IH; assumption.
Qed.

Lemma prepare_quiet (p : event -> bool) libm w :
  (forall text args, p (EvPrint text args) = false) ->
  quiet p (fst (prepare libm w)).
Proof.
  intros Hp. unfold prepare.
  apply iobind_quiet; [ apply load_validated_data_quiet, Hp | intros data _ ].
  destruct (negb (truthy data)).
  - apply iobind_quiet; [ apply print_quiet, Hp | reflexivity ].
  - apply iobind_quiet; [ reflexivity | intros entries _ ].
    apply iobind_quiet; [ apply score_all_quiet, Hp | intros scored _ ].
    apply iobind_quiet; [ reflexivity | intros top _ ].
    apply iobind_quiet; [ reflexivity | intros output _ ]. reflexivity.
Qed.

Lemma prepare_only_prints libm w : without_prints (fst (prepare libm w)) = [].
Proof.
  apply without_prints_quiet; apply prepare_quiet; reflexivity.
Qed.

Lemma prepare_reads_input libm w w' :
  input_source w = input_source w' -> prepare libm w = prepare libm w'.
Proof.
  intros H. unfold prepare, load_validated_data. rewrite H. reflexivity.
Qed.

(** The token request, whatever its outcome, is one GET of the register
    endpoint. *)
Lemma get_authorization_token_operations w url :
  without_prints (fst (get_authorization_token w url))
  = [EvGet (String.append url REGISTER_ENDPOINT)].
Proof.
  unfold get_authorization_token.
  destruct (register_reply w) as [ | status json text | status e text];
    [ reflexivity | | destruct (is_error_status status); reflexivity ].
  destruct (is_error_status status); [ reflexivity | ].
  destruct json as [body | ]; [ | reflexivity ].
  unfold lift, print, emit, ret. cbn [iobind app].
  destruct (py_get body "data" (VDict [])) as [data | e]; cbn [iobind app];
    [ | reflexivity ].
  destruct (py_get data "authorizationToken" VNone) as [token | e];
    cbn [iobind app]; [ | reflexivity ].
  destruct (truthy token); reflexivity.
Qed.

(** X5.  [submit_results] returns whatever the server answers, and what
    it does is one POST to the check endpoint, with the token as the
    [Authorization] header and the output under the key [data]. *)
Theorem submit_results_posts_once :
  forall w api_url token output,
    snd (submit_results w api_url token output) = Ok tt /\
    without_prints (fst (submit_results w api_url token output))
    = [EvPost (String.append api_url CHECK_TOPK_ENDPOINT)
         [("Authorization", token); ("Content-Type", VStr "application/json")]
         (VDict [("data", output)])].
Proof.
  intros w api_url token output. unfold submit_results.
  destruct (check_reply w) as [ | status json text | status e text];
    [ split; reflexivity | | ];
    destruct (is_error_status status); split; reflexivity.
Qed.

Lemma write_output_file_operations w data f :
  snd (write_output_file w data f) = Ok tt /\
  without_prints (fst (write_output_file w data f))
  = if output_writable w then [EvWrite f data] else [].
Proof.
  unfold write_output_file. destruct (output_writable w); split; reflexivity.
Qed.

(** What the second half of [main] does with an output. *)
Lemma deliver_operations w output :
  snd (deliver w output)
  = (token <- snd (get_authorization_token w API_URL) ;; Ok tt) /\
  without_prints (fst (deliver w output)) = operations_for w output.
Proof.
  unfold deliver, operations_for.
  destruct (write_output_file_operations w output OUTPUT_FILE) as [Ws Wt].
  pose proof (get_authorization_token_operations w API_URL) as Gt.
  rewrite iobind_snd, iobind_fst, Ws, without_prints_app, Wt.
  rewrite iobind_snd, iobind_fst, without_prints_app, Gt.
  destruct (snd (get_authorization_token w API_URL)) as [token | e];
    cbn [bind]; [ | split; reflexivity ].
  destruct (truthy token); cbn [negb].
  - unfold submit_results.
    destruct (check_reply w) as [ | status json text | status e text];
      [ | destruct (is_error_status status)
        | destruct (is_error_status status) ]; split; reflexivity.
  - split; reflexivity.
Qed.

Lemma project_is_result_record entry out :
  project entry = Ok out -> is_result_record out = true.
Proof.
  intros H. destruct (project_copies _ H) as (i & n & r & d & s & _ & _ & _ & _ & _ & ->).
  reflexivity.
Qed.

Lemma mapM_project_shape (l out : list value) :
  mapM project l = Ok out ->
  List.length out = List.length l /\ forallb is_result_record out = true.
Proof.
  revert out. induction l as [ | x l IH]; intros out; cbn [mapM].
  - intros [= <-]. split; reflexivity.
  - destruct (project x) as [o | e] eqn:Ho; cbn [bind]; [ | discriminate ].
    destruct (mapM project l) as [os | e]; cbn [bind]; [ | discriminate ].
    intros [= <-]. destruct (IH os eq_refl) as [Hl Hs].
    cbn [List.length forallb]. rewrite Hl, Hs, (project_is_result_record _ Ho).
    split; reflexivity.
Qed.

Lemma rank_at_most_ten (l top : list value) :
  rank l = Ok top -> (List.length top <= 10)%nat.
Proof.
  unfold rank. destruct (sorted sort_key l) as [s | e]; cbn [bind];
    [ | discriminate ].
  intros H. injection H as <-. exact (firstn_le_length 10 s).
Qed.

Lemma prepare_output libm w t v :
  prepare libm w = (t, Ok (Some v)) ->
  exists out,
    v = VList out /\ (List.length out <= 10)%nat /\
    forallb is_result_record out = true.
Proof.
  unfold prepare.
  destruct (load_validated_data w INPUT_FILE) as [t0 [data | e]];
    cbn [iobind]; [ | discriminate ].
  destruct (negb (truthy data)); [ cbn; discriminate | ].
  unfold lift.
  destruct (py_iter data) as [entries | e]; cbn [iobind]; [ | discriminate ].
  destruct (score_all libm entries) as [t1 [scored | e]]; cbn [iobind];
    [ | discriminate ].
  destruct (rank scored) as [top | e] eqn:Hr; cbn [iobind]; [ | discriminate ].
  destruct (mapM project top) as [out | e] eqn:Ho; cbn [iobind ret];
    [ | discriminate ].
  intros [= _ <-]. exists out.
  destruct (mapM_project_shape _ Ho) as [Hl Hs].
  repeat split; [ | exact Hs ].
  rewrite Hl. eapply rank_at_most_ten. exact Hr.
Qed.

(** X6.  Every run is of one of two kinds.  Either it does no file or
    network operation at all; or it has an output of at most ten Result
    Records and its operations are, in this order and at most once each:
    the write of that output (when the file can be written), the GET for
    the token, and, when the token client returned a token, the POST of
    the same output with that token.  A run of the second kind ends
    normally unless the token client raised. *)
Theorem main_operations :
  forall libm w,
    without_prints (fst (main libm w)) = [] \/
    exists out,
      (List.length out <= 10)%nat /\
      forallb is_result_record out = true /\
      snd (main libm w)
      = (token <- snd (get_authorization_token w API_URL) ;; Ok tt) /\
      without_prints (fst (main libm w)) = operations_for w (VList out).
Proof.
  intros libm w. rewrite main_split.
  pose proof (prepare_only_prints libm w) as Hp.
  destruct (prepare libm w) as [t [[v | ] | e]] eqn:E; cbn [fst] in Hp.
  - right. destruct (prepare_output _ _ E) as (out & -> & Hl & Hs).
    exists out. repeat split; try assumption.
    + rewrite iobind_snd. cbn [snd]. apply deliver_operations.
    + rewrite iobind_fst, without_prints_app. cbn [fst snd].
      rewrite Hp. cbn [app]. apply deliver_operations.
  - left. cbn [iobind ret]. rewrite app_nil_r. exact Hp.
  - left. exact Hp.
Qed.

(** X7.  Whether the output file can be written changes nothing else:
    the run ends the same way and makes the same requests. *)
Theorem write_failure_changes_nothing_else :
  forall libm input reg chk,
    let written := World input true reg chk in
    let unwritten := World input false reg chk in
    snd (main libm unwritten) = snd (main libm written) /\
    without_prints (fst (main libm unwritten))
    = filter (fun e => negb (is_write e))
        (without_prints (fst (main libm written))).
Proof.
  intros libm input reg chk written unwritten.
  rewrite !main_split.
  rewrite (@prepare_reads_input libm unwritten written eq_refl).
  pose proof (prepare_only_prints libm written) as Hp.
  destruct (prepare libm written) as [t [[v | ] | e]]; cbn [fst] in Hp.
  - rewrite !iobind_snd, !iobind_fst, !without_prints_app. cbn [fst snd].
    rewrite Hp. cbn [app].
    destruct (deliver_operations written v) as [Ws Wt].
    destruct (deliver_operations unwritten v) as [Us Ut].
    unfold operations_for in Wt, Ut.
    rewrite Ws, Wt, Us, Ut.
    change (get_authorization_token unwritten API_URL)
      with (get_authorization_token written API_URL).
    split; [ reflexivity | ].
    cbn [output_writable written unwritten app filter is_write negb].
    destruct (snd (get_authorization_token written API_URL)) as [tok | e];
      [ destruct (truthy tok) | ]; reflexivity.
  - cbn [iobind ret fst snd]. rewrite !app_nil_r, Hp. split; reflexivity.
  - cbn [iobind fst snd]. rewrite Hp. split; reflexivity.
Qed.

(** ** Token client *)

Lemma py_get_raises (v : value) (k : string) (default : value) (e : exn) :
  py_get v k default = Raise e ->
  e = AttributeError /\ forall d, v <> VDict d.
Proof.
  destruct v; cbn [py_get]; try (intros [= <-]; split; [ reflexivity | discriminate ]).
  destruct (dict_get d k); discriminate.
Qed.

(** X3.  The token client returns [None] or a token that counts as true,
    never another value, and a token comes from [data.authorizationToken]
    of a JSON reply whose status is not 400 to 599.  It lets an exception
    through on two kinds of reply only, both with a status that is not 400
    to 599: a JSON body that is not an object, or whose [data] is not one,
    which gives an AttributeError; and a body on which [response.json()]
    raises an exception that is not a RequestException, which is the
    exception that leaves the client. *)
Theorem get_authorization_token_outcome :
  forall w url,
    match snd (get_authorization_token w url) with
    | Ok token =>
        (token = VNone \/ truthy token = true) /\
        (truthy token = true ->
         exists status body text data,
           register_reply w = Response status (Some body) text /\
           is_error_status status = false /\
           py_get body "data" (VDict []) = Ok data /\
           py_get data "authorizationToken" VNone = Ok token)
    | Raise e =>
        (e = AttributeError /\
         exists status body text,
           register_reply w = Response status (Some body) text /\
           is_error_status status = false /\
           ((forall d, body <> VDict d) \/
            exists data,
              py_get body "data" (VDict []) = Ok data /\
              forall d, data <> VDict d)) \/
        (exists status text,
           register_reply w = ResponseJsonError status e text /\
           is_error_status status = false)
    end.
Proof.
  intros w url. unfold get_authorization_token.
  destruct (register_reply w) as [ | status json text | status e text];
    [ cbn; split; [ left; reflexivity | discriminate ] | | ].
  - destruct (is_error_status status) eqn:Hs;
      [ cbn; split; [ left; reflexivity | discriminate ] | ].
    destruct json as [body | ];
      [ | cbn; split; [ left; reflexivity | discriminate ] ].
    unfold lift, print, emit, ret. cbn [iobind app snd].
    destruct (py_get body "data" (VDict [])) as [data | e] eqn:Hd;
      cbn [iobind app snd].
    + destruct (py_get data "authorizationToken" VNone) as [token | e] eqn:Ht;
        cbn [iobind app snd].
      * destruct (truthy token) eqn:Tt; cbn [iobind app snd].
        -- split; [ right; exact Tt | intros _ ].
           exists status, body, text, data. repeat split; assumption.
        -- split; [ left; reflexivity | discriminate ].
      * destruct (py_get_raises _ _ _ Ht) as [-> Hn].
        left. split; [ reflexivity | ].
        exists status, body, text.
        split; [ reflexivity | split; [ exact Hs | ] ].
        right. exists data. split; [ exact Hd | exact Hn ].
    + destruct (py_get_raises _ _ _ Hd) as [-> Hn].
      left. split; [ reflexivity | ].
      exists status, body, text.
      split; [ reflexivity | split; [ exact Hs | ] ].
      left. exact Hn.
  - destruct (is_error_status status) eqn:Hs.
    + cbn. split; [ left; reflexivity | discriminate ].
    + cbn. right. exists status, text. split; [ reflexivity | exact Hs ].
Qed.

(** ** Scorer: which records it scores, and how it fails *)

Lemma arithmetic_outcome_bind (r : result value) (k : value -> result value) :
  arithmetic_outcome r -> (forall v, arithmetic_outcome (k v)) ->
  arithmetic_outcome (bind r k).
Proof.
  destruct r as [v | e]; cbn [bind]; intros Hr Hk; [ apply Hk | exact Hr ].
Qed.

Lemma num_arith_arithmetic fz ff (a b : num) :
  arithmetic_outcome (num_arith fz ff a b).
Proof.
  destruct a as [x | x], b as [y | y]; cbn [num_arith num_to_float bind];
    unfold int_to_float;
    repeat match goal with
           | |- context [F64.is_inf ?f] => destruct (F64.is_inf f); cbn [bind]
           end;
    exact I.
Qed.

Lemma py_mul_arithmetic (a b : value) : arithmetic_outcome (py_mul a b).
Proof.
  unfold py_mul.
  destruct (as_num a) as [[x | x] | ], (as_num b) as [[y | y] | ];
    try apply num_arith_arithmetic; try exact I;
    match goal with
    | |- context [match ?v with VStr _ => _ | _ => _ end] => destruct v; exact I
    end.
Qed.

Lemma py_sub_arithmetic (a b : value) : arithmetic_outcome (py_sub a b).
Proof.
  unfold py_sub.
  destruct (as_num a) as [[x | x] | ], (as_num b) as [[y | y] | ];
    try apply num_arith_arithmetic; exact I.
Qed.

Lemma py_add_arithmetic (a b : value) : arithmetic_outcome (py_add a b).
Proof.
  unfold py_add.
  destruct (as_num a) as [[x | x] | ], (as_num b) as [[y | y] | ];
    try apply num_arith_arithmetic; destruct a, b; exact I.
Qed.

Lemma math_sin_arithmetic libm (v : value) : arithmetic_outcome (math_sin libm v).
Proof.
  unfold math_sin.
  destruct (as_num v) as [[z | f] | ]; [ | | exact I ];
    cbn [num_to_float]; unfold int_to_float; cbn [bind];
    repeat match goal with
           | |- context [if ?c then _ else _] => destruct c; cbn [bind]
           end;
    exact I.
Qed.

Lemma py_truediv_100_arithmetic (v : value) :
  arithmetic_outcome (py_truediv v c_100).
Proof.
  unfold py_truediv, c_100. cbn [as_num].
  destruct (as_num v) as [[z | f] | ]; [ | | exact I ].
  - change (Z.eqb 100 0) with false. cbv iota.
    destruct (F64.is_inf _); exact I.
  - cbn [num_to_float bind].
    change (int_to_float 100) with (Ok (S754_finite false 7036874417766400 (-46))).
    exact I.
Qed.

Lemma py_round2_arithmetic (v : value) : arithmetic_outcome (py_round2 v).
Proof.
  unfold py_round2.
  destruct (as_num v) as [[z | f] | ]; [ exact I | | exact I ].
  unfold float_round2.
  destruct f; cbn [bind]; try exact I.
  destruct (round_half_even _); cbn [bind]; try exact I;
    destruct (F64.is_inf _); exact I.
Qed.

Lemma calculate_score_never_raises (libm : spec_float -> spec_float)
    (entry : value) (e : exn) :
  calculate_score libm entry = Raise e ->
  e <> ZeroDivisionError /\ e <> AttributeError /\
  e <> UnicodeDecodeError /\ e <> RecursionError /\
  forall k, e = KeyError k ->
            k = "rating" \/ k = "distance_from_me" \/ k = "id".
Proof.
  unfold calculate_score.
  destruct entry as [ | | | | | | d]; cbn [py_getitem bind];
    try (intros [= <-]; repeat split; discriminate).
  destruct (dict_get d "rating") as [r | ]; cbn [bind];
    [ | intros [= <-]; repeat split; try discriminate;
        intros k [= <-]; auto ].
  destruct (dict_get d "distance_from_me") as [dist | ]; cbn [bind];
    [ | intros [= <-]; repeat split; try discriminate;
        intros k [= <-]; auto ].
  destruct (dict_get d "id") as [i | ]; cbn [bind];
    [ | intros [= <-]; repeat split; try discriminate;
        intros k [= <-]; auto ].
  intros H.
  assert (A : arithmetic_outcome (Raise e : result value)).
  { rewrite <- H.
    repeat (apply arithmetic_outcome_bind;
            [ first [ apply py_mul_arithmetic | apply py_sub_arithmetic
                    | apply py_add_arithmetic | apply math_sin_arithmetic
                    | apply py_truediv_100_arithmetic
                    | apply py_round2_arithmetic ]
            | intros ? ]).
    exact I. }
  destruct e; cbn in A; try contradiction; repeat split; discriminate.
Qed.

(** X1.  [calculate_score] raises nothing but a KeyError, a TypeError, an
    OverflowError or a ValueError; a KeyError names the first field, in
    the order [rating], [distance_from_me], [id], that the record lacks. *)
Theorem calculate_score_exceptions :
  forall libm entry e,
    calculate_score libm entry = Raise e ->
    (e = KeyError "rating" /\
     py_getitem entry "rating" = Raise (KeyError "rating")) \/
    (e = KeyError "distance_from_me" /\
     (exists r, py_getitem entry "rating" = Ok r) /\
     py_getitem entry "distance_from_me" = Raise (KeyError "distance_from_me")) \/
    (e = KeyError "id" /\
     (exists r, py_getitem entry "rating" = Ok r) /\
     (exists d, py_getitem entry "distance_from_me" = Ok d) /\
     py_getitem entry "id" = Raise (KeyError "id")) \/
    e = TypeError \/ e = OverflowError \/ e = ValueError.
Proof.
  intros libm entry e. unfold calculate_score.
  destruct entry as [ | | | | | | d]; cbn [py_getitem bind];
    try (intros [= <-]; auto 10).
  destruct (dict_get d "rating") as [r | ]; cbn [bind];
    [ | intros [= <-]; left; split; reflexivity ].
  destruct (dict_get d "distance_from_me") as [dist | ]; cbn [bind];
    [ | intros [= <-]; right; left; repeat split; eauto ].
  destruct (dict_get d "id") as [i | ]; cbn [bind];
    [ | intros [= <-]; right; right; left; repeat split; eauto ].
  intros H.
  assert (A : arithmetic_outcome (Raise e : result value)).
  { rewrite <- H.
    repeat (apply arithmetic_outcome_bind;
            [ first [ apply py_mul_arithmetic | apply py_sub_arithmetic
                    | apply py_add_arithmetic | apply math_sin_arithmetic
                    | apply py_truediv_100_arithmetic
                    | apply py_round2_arithmetic ]
            | intros ? ]).
    exact I. }
  destruct e; cbn in A; try contradiction; auto 10.
Qed.

Lemma calculate_score_exceptions_witness :
  (OverflowError = KeyError "rating" /\
   py_getitem (record "A" (VInt (10 ^ 400)) (VFloat (F64.dec 5 10))) "rating"
   = Raise (KeyError "rating")) \/
  (OverflowError = KeyError "distance_from_me" /\
   (exists r, py_getitem (record "A" (VInt (10 ^ 400)) (VFloat (F64.dec 5 10)))
                "rating" = Ok r) /\
   py_getitem (record "A" (VInt (10 ^ 400)) (VFloat (F64.dec 5 10)))
     "distance_from_me" = Raise (KeyError "distance_from_me")) \/
  (OverflowError = KeyError "id" /\
   (exists r, py_getitem (record "A" (VInt (10 ^ 400)) (VFloat (F64.dec 5 10)))
                "rating" = Ok r) /\
   (exists d, py_getitem (record "A" (VInt (10 ^ 400)) (VFloat (F64.dec 5 10)))
                "distance_from_me" = Ok d) /\
   py_getitem (record "A" (VInt (10 ^ 400)) (VFloat (F64.dec 5 10))) "id"
   = Raise (KeyError "id")) \/
  OverflowError = TypeError \/ OverflowError = OverflowError \/
  OverflowError = ValueError.
Proof.
  apply (@calculate_score_exceptions no_libm
           (record "A" (VInt (10 ^ 400)) (VFloat (F64.dec 5 10)))).
  vm_compute. reflexivity.
Defined.

Lemma py_sub_ok (a b v : value) :
  py_sub a b = Ok v -> as_num a <> None /\ as_num b <> None.
Proof.
  unfold py_sub.
  destruct (as_num a) as [x | ]; [ | discriminate ].
  destruct (as_num b) as [y | ]; [ | destruct x; discriminate ].
  intros _. split; discriminate.
Qed.

Lemma py_mul_float_ok (a v : value) (f : spec_float) :
  py_mul a (VFloat f) = Ok v -> as_num a <> None.
Proof.
  unfold py_mul. cbn [as_num].
  destruct (as_num a) as [x | ]; [ intros _; discriminate | discriminate ].
Qed.

Lemma py_mul_int_ok (a v : value) (n : Z) :
  py_mul a (VInt n) = Ok v -> as_num v <> None -> as_num a <> None.
Proof.
  unfold py_mul. cbn [as_num].
  destruct (as_num a) as [x | ]; [ intros _ _; discriminate | ].
  destruct a; try discriminate; intros [= <-] H; cbn in H; congruence.
Qed.

Lemma math_sin_ok libm (v r : value) :
  math_sin libm v = Ok r -> as_num v <> None.
Proof.
  unfold math_sin. destruct (as_num v); [ intros _ | ]; discriminate.
Qed.

Lemma py_round2_float (f : spec_float) (s : value) :
  py_round2 (VFloat f) = Ok s -> exists r, s = VFloat r.
Proof.
  unfold py_round2. cbn [as_num].
  destruct (float_round2 f) as [r | e]; cbn [bind]; [ | discriminate ].
  intros [= <-]. exists r. reflexivity.
Qed.

Ltac bind_inv H :=
  match type of H with
  | bind ?r _ = Ok _ =>
      let v := fresh "v" in
      let E := fresh "E" in
      destruct r as [v | ?] eqn:E; cbn [bind] in H; [ | discriminate H ]
  end.

(** X2.  A record is scored only if it is a dictionary whose [rating],
    [distance_from_me] and [id] are numbers (a boolean counts as one);
    the score is then a float. *)
Theorem calculate_score_scores_numbers :
  forall libm entry s,
    calculate_score libm entry = Ok s ->
    exists d rating distance id_ f,
      entry = VDict d /\
      dict_get d "rating" = Some rating /\ as_num rating <> None /\
      dict_get d "distance_from_me" = Some distance /\ as_num distance <> None /\
      dict_get d "id" = Some id_ /\ as_num id_ <> None /\
      s = VFloat f.
Proof.
  intros libm entry s H. unfold calculate_score in H.
  destruct entry as [ | | | | | | d]; cbn [py_getitem bind] in H;
    try discriminate.
  destruct (dict_get d "rating") as [r | ] eqn:Hr; cbn [bind] in H;
    [ | discriminate ].
  destruct (dict_get d "distance_from_me") as [dist | ] eqn:Hd; cbn [bind] in H;
    [ | discriminate ].
  destruct (dict_get d "id") as [i | ] eqn:Hi; cbn [bind] in H;
    [ | discriminate ].
  do 10 bind_inv H.
  injection H as <-.
  match goal with
  | E : py_sub _ _ = Ok _ |- _ => destruct (py_sub_ok _ _ E) as [N1 _]
  end.
  match goal with
  | E : py_truediv _ _ = Ok ?t |- _ =>
      destruct (py_truediv_float _ _ E) as [x ->]
  end.
  match goal with
  | E : py_round2 _ = Ok _ |- _ => destruct (py_round2_float _ E) as [f ->]
  end.
  exists d, r, dist, i, f. repeat split; try reflexivity; try assumption.
  - eapply py_mul_int_ok; [ eassumption | exact N1 ].
  - eapply py_mul_float_ok. eassumption.
  - eapply math_sin_ok. eassumption.
Qed.

Lemma calculate_score_scores_numbers_witness :
  exists d rating distance id_ f,
    record "A" (VBool true) (VFloat (F64.dec 176 100)) = VDict d /\
    dict_get d "rating" = Some rating /\ as_num rating <> None /\
    dict_get d "distance_from_me" = Some distance /\ as_num distance <> None /\
    dict_get d "id" = Some id_ /\ as_num id_ <> None /\
    VFloat (F64.dec 912 100) = VFloat f.
Proof.
  apply (@calculate_score_scores_numbers no_libm
           (record "A" (VBool true) (VFloat (F64.dec 176 100)))).
  vm_compute. reflexivity.
Defined.

(** ** What the loader hands to [main] *)

Lemma load_validated_data_only_prints w f :
  without_prints (fst (load_validated_data w f)) = [].
Proof.
  apply without_prints_quiet; apply load_validated_data_quiet; reflexivity.
Qed.




Lemma score_all_strings libm (entries : list value) :
  forallb is_str entries = true ->
  exists t, score_all libm entries = (t, Ok entries) /\ without_prints t = [].
Proof.
  induction entries as [ | x l IH]; cbn [forallb].
  - intros _. exists []. split; reflexivity.
  - intros H. apply andb_true_iff in H. destruct H as [Hx Hl].
    destruct x; try discriminate.
    destruct (IH Hl) as (t & Ht & Hq).
    cbn [score_all]. unfold score_entry.
    cbn [calculate_score py_getitem bind print emit iobind ret app].
    rewrite Ht. cbn [iobind ret app].
    eexists. split; [ reflexivity | ].
    rewrite app_nil_r. cbn [without_prints]. exact Hq.
Qed.

Lemma chars_strings (s : string) : forallb is_str (chars s) = true.
Proof. induction s as [ | c s IH]; [ reflexivity | exact IH ]. Qed.

Lemma keys_strings (d : list (string * value)) :
  forallb is_str (map (fun kv => VStr (fst kv)) d) = true.
Proof. induction d as [ | kv d IH]; [ reflexivity | exact IH ]. Qed.

Lemma rank_strings (x : value) (l : list value) :
  is_str x = true -> rank (x :: l) = Raise TypeError.
Proof. destruct x; try discriminate. intros _. reflexivity. Qed.

(** X9.  A JSON document whose payload counts as true and is not a list
    (a number, [true], a string, an object without the key [data])
    always ends the run with a TypeError, before anything is written or
    requested. *)
Theorem payload_not_a_list :
  forall libm w t data,
    load_validated_data w INPUT_FILE = (t, Ok data) ->
    truthy data = true ->
    (forall l, data <> VList l) ->
    exists t',
      main libm w = ((t ++ t')%list, Raise TypeError) /\
      without_prints t' = [].
Proof.
  intros libm w t data Hl Ht Hn.
  unfold main. rewrite Hl. cbn [iobind]. rewrite Ht. cbn [negb].
  assert (Hstr : forall entries,
             py_iter data = Ok entries -> entries <> [] ->
             forallb is_str entries = true ->
             exists t',
               (let (t'0, r) :=
                  entries <~ lift (py_iter data) ;;
                  scored <~ score_all libm entries ;;
                  top_10_results <~ lift (rank scored) ;;
                  output <~ lift (mapM project top_10_results) ;;
                  write_output_file w (VList output) OUTPUT_FILE ;;;
                  token <~ get_authorization_token w API_URL ;;
                  (if negb (truthy token)
                   then print "Failed to fetch authorization token. Exiting..." []
                   else submit_results w API_URL token (VList output))
                in ((t ++ t'0)%list, r))
               = ((t ++ t')%list, Raise TypeError) /\ without_prints t' = []).
  { intros entries Hi Hne Hs. rewrite Hi. unfold lift. cbn [iobind].
    destruct (score_all_strings libm _ Hs) as (t1 & H1 & Hq).
    rewrite H1. cbn [iobind].
    destruct entries as [ | x l]; [ congruence | ].
    cbn [forallb] in Hs. apply andb_true_iff in Hs. destruct Hs as [Hx _].
    rewrite (@rank_strings x l Hx). cbn [iobind app].
    exists t1. rewrite app_nil_r. split; [ reflexivity | exact Hq ]. }
  destruct data as [ | b | z | f | s | l | d].
  - discriminate.
  - exists []. split; reflexivity.
  - exists []. split; reflexivity.
  - exists []. split; reflexivity.
  - apply (Hstr (chars s) eq_refl); [ | apply chars_strings ].
    destruct s; [ discriminate | discriminate ].
  - exfalso. eapply Hn. reflexivity.
  - apply (Hstr _ eq_refl); [ | apply keys_strings ].
    destruct d; [ discriminate | discriminate ].
Qed.

Lemma payload_not_a_list_witness :
  exists t',
    main no_libm (world_of (VDict [("restaurants", VList [])]))
    = (([] ++ t')%list, Raise TypeError) /\
    without_prints t' = [].
Proof.
  apply (@payload_not_a_list no_libm
           (world_of (VDict [("restaurants", VList [])])) []
           (VDict [("restaurants", VList [])])).
  - reflexivity.
  - reflexivity.
  - discriminate.
Defined.

(** ** Exceptions that the scoring loop does not handle *)

Lemma score_entry_raises libm entry t e :
  score_entry libm entry = (t, Raise e) ->
  t = [] /\ calculate_score libm entry = Raise e /\
  (e = OverflowError \/ e = ValueError).
Proof.
  unfold score_entry.
  destruct (calculate_score libm entry) as [s | e0] eqn:Hs; cbn [bind].
  - destruct entry; cbn [py_setitem]; cbn; discriminate.
  - destruct (calculate_score_never_raises _ _ Hs) as (Hz & Ha & Hu & Hr & _).
    destruct e0; cbn; try discriminate; intros [= <- <-];
      (split; [ reflexivity | split; [ reflexivity | ] ]);
      try congruence; auto.
Qed.

Lemma score_all_uncaught libm (entries : list value) (x : value) (e : exn) :
  In x entries -> calculate_score libm x = Raise e ->
  e = OverflowError \/ e = ValueError ->
  exists t e',
    score_all libm entries = (t, Raise e') /\
    (e' = OverflowError \/ e' = ValueError) /\
    without_prints t = [].
Proof.
  intros Hin Hx He.
  induction entries as [ | y l IH]; [ contradiction | ].
  cbn [score_all].
  pose proof (score_entry_quiet is_write (fun _ _ => eq_refl) libm y) as Qw.
  pose proof (score_entry_quiet is_get (fun _ _ => eq_refl) libm y) as Qg.
  pose proof (score_entry_quiet is_post (fun _ _ => eq_refl) libm y) as Qp.
  destruct (score_entry libm y) as [t1 [y' | e1]] eqn:Hy; cbn [iobind fst] in *.
  - destruct Hin as [-> | Hin].
    + exfalso. unfold score_entry in Hy. rewrite Hx in Hy. cbn [bind] in Hy.
      destruct He as [-> | ->]; discriminate.
    + destruct (IH Hin) as (t & e' & Hs & He' & Hq).
      rewrite Hs. cbn [iobind]. exists (t1 ++ t)%list, e'.
      repeat split; try assumption.
      rewrite without_prints_app, Hq, app_nil_r.
      apply without_prints_quiet; assumption.
  - destruct (score_entry_raises _ _ Hy) as (-> & _ & He1).
    exists [], e1. repeat split; assumption.
Qed.

(** X10.  Only KeyError and TypeError are skipped in the scoring loop.
    One record on which the scorer raises an OverflowError (an integer too
    large for a float) or a ValueError (the sine of an infinity) ends the
    whole run with such an exception, before anything is written or
    requested. *)
Theorem unhandled_score_error_aborts_run :
  forall libm w t0 entries x e,
    load_validated_data w INPUT_FILE = (t0, Ok (VList entries)) ->
    In x entries ->
    calculate_score libm x = Raise e ->
    e = OverflowError \/ e = ValueError ->
    exists t e',
      main libm w = (t, Raise e') /\
      (e' = OverflowError \/ e' = ValueError) /\
      without_prints t = [].
Proof.
  intros libm w t0 entries x e Hl Hin Hx He.
  destruct (score_all_uncaught libm _ _ Hin Hx He) as (t & e' & Hs & He' & Hq).
  unfold main. rewrite Hl. cbn [iobind].
  assert (Ht : truthy (VList entries) = true)
    by (destruct entries; [ contradiction | reflexivity ]).
  rewrite Ht. cbn [negb py_iter lift iobind]. rewrite Hs. cbn [iobind app].
  exists (t0 ++ t)%list, e'. repeat split; try assumption.
  rewrite without_prints_app, Hq, app_nil_r.
  pose proof (load_validated_data_only_prints w INPUT_FILE) as H0.
  rewrite Hl in H0. exact H0.
Qed.

Lemma unhandled_score_error_aborts_run_witness :
  exists t e',
    main no_libm
      (world_of (VList [record "A" (VInt 4) (VInt 2);
                        record "B" (VInt 4) (VInt (10 ^ 400))]))
    = (t, Raise e') /\
    (e' = OverflowError \/ e' = ValueError) /\
    without_prints t = [].
Proof.
  apply (@unhandled_score_error_aborts_run no_libm
           (world_of (VList [record "A" (VInt 4) (VInt 2);
                             record "B" (VInt 4) (VInt (10 ^ 400))]))
           []
           [record "A" (VInt 4) (VInt 2); record "B" (VInt 4) (VInt (10 ^ 400))]
           (record "B" (VInt 4) (VInt (10 ^ 400))) OverflowError).
  - reflexivity.
  - right. left. reflexivity.
  - vm_compute. reflexivity.
  - left. reflexivity.
Defined.

(** ** More on the ranker *)

(** The reading of the comparison on records, the other way round. *)
Lemma ranks_akey_compare (a b : scored) :
  score a <> ENaN -> rating a <> ENaN -> distance_from_me a <> ENaN ->
  score b <> ENaN -> rating b <> ENaN -> distance_from_me b <> ENaN ->
  ranks_before a b \/ tied a b ->
  akey_compare (akey_of a) (akey_of b) <> Gt.
Proof.
  intros Sa Ra Da Sb Rb Db.
  unfold akey_of, akey_compare, ranks_before, tied, ext_lt, ext_eq, str_lt.
  rewrite !ext_compare_opp by assumption.
  rewrite (ext_ltb_compare Sb Sa), (ext_eqb_compare Sa Sb).
  rewrite (ext_ltb_compare Rb Ra), (ext_eqb_compare Ra Rb).
  rewrite (ext_ltb_compare Da Db), (ext_eqb_compare Da Db).
  unfold String.ltb.
  rewrite (cmp_antisym ext_compare_order (score b) (score a)).
  rewrite (cmp_antisym ext_compare_order (rating b) (rating a)).
  intros [H | (H1 & H2 & H3 & H4)].
  - destruct (ext_compare (score b) (score a)),
             (ext_compare (rating b) (rating a)),
             (ext_compare (distance_from_me a) (distance_from_me b)),
             (String.compare (restaurant_name a) (restaurant_name b));
      cbn [CompOpp lex] in *; try discriminate;
      intuition discriminate.
  - rewrite H4, (cmp_refl string_compare_order).
    destruct (ext_compare (score b) (score a)),
             (ext_compare (rating b) (rating a)),
             (ext_compare (distance_from_me a) (distance_from_me b));
      cbn [CompOpp lex] in *; discriminate.
Qed.

Lemma in_rank_order_tie (x y : value) :
  in_rank_order x y -> in_rank_order y x -> ties_with x y = true.
Proof.
  intros (a & b & Ha & Hb & Hab) (b' & a' & Hb' & Ha' & Hba).
  rewrite Hb in Hb'. injection Hb' as <-.
  rewrite Ha in Ha'. injection Ha' as <-.
  destruct (scored_fields_not_nan _ Ha) as (Sa & Ra & Da).
  destruct (scored_fields_not_nan _ Hb) as (Sb & Rb & Db).
  pose proof (ranks_akey_compare Sa Ra Da Sb Rb Db Hab) as H1.
  pose proof (ranks_akey_compare Sb Rb Db Sa Ra Da Hba) as H2.
  unfold ties_with. rewrite Ha, Hb.
  destruct (@akey_compare_ranks a b Sa Ra Da Sb Rb Db) as [_ ->].
  rewrite (cmp_antisym akey_compare_order (akey_of a) (akey_of b)) in H2.
  destruct (akey_compare (akey_of a) (akey_of b)); cbn in *; congruence.
Qed.

(** Two sorted rearrangements of the same items are the same list when
    no two different items are equivalent. *)
Lemma sorted_unique (X : Type) (R : X -> X -> Prop) (l : list X) :
  forall l',
    Permutation l l' -> StronglySorted R l -> StronglySorted R l' ->
    (forall a b, In a l -> In b l -> R a b -> R b a -> a = b) ->
    l = l'.
Proof.
  induction l as [ | a l IH]; intros l' Hp Hs Hs' Hanti.
  - apply Permutation_nil in Hp. congruence.
  - destruct l' as [ | b l'];
      [ apply Permutation_sym, Permutation_nil in Hp; discriminate | ].
    apply StronglySorted_inv in Hs. destruct Hs as [Hs Ha].
    apply StronglySorted_inv in Hs'. destruct Hs' as [Hs' Hb].
    rewrite Forall_forall in Ha, Hb.
    assert (Hab : a = b).
    { assert (Hina : In a (b :: l'))
        by (eapply Permutation_in; [ exact Hp | left; reflexivity ]).
      assert (Hinb : In b (a :: l))
        by (eapply Permutation_in;
            [ apply Permutation_sym; exact Hp | left; reflexivity ]).
      destruct Hina as [-> | Hina]; [ reflexivity | ].
      destruct Hinb as [-> | Hinb]; [ reflexivity | ].
      apply Hanti; [ left; reflexivity | right; exact Hinb | | ].
      - apply Ha, Hinb.
      - apply Hb, Hina. }
    subst b. f_equal.
    apply IH; try assumption.
    + eapply Permutation_cons_inv. exact Hp.
    + intros x y Hx Hy. apply Hanti; right; assumption.
Qed.

(** X11.  When no two different records tie on all four keys, the ranked
    output does not depend on the order of the records in the input. *)
Theorem rank_input_order_irrelevant :
  forall rs rs',
    Forall (fun x => is_scored x = true) rs ->
    Permutation rs rs' ->
    (forall x y, In x rs -> In y rs -> ties_with x y = true -> x = y) ->
    rank rs' = rank rs.
Proof.
  intros rs rs' Hrs Hp Hties.
  assert (Hrs' : Forall (fun x => is_scored x = true) rs')
    by (eapply Permutation_Forall; eassumption).
  destruct (sorted_scored Hrs) as (s & Hs & Hps & Hss & _).
  destruct (sorted_scored Hrs') as (s' & Hs' & Hps' & Hss' & _).
  unfold rank. rewrite Hs, Hs'. cbn [bind]. do 2 f_equal.
  symmetry. apply (sorted_unique (R := in_rank_order)); try assumption.
  - rewrite Hps, Hps'. exact Hp.
  - intros x y Hx Hy Hxy Hyx. apply Hties.
    + eapply Permutation_in; eassumption.
    + eapply Permutation_in; eassumption.
    + apply in_rank_order_tie; assumption.
Qed.

Lemma rotate_permutation (A : Type) (l : list A) : Permutation l (rotate l).
Proof.
  destruct l as [ | a r]; [ constructor | apply Permutation_cons_append ].
Qed.

Lemma three_scored_are_scored :
  Forall (fun x => is_scored x = true) three_scored.
Proof.
  apply Forall_forall. intros x Hx.
  assert (H : forallb is_scored three_scored = true)
    by (vm_compute; reflexivity).
  rewrite forallb_forall in H. apply H, Hx.
Qed.

Lemma three_scored_without_ties :
  forall x y, In x three_scored -> In y three_scored ->
              ties_with x y = true -> x = y.
Proof.
  intros x y Hx Hy.
  vm_compute in Hx, Hy.
  destruct Hx as [<- | [<- | [<- | []]]];
    destruct Hy as [<- | [<- | [<- | []]]];
    intros H; try reflexivity; vm_compute in H; discriminate H.
Qed.

Lemma rank_input_order_irrelevant_witness :
  rank (rotate three_scored) = rank three_scored.
Proof.
  exact (@rank_input_order_irrelevant three_scored (rotate three_scored)
           three_scored_are_scored (rotate_permutation three_scored)
           three_scored_without_ties).
Defined.

(** ** Ranking what is already ranked *)

Lemma StronglySorted_of_map (X Y : Type) (R : X -> X -> Prop)
    (R2 : Y -> Y -> Prop) (f : X -> Y) (P : X -> Prop) (s : list X) :
  (forall p q, P p -> P q -> R2 (f p) (f q) -> R p q) ->
  Forall P s -> StronglySorted R2 (map f s) -> StronglySorted R s.
Proof.
  intros HR. induction s as [ | p s IH]; intros HP Hs; [ constructor | ].
  apply Forall_cons_iff in HP. destruct HP as [Pp Ps].
  cbn [map] in Hs. apply StronglySorted_inv in Hs. destruct Hs as [Hs Hp].
  constructor; [ apply IH; assumption | ].
  rewrite Forall_forall in Hp, Ps |- *.
  intros q Hq. apply HR; auto. apply Hp, in_map, Hq.
Qed.

Lemma keys_of_scored (rs : list value) :
  Forall (fun x => is_scored x = true) rs ->
  exists keys,
    mapM sort_key rs = Ok keys /\
    Forall keyed (combine keys rs) /\
    map snd (combine keys rs) = rs.
Proof.
  intros Hrs.
  assert (Hv : Forall (fun x => exists a, scored_view x = Some a) rs).
  { eapply Forall_impl; [ | exact Hrs ]. intros x Hx. unfold is_scored in Hx.
    destruct (scored_view x) as [a | ]; [ exists a; reflexivity | discriminate ]. }
  assert (Hk : Forall (fun x => exists k, sort_key x = Ok k) rs).
  { eapply Forall_impl; [ | exact Hv ]. intros x [a Ha].
    destruct (sort_key_scored _ Ha) as (k & Hk & _). exists k. exact Hk. }
  destruct (mapM_Forall2 _ Hk) as (keys & Hkeys & HF).
  destruct (combine_Forall2 HF) as [Hinv Hsnd].
  exists keys. repeat split; try assumption.
  rewrite Forall_forall in Hinv, Hv |- *. intros p Hp.
  assert (Hin : In (snd p) rs) by (rewrite <- Hsnd; apply in_map, Hp).
  destruct (Hv _ Hin) as [a Ha].
  destruct (sort_key_scored _ Ha) as (k & Hk2 & Kv).
  exists a. split; [ exact Ha | ].
  rewrite (Hinv p Hp) in Hk2. injection Hk2 as <-. exact Kv.
Qed.

Lemma keyed_le_conv (p q : list value * value) :
  keyed p -> keyed q ->
  in_rank_order (snd p) (snd q) ->
  le_view (fun p => key_view (fst p)) akey_compare p q.
Proof.
  intros (a & Ha & Ka) (b & Hb & Kb) (a2 & b2 & Ha2 & Hb2 & Hab).
  rewrite Ha in Ha2. injection Ha2 as <-.
  rewrite Hb in Hb2. injection Hb2 as <-.
  exists (akey_of a), (akey_of b). repeat split; try assumption.
  destruct (scored_fields_not_nan _ Ha) as (Sa & Ra & Da).
  destruct (scored_fields_not_nan _ Hb) as (Sb & Rb & Db).
  apply ranks_akey_compare; assumption.
Qed.

Lemma sorted_of_sorted (rs : list value) :
  Forall (fun x => is_scored x = true) rs ->
  StronglySorted in_rank_order rs ->
  sorted sort_key rs = Ok rs.
Proof.
  intros Hrs Hs.
  destruct (keys_of_scored Hrs) as (keys & Hkeys & Hkeyed & Hsnd).
  set (view := fun p : list value * value => key_view (fst p)).
  set (lt := fun a b : list value * value => tuple_lt (fst a) (fst b)).
  assert (Hlt : forall a b x y, view a = Some x -> view b = Some y ->
                  lt a b = Ok (match akey_compare x y with Lt => true | _ => false end))
    by (intros a b x y Ha Hb; apply tuple_lt_view; assumption).
  assert (Hviewed : Forall (viewed view) (combine keys rs)).
  { eapply Forall_impl; [ | exact Hkeyed ]. intros p (a & _ & Ka).
    exists (akey_of a). exact Ka. }
  assert (Hss : StronglySorted (le_view view akey_compare) (combine keys rs)).
  { eapply StronglySorted_of_map
      with (R2 := in_rank_order) (f := snd) (P := keyed);
      [ | exact Hkeyed | rewrite Hsnd; exact Hs ].
    intros p q. apply keyed_le_conv. }
  unfold sorted. rewrite Hkeys. cbn [bind]. fold lt.
  rewrite (@list_sort_sorted_input _ _ lt view akey_compare akey_compare_order
             Hlt _ Hviewed Hss).
  cbn [bind]. rewrite Hsnd. reflexivity.
Qed.

Lemma in_firstn (X : Type) (n : nat) (l : list X) (x : X) :
  In x (firstn n l) -> In x l.
Proof.
  intros H. rewrite <- (firstn_skipn n l). apply in_or_app. left. exact H.
Qed.

Lemma StronglySorted_firstn (X : Type) (R : X -> X -> Prop) (n : nat) :
  forall l, StronglySorted R l -> StronglySorted R (firstn n l).
Proof.
  induction n as [ | n IH]; intros l Hs; [ constructor | ].
  destruct l as [ | x l]; [ constructor | ].
  apply StronglySorted_inv in Hs. destruct Hs as [Hs Hx].
  cbn [firstn]. constructor; [ apply IH, Hs | ].
  rewrite Forall_forall in Hx |- *. intros y Hy. apply Hx.
  eapply in_firstn. exact Hy.
Qed.

(** X12.  Ranking is idempotent: the ranked output of scored records,
    ranked again, is itself. *)
Theorem rank_idempotent :
  forall rs top,
    Forall (fun x => is_scored x = true) rs ->
    rank rs = Ok top ->
    rank top = Ok top.
Proof.
  intros rs top Hrs Hr.
  destruct (sorted_scored Hrs) as (s & Hs & Hp & Hss & _).
  unfold rank in Hr. rewrite Hs in Hr. cbn [bind] in Hr.
  assert (Htop : top = firstn 10 s) by congruence. clear Hr.
  assert (Hscored : Forall (fun x => is_scored x = true) top).
  { subst top. rewrite Forall_forall in Hrs |- *. intros x Hx.
    apply Hrs. eapply Permutation_in; [ exact Hp | ].
    eapply in_firstn. exact Hx. }
  assert (Hsorted : StronglySorted in_rank_order top)
    by (subst top; apply StronglySorted_firstn, Hss).
  unfold rank. rewrite (sorted_of_sorted Hscored Hsorted). cbn [bind].
  f_equal. apply firstn_all2. subst top. apply firstn_le_length.
Qed.

Lemma rank_idempotent_witness :
  rank (firstn 10 (match sorted sort_key twelve_scored with
                   | Ok s => s
                   | Raise _ => []
                   end))
  = Ok (firstn 10 (match sorted sort_key twelve_scored with
                   | Ok s => s
                   | Raise _ => []
                   end)).
Proof.
  apply (@rank_idempotent twelve_scored _ twelve_scored_are_scored).
  vm_compute. reflexivity.
Defined.

(** ** The whole run on records that the pipeline accepts *)

Lemma project_scored_view (x o : value) :
  project x = Ok o -> scored_view o = scored_view x.
Proof.
  intros H.
  destruct (project_copies _ H) as (i & n & r & d & s & Hi & Hn & Hr & Hd & Hs & ->).
  unfold scored_view. rewrite Hs, Hr, Hd, Hn. reflexivity.
Qed.

Lemma rankable_scored libm (x : value) :
  rankable libm x = true ->
  exists x',
    score_entry libm x = ([], Ok x') /\
    is_scored x' = true /\
    project x' = Ok (result_of libm x).
Proof.
  unfold rankable. intros H.
  destruct x as [ | | | | | | d]; try discriminate.
  destruct (calculate_score libm (VDict d)) as [s | e] eqn:Hs; [ | discriminate ].
  apply andb_true_iff in H. destruct H as [Ns H].
  destruct (dict_get d "rating") as [r | ] eqn:Hr; [ | discriminate ].
  destruct (dict_get d "distance_from_me") as [dist | ] eqn:Hd; [ | discriminate ].
  destruct (dict_get d "restaurant_name") as [n | ] eqn:Hn; [ | discriminate ].
  destruct n as [ | | | | name | | ]; try discriminate.
  apply andb_true_iff in H. destruct H as [Nr Nd].
  assert (Hid : exists i, dict_get d "id" = Some i).
  { unfold calculate_score in Hs. cbn [py_getitem] in Hs.
    rewrite Hr, Hd in Hs. cbn [bind] in Hs.
    destruct (dict_get d "id") as [i | ]; [ exists i; reflexivity | discriminate ]. }
  destruct Hid as [i Hi].
  destruct (@score_entry_is_scored libm d s r dist name Hs Ns Hr Nr Hd Nd Hn)
    as [He Hsc].
  exists (VDict (dict_set d "score" s)). repeat split; try assumption.
  unfold project, result_of. rewrite Hs. cbn [py_getitem].
  rewrite dict_get_set_same.
  rewrite !dict_get_set_other by discriminate.
  rewrite Hi, Hn, Hr, Hd. reflexivity.
Qed.

Lemma score_all_rankable libm (entries : list value) :
  Forall (fun x => rankable libm x = true) entries ->
  exists scored,
    score_all libm entries = ([], Ok scored) /\
    Forall (fun x' => is_scored x' = true) scored /\
    mapM project scored = Ok (map (result_of libm) entries).
Proof.
  induction entries as [ | x l IH]; intros H.
  - exists []. repeat split. constructor.
  - apply Forall_cons_iff in H. destruct H as [Hx Hl].
    destruct (rankable_scored _ _ Hx) as (x' & He & Hs & Hp).
    destruct (IH Hl) as (scored & Ha & Hsc & Hm).
    exists (x' :: scored). cbn [score_all]. rewrite He. cbn [iobind].
    rewrite Ha. cbn [iobind ret app]. repeat split.
    + constructor; assumption.
    + cbn [mapM map]. rewrite Hp, Hm. reflexivity.
Qed.

Lemma mapM_map (X Y : Type) (f : X -> result Y) (g : X -> Y) (l : list X) :
  Forall (fun x => f x = Ok (g x)) l -> mapM f l = Ok (map g l).
Proof.
  induction 1 as [ | x l Hx _ IH]; cbn [mapM map]; [ reflexivity | ].
  rewrite Hx, IH. reflexivity.
Qed.

Lemma mapM_inv (X Y : Type) (f : X -> result Y) (l : list X) :
  forall ys, mapM f l = Ok ys -> Forall2 (fun x y => f x = Ok y) l ys.
Proof.
  induction l as [ | x l IH]; intros ys; cbn [mapM].
  - intros [= <-]. constructor.
  - destruct (f x) as [y | e] eqn:Hy; cbn [bind]; [ | discriminate ].
    destruct (mapM f l) as [ys' | e]; cbn [bind]; [ | discriminate ].
    intros [= <-]. constructor; [ exact Hy | apply IH; reflexivity ].
Qed.

(** X13.  When the input is a non-empty list of records that the scorer
    scores with numbers and that have number ratings and distances and
    string names, the run reaches the file write: its output is the first
    ten of a rearrangement, in ranking order, of the Result Records of
    the input, each made of the record's own [id], name, rating and
    distance and its computed score. *)
Theorem main_ranks_rankable_records :
  forall libm w t0 entries,
    load_validated_data w INPUT_FILE = (t0, Ok (VList entries)) ->
    entries <> [] ->
    Forall (fun x => rankable libm x = true) entries ->
    exists sorted_data,
      Permutation sorted_data (map (result_of libm) entries) /\
      StronglySorted in_rank_order sorted_data /\
      snd (main libm w)
      = (token <- snd (get_authorization_token w API_URL) ;; Ok tt) /\
      without_prints (fst (main libm w))
      = operations_for w (VList (firstn 10 sorted_data)).
Proof.
  intros libm w t0 entries Hl Hne Hr.
  destruct (@score_all_rankable libm entries Hr) as (scored & Ha & Hsc & Hm).
  destruct (sorted_scored Hsc) as (s & Hs & Hp & Hss & _).
  pose proof (mapM_inv _ _ Hm) as HF.
  set (projected := fun x' => match project x' with Ok o => o | Raise _ => VNone end).
  assert (Hproj : Forall (fun x' => project x' = Ok (projected x')) scored).
  { clear - HF. induction HF as [ | x' o l os Ho _ IH]; constructor; [ | exact IH ].
    unfold projected. rewrite Ho. reflexivity. }
  assert (Hproj_s : Forall (fun x' => project x' = Ok (projected x')) s)
    by (eapply Permutation_Forall; [ symmetry; exact Hp | exact Hproj ]).
  assert (Hmap : map projected scored = map (result_of libm) entries).
  { rewrite (mapM_map _ _ Hproj) in Hm. congruence. }
  exists (map projected s). split; [ | split ].
  - rewrite <- Hmap. apply Permutation_map, Hp.
  - eapply StronglySorted_map
      with (R := in_rank_order) (P := fun x' => project x' = Ok (projected x'));
      [ | exact Hproj_s | exact Hss ].
    intros p q Hp' Hq' (a & b & Ha' & Hb' & Hab).
    exists a, b.
    rewrite (project_scored_view _ Hp'), (project_scored_view _ Hq').
    repeat split; assumption.
  - assert (Hprep : prepare libm w
                    = (t0, Ok (Some (VList (firstn 10 (map projected s)))))).
    { unfold prepare. rewrite Hl. cbn [iobind].
      assert (Ht : truthy (VList entries) = true)
        by (destruct entries; [ congruence | reflexivity ]).
      rewrite Ht. cbn [negb py_iter lift iobind]. rewrite Ha. cbn [iobind].
      unfold rank. rewrite Hs. cbn [bind iobind].
      assert (Hout : mapM project (firstn 10 s)
                     = Ok (firstn 10 (map projected s))).
      { rewrite firstn_map. apply mapM_map.
        rewrite Forall_forall in Hproj_s |- *. intros x Hx.
        apply Hproj_s. eapply in_firstn. exact Hx. }
      rewrite Hout. cbn [iobind ret app]. rewrite app_nil_r. reflexivity. }
    rewrite main_split, iobind_snd, iobind_fst, Hprep. cbn [fst snd].
    destruct (deliver_operations w (VList (firstn 10 (map projected s))))
      as [Ds Dt].
    split; [ exact Ds | ].
    rewrite without_prints_app, Dt.
    pose proof (load_validated_data_only_prints w INPUT_FILE) as H0.
    rewrite Hl in H0. cbn [fst] in H0. rewrite H0. reflexivity.
Qed.

Lemma main_ranks_rankable_records_witness :
  exists sorted_data,
    Permutation sorted_data (map (result_of no_libm) twelve_records) /\
    StronglySorted in_rank_order sorted_data /\
    snd (main no_libm (world_of (VList twelve_records)))
    = (token <- snd (get_authorization_token
                       (world_of (VList twelve_records)) API_URL) ;; Ok tt) /\
    without_prints (fst (main no_libm (world_of (VList twelve_records))))
    = operations_for (world_of (VList twelve_records))
        (VList (firstn 10 sorted_data)).
Proof.
  apply (@main_ranks_rankable_records no_libm
           (world_of (VList twelve_records)) [] twelve_records).
  - reflexivity.
  - discriminate.
  - apply Forall_forall. intros x Hx.
    assert (H : forallb (rankable no_libm) twelve_records = true)
      by (vm_compute; reflexivity).
    rewrite forallb_forall in H. apply H, Hx.
Defined.

(** ** Fields that the sort needs *)

Lemma sort_key_needs_field (x : value) (k : string) (e : exn) :
  k = "rating" \/ k = "distance_from_me" \/ k = "restaurant_name" ->
  py_getitem x k = Raise e -> exists e2, sort_key x = Raise e2.
Proof.
  intros Hk Hr. unfold sort_key.
  destruct (py_getitem x "score") as [s | e0]; cbn [bind];
    [ | eexists; reflexivity ].
  destruct (py_neg s) as [k1 | e0]; cbn [bind]; [ | eexists; reflexivity ].
  destruct (py_getitem x "rating") as [r | e0] eqn:Er; cbn [bind];
    [ | eexists; reflexivity ].
  destruct (py_neg r) as [k2 | e0]; cbn [bind]; [ | eexists; reflexivity ].
  destruct (py_getitem x "distance_from_me") as [d | e0] eqn:Ed; cbn [bind];
    [ | eexists; reflexivity ].
  destruct (py_getitem x "restaurant_name") as [n | e0] eqn:En; cbn [bind];
    [ | eexists; reflexivity ].
  destruct Hk as [-> | [-> | ->]]; congruence.
Qed.

(** X14.  The sort asks every entry of the list for its [rating],
    [distance_from_me] and [restaurant_name], whether the scoring loop
    scored the entry or skipped it: one entry without one of these fields
    ends the run in an exception, with nothing written and nothing
    requested. *)
Theorem entry_without_sort_field_aborts_run :
  forall libm w t0 entries x k e,
    load_validated_data w INPUT_FILE = (t0, Ok (VList entries)) ->
    In x entries ->
    k = "rating" \/ k = "distance_from_me" \/ k = "restaurant_name" ->
    py_getitem x k = Raise e ->
    exists t e2,
      main libm w = (t, Raise e2) /\ without_prints t = [].
Proof.
  intros libm w t0 entries x k e Hl Hin Hk Hr.
  pose proof (prepare_only_prints libm w) as Hq.
  assert (Hp : exists t e2, prepare libm w = (t, Raise e2)).
  { unfold prepare. rewrite Hl. cbn [iobind].
    assert (Ht : truthy (VList entries) = true)
      by (destruct entries; [ contradiction | reflexivity ]).
    rewrite Ht. cbn [negb py_iter lift iobind].
    destruct (score_all libm entries) as [t [scored | e0]] eqn:Hs;
      cbn [iobind]; [ | eexists; eexists; reflexivity ].
    destruct (Forall2_In_l x (score_all_frame _ _ Hs) Hin)
      as (x2 & Hin2 & [Hf _]).
    assert (Hr2 : py_getitem x2 k = Raise e).
    { rewrite Hf; [ exact Hr | ].
      destruct Hk as [-> | [-> | ->]]; discriminate. }
    destruct (sort_key_needs_field _ Hk Hr2) as [e1 He1].
    destruct (mapM_raises sort_key _ _ Hin2 He1) as [e2 He2].
    unfold rank, sorted. rewrite He2. cbn [bind iobind].
    eexists; eexists; reflexivity. }
  destruct Hp as (t & e2 & Hp).
  rewrite main_split, Hp. rewrite Hp in Hq. cbn [iobind fst] in *.
  exists t, e2. split; [ reflexivity | exact Hq ].
Qed.

Lemma entry_without_sort_field_aborts_run_witness :
  exists t e2,
    main no_libm
      (world_of (VList [record "A" (VInt 4) (VInt 2);
                        VDict [("id", VInt 0); ("rating", VInt 4);
                               ("distance_from_me", VInt 2)]]))
    = (t, Raise e2) /\
    without_prints t = [].
Proof.
  apply (@entry_without_sort_field_aborts_run no_libm
           (world_of (VList [record "A" (VInt 4) (VInt 2);
                             VDict [("id", VInt 0); ("rating", VInt 4);
                                    ("distance_from_me", VInt 2)]]))
           []
           [record "A" (VInt 4) (VInt 2);
            VDict [("id", VInt 0); ("rating", VInt 4);
                   ("distance_from_me", VInt 2)]]
           (VDict [("id", VInt 0); ("rating", VInt 4);
                   ("distance_from_me", VInt 2)])
           "restaurant_name" (KeyError "restaurant_name")).
  - reflexivity.
  - right. left. reflexivity.
  - right. right. reflexivity.
  - reflexivity.
Defined.

(** ** A token reply that is not an object *)

(** X15.  When a run has got as far as the token request and the reply,
    with a status that is not an error, has a JSON body that is not an
    object, the run ends with an AttributeError, which nothing handles,
    and submits nothing. *)
Theorem reply_not_an_object_aborts_run :
  forall libm w status body text,
    register_reply w = Response status (Some body) text ->
    is_error_status status = false ->
    (forall d, body <> VDict d) ->
    existsb is_get (fst (main libm w)) = true ->
    snd (main libm w) = Raise AttributeError /\
    existsb is_post (fst (main libm w)) = false.
Proof.
  intros libm w status body text Hreply Hstatus Hbody Hget.
  assert (Htok : snd (get_authorization_token w API_URL) = Raise AttributeError).
  { unfold get_authorization_token. rewrite Hreply, Hstatus.
    destruct body; try reflexivity. exfalso. eapply Hbody. reflexivity. }
  assert (Hnone : forall t, without_prints t = [] -> existsb is_get t = false).
  { induction t as [ | ev t IH]; [ reflexivity | ].
    destruct ev; cbn [without_prints existsb is_get orb]; try discriminate.
    exact IH. }
  assert (Hpost : forall t, existsb is_post t = existsb is_post (without_prints t)).
  { induction t as [ | ev t IH]; [ reflexivity | ].
    destruct ev; cbn [without_prints existsb is_post orb]; try rewrite IH;
      reflexivity. }
  rewrite main_split, iobind_fst, existsb_app in Hget.
  rewrite main_split, iobind_fst, iobind_snd, existsb_app.
  rewrite (Hnone _ (prepare_only_prints libm w)) in Hget.
  rewrite (Hpost (fst (prepare libm w))), (prepare_only_prints libm w).
  cbn [orb existsb] in *.
  destruct (snd (prepare libm w)) as [[v | ] | e]; try discriminate.
  destruct (deliver_operations w v) as [Hs Ht].
  rewrite Hs, Htok. split; [ reflexivity | ].
  rewrite Hpost, Ht. unfold operations_for. rewrite Htok.
  destruct (output_writable w); reflexivity.
Qed.

Lemma reply_not_an_object_aborts_run_witness :
  snd (main no_libm
         (World (Parsed (VList [record "A" (VInt 4) (VInt 2)])) true
            (Response 200 (Some (VList [])) "[]") RequestException))
  = Raise AttributeError /\
  existsb is_post
    (fst (main no_libm
            (World (Parsed (VList [record "A" (VInt 4) (VInt 2)])) true
               (Response 200 (Some (VList [])) "[]") RequestException)))
  = false.
Proof.
  apply (@reply_not_an_object_aborts_run no_libm
           (World (Parsed (VList [record "A" (VInt 4) (VInt 2)])) true
              (Response 200 (Some (VList [])) "[]") RequestException)
           200 (VList []) "[]").
  - reflexivity.
  - reflexivity.
  - discriminate.
  - vm_compute. reflexivity.
Defined.

(** ** Envelopes *)

(** X4.  An object with the key [data] stands for what is under that
    key, whatever else the object holds; the program does not look into a
    second envelope. *)
Theorem envelope_other_keys_ignored :
  forall libm d v writable reg chk,
    dict_get d "data" = Some v ->
    (forall d2, v = VDict d2 -> dict_get d2 "data" = None) ->
    main libm (World (Parsed (VDict d)) writable reg chk)
    = main libm (World (Parsed v) writable reg chk).
Proof.
  intros libm d v writable reg chk Hd Hv.
  assert (Hload : load_validated_data (World (Parsed (VDict d)) writable reg chk)
                    INPUT_FILE
                  = load_validated_data (World (Parsed v) writable reg chk)
                      INPUT_FILE).
  { unfold load_validated_data. cbn [input_source]. rewrite Hd.
    destruct v; try reflexivity.
    rewrite (Hv _ eq_refl). reflexivity. }
  unfold main. rewrite Hload. reflexivity.
Qed.

Lemma envelope_other_keys_ignored_witness :
  main no_libm
    (World (Parsed (VDict [("count", VInt 1);
                           ("data", VList [record "A" (VInt 4) (VInt 2)])]))
       true token_reply RequestException)
  = main no_libm
      (World (Parsed (VList [record "A" (VInt 4) (VInt 2)]))
         true token_reply RequestException).
Proof.
  apply (@envelope_other_keys_ignored no_libm
           [("count", VInt 1); ("data", VList [record "A" (VInt 4) (VInt 2)])]
           (VList [record "A" (VInt 4) (VInt 2)])).
  - reflexivity.
  - discriminate.
Defined.

(** ** Failures of the load that the loader does not handle *)

(** X16.  An exception of [open] or [json.load] other than the two that
    the loader names leaves the loader as it is, and ends the run with it
    before anything is printed, written or requested. *)
Theorem unhandled_load_error_aborts_run :
  forall libm w e,
    input_source w = LoadError e ->
    load_validated_data w INPUT_FILE = ([], Raise e) /\
    main libm w = ([], Raise e).
Proof.
  intros libm w e H. unfold main, load_validated_data. rewrite H.
  split; reflexivity.
Qed.

Lemma unhandled_load_error_aborts_run_witness :
  load_validated_data (World (LoadError RecursionError) true token_reply token_reply)
    INPUT_FILE
  = ([], Raise RecursionError) /\
  main no_libm (World (LoadError RecursionError) true token_reply token_reply)
  = ([], Raise RecursionError).
Proof.
  apply (@unhandled_load_error_aborts_run no_libm
           (World (LoadError RecursionError) true token_reply token_reply)
           RecursionError).
  reflexivity.
Defined.
